(** * aws-sso-config: a shallow embedding of [main.go] and its properties

    The program has three stages: [readSSOToken] picks a cached SSO token,
    [listSSOAccounts] enumerates the accounts of the remote service, and
    [updateAWSConfig] writes or removes profile sections of the AWS config
    file.  Each stage is embedded below as a function over explicit models of
    what it touches (the cache directory, the remote client, the INI file),
    and the properties of the specification are stated over these functions.

    Terminal output (the coloured progress messages) is not part of the
    model. *)

From Stdlib Require Import List String Ascii Bool Arith NArith ZArith Lia.
Import ListNotations.

Local Open Scope string_scope.
Local Open Scope list_scope.

(** ** Go strings

    A Go string is a sequence of bytes; [string] is used for it.  The
    functions of package [strings] that the program calls are written over
    the list of bytes of the string. *)

Definition bytes := list ascii.

Definition byte (c : ascii) : N := N_of_ascii c.

(** [c >= utf8.RuneSelf] *)
Definition isRuneSelf (c : ascii) : bool := (128 <=? byte c)%N.

(** The table [asciiSpace] of package [strings]: tab, newline, vertical tab,
    form feed, carriage return and space. *)
Definition asciiSpace (c : ascii) : bool :=
  ((9 <=? byte c) && (byte c <=? 13) || (byte c =? 32))%N.

(** ['A' <= c && c <= 'Z'], and [c + ('a' - 'A')] for such a byte. *)
Definition isUpperASCII (c : ascii) : bool :=
  ((65 <=? byte c) && (byte c <=? 90))%N.

Definition lowerASCII (c : ascii) : ascii :=
  if isUpperASCII c then ascii_of_N (byte c + 32) else c.

(** The parts of [strings.ToLower] and [strings.TrimSpace] that consult the
    Unicode tables are only reached on input with a byte outside ASCII.  The
    tables are not part of this repository; these three functions are taken
    as parameters, and nothing is assumed of them. *)
Class Unicode := {
  (** [strings.Map(unicode.ToLower, s)] *)
  mapToLower : bytes -> bytes;
  (** [strings.TrimFunc(s, unicode.IsSpace)] *)
  trimFuncIsSpace : bytes -> bytes;
  (** [strings.TrimRightFunc(s, unicode.IsSpace)] *)
  trimRightFuncIsSpace : bytes -> bytes
}.

(** The scan of [strings.TrimSpace] from one end: ASCII space bytes are
    skipped until a byte that is no ASCII space ([Stop]) or a byte outside
    ASCII ([Fallback]); both carry what is left, from that byte on. *)
Inductive scan := Stop (rest : bytes) | Fallback (rest : bytes).

Fixpoint skipASCIISpace (s : bytes) : scan :=
  match s with
  | [] => Stop []
  | c :: s' =>
      if isRuneSelf c then Fallback s
      else if asciiSpace c then skipASCIISpace s'
      else Stop s
  end.

Section Strings.
Context {U : Unicode}.

(** [strings.TrimSpace]: the scan from the left, then from the right. *)
Definition TrimSpace (s : bytes) : bytes :=
  match skipASCIISpace s with
  | Fallback rest => trimFuncIsSpace rest
  | Stop rest =>
      match skipASCIISpace (rev rest) with
      | Fallback r => trimRightFuncIsSpace (rev r)
      | Stop r => rev r
      end
  end.

(** [strings.ToLower]: byte-wise on an ASCII string, through the Unicode
    tables otherwise. *)
Definition ToLower (s : bytes) : bytes :=
  if forallb (fun c => negb (isRuneSelf c)) s then map lowerASCII s
  else mapToLower s.

(** [strings.ReplaceAll(s, " ", "-")] *)
Definition replaceSpaces (s : bytes) : bytes :=
  map (fun c => if (byte c =? 32)%N then "-"%char else c) s.

(** The function given to [strings.Map] keeps the runes of [a-z], [0-9]
    and [-] and drops every other one.  A rune below [utf8.RuneSelf] is one
    byte and no byte of a longer or invalid sequence is below it, so the
    rune-wise [strings.Map] is this filter on bytes. *)
Definition keepRune (c : ascii) : bool :=
  ((97 <=? byte c) && (byte c <=? 122)
   || (48 <=? byte c) && (byte c <=? 57)
   || (byte c =? 45))%N.

Definition normalizeBytes (s : bytes) : bytes :=
  filter keepRune (replaceSpaces (ToLower (TrimSpace s))).

(** [accountName] as computed at the head of the loop of
    [updateAWSConfig] (lines 227-235). *)
Definition normalizeAccountName (name : string) : string :=
  string_of_list_ascii (normalizeBytes (list_ascii_of_string name)).

End Strings.

(** [strings.HasSuffix] *)
Fixpoint HasSuffix (s suffix : string) : bool :=
  (s =? suffix)%string
  || match s with
     | EmptyString => false
     | String _ s' => HasSuffix s' suffix
     end.

(** [strings.Contains]: [substr] starts at some position of [s]. *)
Fixpoint Contains (s substr : string) : bool :=
  String.prefix substr s
  || match s with
     | EmptyString => false
     | String _ s' => Contains s' substr
     end.

(** [filepath.Join] of two elements: an empty element is ignored, and the
    separator is put between two others.  The cleaning of the result is not
    modelled: the elements are taken as clean paths. *)
Definition Join (a b : string) : string :=
  if (a =? "")%string then b
  else if (b =? "")%string then a
  else a ++ "/" ++ b.

(** An instance for running the definitions on ASCII input, on which the
    three functions are not called.  It is not what Go does on other input:
    it lowers no letter and trims no space outside ASCII.  The examples have
    ASCII input only. *)
Definition asciiUnicode : Unicode :=
  {| mapToLower := map lowerASCII;
     trimFuncIsSpace := fun s => s;
     trimRightFuncIsSpace := fun s => s |}.


(** ** Errors and results

    A Go function returning [(T, error)] returns a [result T]. *)

Inductive error :=
| ErrReadDir            (* os.ReadDir on the cache directory failed *)
| ErrTokenNotFound      (* "Unable to find an AWS SSO token for domain" *)
| ErrReadFile           (* os.ReadFile on the selected cache file failed *)
| ErrUnmarshal          (* json.Unmarshal on the selected cache file failed *)
| ErrTransport          (* a call of the SSO client failed *)
| ErrLoadConfig         (* "Failed to load AWS config file" *)
| ErrEmptySectionName   (* ini: NewSection with an empty name *)
| ErrSaveConfig.        (* ini: SaveTo failed *)

Inductive result (A : Type) :=
| Ok (a : A)
| Err (e : error).

Arguments Ok {A} a.
Arguments Err {A} e.

Definition bind {A B : Type} (r : result A) (k : A -> result B) : result B :=
  match r with
  | Ok a => k a
  | Err e => Err e
  end.

Notation "x <- r ;; k" := (bind r (fun x => k))
  (at level 61, r at next level, right associativity).

(** ** The data of the program *)

(** The command-line options, the global [opts] of the program. *)
Record Options := mkOptions {
  DryRun : bool;
  ProfilePrefix : string;
  Region : string;
  RoleName : string;
  StartDomain : string;
  Remove : bool
}.

Module SSOToken.

(** [type SSOToken struct]: the three fields read from a cache file. *)
Record t := mk {
  AccessToken : string;
  Region : string;
  StartURL : string
}.

End SSOToken.

(** Package [types] of the SSO service: the fields that the program reads.
    They are pointers to strings in Go and the service always sets them. *)
Module types.

Record AccountInfo := mkAccount {
  AccountId : string;
  AccountName : string
}.

Record RoleInfo := mkRole {
  RoleName : string
}.

End types.

(** Package [sso]: the two listing calls of the client.  A call is given
    the access token, the account for [ListAccountRoles], and the
    continuation token ([None] for the nil pointer of the first call); it
    fails or returns one page and the continuation token of the next. *)
Module sso.

Record ListAccountsOutput := mkAccounts {
  AccountList : list types.AccountInfo;
  NextToken : option string
}.

Record ListAccountRolesOutput := mkRoles {
  RoleList : list types.RoleInfo;
  RolesNextToken : option string   (* the field [NextToken] of this output *)
}.

Record Client := mkClient {
  ListAccounts : string -> option string -> result ListAccountsOutput;
  ListAccountRoles : string -> string -> option string -> result ListAccountRolesOutput
}.

End sso.

(** Package [os]: what the three calls of [readSSOToken] return for a
    path.  [Stat] gives [info.ModTime().Unix()], a signed 64-bit number of
    seconds; the program only compares it. *)
Record FileSystem := mkFS {
  ReadDir : string -> result (list string);
  ReadFile : string -> result string;
  Stat : string -> result Z
}.

(** ** readSSOToken *)

Section ReadSSOToken.
Variable opts : Options.
(** [json.Unmarshal] into an [SSOToken]: the decoder is not part of this
    repository and is taken as a parameter. *)
Variable Unmarshal : string -> result SSOToken.t.
Variable fs : FileSystem.
(** [os.Getenv("HOME")] *)
Variable home : string.

(** [cacheDir] of line 97. *)
Definition cacheDirectory : string :=
  Join (Join (Join home ".aws") "sso") "cache".

(** The loop of lines 106-129, from the values that [selectedFile] and
    [latestModTime] have before it. *)
Fixpoint scanCache (cacheDir : string) (files : list string)
    (selectedFile : string) (latestModTime : Z) : string * Z :=
  match files with
  | [] => (selectedFile, latestModTime)
  | file :: rest =>
      if HasSuffix file ".json" then
        let filePath := Join cacheDir file in
        match ReadFile fs filePath with
        | Err _ => scanCache cacheDir rest selectedFile latestModTime
        | Ok data =>
            match Unmarshal data with
            | Err _ => scanCache cacheDir rest selectedFile latestModTime
            | Ok token =>
                if negb (StartDomain opts =? "")%string
                   && negb (Contains (SSOToken.StartURL token) (StartDomain opts))
                then scanCache cacheDir rest selectedFile latestModTime
                else
                  match Stat fs filePath with
                  | Ok modTime =>
                      if (modTime >? latestModTime)%Z
                      then scanCache cacheDir rest filePath modTime
                      else scanCache cacheDir rest selectedFile latestModTime
                  | Err _ => scanCache cacheDir rest selectedFile latestModTime
                  end
            end
        end
      else scanCache cacheDir rest selectedFile latestModTime
  end.

Definition readSSOToken : result SSOToken.t :=
  let cacheDir := cacheDirectory in
  match ReadDir fs cacheDir with
  | Err e => Err e
  | Ok files =>
      let '(selectedFile, _) := scanCache cacheDir files "" 0%Z in
      if (selectedFile =? "")%string then Err ErrTokenNotFound
      else
        data <- ReadFile fs selectedFile ;;
        token <- Unmarshal data ;;
        Ok token
  end.

End ReadSSOToken.

(** ** listSSOAccounts

    The two loops follow continuation tokens for as long as the service
    sends them.  They are given [fuel], a bound on the number of calls of
    each loop; [None] is returned when a loop has not ended within it. *)

Section ListSSOAccounts.
Variable opts : Options.
Variable client : sso.Client.
Variable accessToken : string.

(** [validateRoleForAccount], from the value that [nextToken] has. *)
Fixpoint validateRoleFrom (fuel : nat) (accountID : string) (nextToken : option string)
  : option (result bool) :=
  match fuel with
  | O => None
  | S fuel' =>
      match sso.ListAccountRoles client accessToken accountID nextToken with
      | Err e => Some (Err e)
      | Ok resp =>
          if existsb (fun role => (types.RoleName role =? RoleName opts)%string)
                     (sso.RoleList resp)
          then Some (Ok true)
          else match sso.RolesNextToken resp with
               | None => Some (Ok false)
               | Some t => validateRoleFrom fuel' accountID (Some t)
               end
      end
  end.

Definition validateRoleForAccount (fuel : nat) (accountID : string)
  : option (result bool) :=
  validateRoleFrom fuel accountID None.

(** The loop of lines 164-178 over the accounts of one page: [accounts]
    with the accounts of the page that are kept, appended in order. *)
Fixpoint appendValid (fuel : nat) (page : list types.AccountInfo)
    (accounts : list types.AccountInfo) : option (list types.AccountInfo) :=
  match page with
  | [] => Some accounts
  | account :: rest =>
      if negb (RoleName opts =? "")%string then
        match validateRoleForAccount fuel (types.AccountId account) with
        | None => None
        | Some (Err _) => appendValid fuel rest accounts
        | Some (Ok false) => appendValid fuel rest accounts
        | Some (Ok true) => appendValid fuel rest (accounts ++ [account])
        end
      else appendValid fuel rest (accounts ++ [account])
  end.

(** The loop of lines 155-184, from the values that [accounts] and
    [nextToken] have. *)
Fixpoint listAccountsFrom (fuel calls : nat) (accounts : list types.AccountInfo)
    (nextToken : option string) : option (result (list types.AccountInfo)) :=
  match calls with
  | O => None
  | S calls' =>
      match sso.ListAccounts client accessToken nextToken with
      | Err e => Some (Err e)
      | Ok resp =>
          match appendValid fuel (sso.AccountList resp) accounts with
          | None => None
          | Some accounts' =>
              match sso.NextToken resp with
              | None => Some (Ok accounts')
              | Some t => listAccountsFrom fuel calls' accounts' (Some t)
              end
          end
      end
  end.

Definition listSSOAccounts (fuel : nat) : option (result (list types.AccountInfo)) :=
  listAccountsFrom fuel fuel [] None.

End ListSSOAccounts.
(** ** The INI file, as package [gopkg.in/ini.v1] keeps it

    The package is not part of this repository.  The model follows its
    documented behaviour with the default load options: a file is the list
    of its sections in order of appearance, a section is a name and the list
    of its keys in order of appearance, names are case-sensitive, and a
    section whose name has a dot is a child of the sections named by the
    prefixes before its dots: a key that the child does not have is looked
    up in its parents, nearest first.  A key stores a string ([Value]);
    [String] gives it with the references [%(name)s] to other keys
    expanded. *)

Module ini.

Record section := mkSection {
  Name : string;
  keyList : list (string * string)
}.

Definition File := list section.

Definition DefaultSection : string := "DEFAULT".

(** [ini.Empty()]: the default section, without keys. *)
Definition Empty : File := [mkSection DefaultSection []].

(** An empty section name stands for the default section. *)
Definition sectionName (name : string) : string :=
  if (name =? "")%string then DefaultSection else name.

Definition Sections (f : File) : list section := f.

Definition GetSection (f : File) (name : string) : option section :=
  find (fun s => (Name s =? sectionName name)%string) f.

Definition HasSection (f : File) (name : string) : bool :=
  match GetSection f name with Some _ => true | None => false end.

(** [NewSection] refuses the empty name, returns the section when the file
    has one of this name, and appends an empty section otherwise. *)
Definition NewSection (f : File) (name : string) : result (File * section) :=
  if (name =? "")%string then Err ErrEmptySectionName
  else match find (fun s => (Name s =? name)%string) f with
       | Some s => Ok (f, s)
       | None => Ok (f ++ [mkSection name []], mkSection name [])
       end.

Definition DeleteSection (f : File) (name : string) : File :=
  filter (fun s => negb (Name s =? sectionName name)%string) f.

(** The key [k] among the keys of one section. *)
Fixpoint lookupKey (keys : list (string * string)) (k : string) : option string :=
  match keys with
  | [] => None
  | (k', v) :: rest => if (k' =? k)%string then Some v else lookupKey rest k
  end.

(** The prefixes of [s] that end before a dot, shortest first. *)
Fixpoint dotPrefixes (s : string) : list string :=
  match s with
  | EmptyString => []
  | String c s' =>
      let rest := map (String c) (dotPrefixes s') in
      if Ascii.eqb c "." then EmptyString :: rest else rest
  end.

(** The names of the parent sections of a section, nearest first. *)
Definition parents (name : string) : list string := rev (dotPrefixes name).

(** The key [k] in the first section of the file, among those named by
    [names], that has it: the section holding it and its value. *)
Fixpoint inherited (f : File) (names : list string) (k : string)
  : option (string * string) :=
  match names with
  | [] => None
  | n :: rest =>
      match GetSection f n with
      | Some p =>
          match lookupKey (keyList p) k with
          | Some v => Some (Name p, v)
          | None => inherited f rest k
          end
      | None => inherited f rest k
      end
  end.

(** [s.GetKey(k)]: the key of the section itself, else the key of a parent
    section of the file. *)
Definition GetKey (f : File) (s : section) (k : string) : option (string * string) :=
  match lookupKey (keyList s) k with
  | Some v => Some (Name s, v)
  | None => inherited f (parents (Name s)) k
  end.

Definition HasKey (f : File) (s : section) (k : string) : bool :=
  match GetKey f s k with Some _ => true | None => false end.

(** [s.Key(k).Value()]: the string that the key stores, as it is written
    in the file.  [Key] makes a key with the empty value when [GetKey] finds
    none; the properties read a key only where [HasKey] holds. *)
Definition KeyValue (f : File) (s : section) (k : string) : string :=
  match GetKey f s k with Some (_, v) => v | None => "" end.

(** *** [Key.String]: the value with its references expanded

    [String] returns the stored value when it has no [%].  Otherwise it
    looks, at most 99 times, for the leftmost match of the regular
    expression [%\(([^)]+)\)s] in the value, and replaces every occurrence
    of the match by the stored value of the key that it names. *)

(** The text before the first [)] and the text after it. *)
Fixpoint untilParen (s : string) : option (string * string) :=
  match s with
  | EmptyString => None
  | String c rest =>
      if Ascii.eqb c ")" then Some (EmptyString, rest)
      else match untilParen rest with
           | Some (name, after) => Some (String c name, after)
           | None => None
           end
  end.

(** A match of the regular expression at the start of [s]: [%(], one or
    more characters other than [)], and [)s].  The result is the match and
    the name inside it. *)
Definition varAt (s : string) : option (string * string) :=
  match s with
  | String c1 (String c2 rest) =>
      if Ascii.eqb c1 "%" && Ascii.eqb c2 "(" then
        match untilParen rest with
        | Some (name, String c3 _) =>
            if Ascii.eqb c3 "s" && negb (name =? "")%string
            then Some (("%(" ++ name ++ ")s")%string, name)
            else None
        | _ => None
        end
      else None
  | _ => None
  end.

(** [varPattern.FindString]: the leftmost match. *)
Fixpoint FindVar (s : string) : option (string * string) :=
  match varAt s with
  | Some m => Some m
  | None =>
      match s with
      | EmptyString => None
      | String _ rest => FindVar rest
      end
  end.

(** [strings.Replace(s, old, new, -1)] for a non-empty [old]; [skip] counts
    the characters of an occurrence that are still to be passed over. *)
Fixpoint replaceFrom (skip : nat) (s old new : string) : string :=
  match s with
  | EmptyString => EmptyString
  | String c rest =>
      match skip with
      | S n => replaceFrom n rest old new
      | O =>
          if String.prefix old s
          then (new ++ replaceFrom (String.length old - 1) rest old new)%string
          else String c (replaceFrom 0 rest old new)
      end
  end.

Definition Replace (s old new : string) : string := replaceFrom 0 s old new.

(** As [inherited], with the section that holds the key. *)
Fixpoint inheritedFrom (f : File) (names : list string) (k : string)
  : option (section * string) :=
  match names with
  | [] => None
  | n :: rest =>
      match GetSection f n with
      | Some p =>
          match lookupKey (keyList p) k with
          | Some v => Some (p, v)
          | None => inheritedFrom f rest k
          end
      | None => inheritedFrom f rest k
      end
  end.

(** As [GetKey], with the section that holds the key. *)
Definition GetKeyFrom (f : File) (s : section) (k : string) : option (section * string) :=
  match lookupKey (keyList s) k with
  | Some v => Some (s, v)
  | None => inheritedFrom f (parents (Name s)) k
  end.

Definition depthValues : nat := 99.

(** The loop of [transformValue] for the key [kname] of section [ks], the
    section that holds it.  The key that a reference names is looked up from
    [ks]; when there is none, or when it is the key [kname] of [ks] itself,
    it is looked up in the default section, which [f.Section] makes when the
    file has none: the second component tells that this has happened.  The
    new default section has no key, so the loop ends there. *)
Fixpoint expand (depth : nat) (f : File) (ks : section) (kname val : string)
  : string * bool :=
  match depth with
  | O => (val, false)
  | S depth' =>
      match FindVar val with
      | None => (val, false)
      | Some (vr, noption) =>
          let nk :=
            match GetKeyFrom f ks noption with
            | Some (p, w) =>
                if (Name p =? Name ks)%string && (noption =? kname)%string
                then None else Some w
            | None => None
            end in
          match nk with
          | Some w => expand depth' f ks kname (Replace val vr w)
          | None =>
              match GetSection f "" with
              | None => (val, true)
              | Some d =>
                  match GetKeyFrom f d noption with
                  | Some (_, w) => expand depth' f ks kname (Replace val vr w)
                  | None => (val, false)
                  end
              end
          end
      end
  end.

(** [s.Key(k).String()], and the file after it.  [Key] makes the key with
    the empty value when [GetKey] finds none; the program reads a key only
    where [HasKey] holds, and the making is left out. *)
Definition KeyString (f : File) (s : section) (k : string) : string * File :=
  match GetKeyFrom f s k with
  | Some (ks, v) =>
      if negb (Contains v "%") then (v, f)
      else
        let '(val, made) := expand depthValues f ks k v in
        (val, if made then f ++ [mkSection DefaultSection []] else f)
  | None => (EmptyString, f)
  end.

(** The value of key [k] among the keys of one section becomes [v]. *)
Fixpoint setKey (keys : list (string * string)) (k v : string) : list (string * string) :=
  match keys with
  | [] => []
  | (k', v') :: rest =>
      if (k' =? k)%string then (k', v) :: rest else (k', v') :: setKey rest k v
  end.

(** The first section of the file named [name] becomes [g] of it. *)
Fixpoint updateSection (f : File) (name : string) (g : section -> section) : File :=
  match f with
  | [] => []
  | s :: rest =>
      if (Name s =? name)%string then g s :: rest
      else s :: updateSection rest name g
  end.

(** [s.Key(k).SetValue(v)] for the section of the file named [name]: the
    key that [GetKey] finds, in the section or in a parent, takes the value;
    when there is none, the section gets the new key [k] at the end.  The
    program calls it on a section that it has just fetched from the file or
    made in it. *)
Definition KeySetValue (f : File) (name k v : string) : File :=
  match GetSection f name with
  | None => f
  | Some s =>
      match GetKey f s k with
      | Some (owner, _) =>
          updateSection f owner (fun p => mkSection (Name p) (setKey (keyList p) k v))
      | None =>
          updateSection f (Name s) (fun p => mkSection (Name p) (keyList p ++ [(k, v)]))
      end
  end.

End ini.

(** ** The config file on disk

    The file at [configPath] is represented by what [ini.Load] returns for
    it: [None] when loading fails, the loaded file otherwise.  [SaveTo]
    replaces the content, or fails and leaves it when the file cannot be
    written.  The content after [SaveTo] is the file that is saved: this is
    what [ini.Load] reads back when the default section is the first
    section of that file, as it is in every loaded file.  A file without
    it, which the removal mode alone can make, is read back with a default
    section, and with the keys of a first section named [default] in any
    letter case in it: the properties that tell what is on disk after a
    removal are stated for the runs that keep the default section. *)

Record Disk := mkDisk {
  content : option ini.File;
  writable : bool
}.

Definition Load (d : Disk) : result ini.File :=
  match content d with
  | Some f => Ok f
  | None => Err ErrLoadConfig
  end.

Definition SaveTo (f : ini.File) (d : Disk) : option error * Disk :=
  if writable d then (None, mkDisk (Some f) true)
  else (Some ErrSaveConfig, d).

(** ** updateAWSConfig *)

Section UpdateAWSConfig.
Context {U : Unicode}.
Variable opts : Options.

(** The test of lines 241-247 on a section of the file: the four keys are
    there, and their values are those of the run.  The values are read
    with [String], one after the other as long as they agree; the file
    comes back with what the reading has made in it. *)
Definition matchesRun (cfg : ini.File) (s : ini.section) (account : types.AccountInfo)
    (startURL region : string) : bool * ini.File :=
  if ini.HasKey cfg s "sso_start_url" && ini.HasKey cfg s "sso_account_id"
     && ini.HasKey cfg s "sso_role_name" && ini.HasKey cfg s "region"
  then
    let '(v, cfg) := ini.KeyString cfg s "sso_start_url" in
    if (v =? startURL)%string then
      let '(v, cfg) := ini.KeyString cfg s "sso_account_id" in
      if (v =? types.AccountId account)%string then
        let '(v, cfg) := ini.KeyString cfg s "sso_role_name" in
        if (v =? RoleName opts)%string then
          let '(v, cfg) := ini.KeyString cfg s "region" in
          ((v =? region)%string, cfg)
        else (false, cfg)
      else (false, cfg)
    else (false, cfg)
  else (false, cfg).

(** The loop of lines 240-256 over [cfg.Sections()], taken before the loop. *)
Fixpoint removeMatching (sections : list ini.section) (account : types.AccountInfo)
    (startURL region : string) (cfg : ini.File) : ini.File :=
  match sections with
  | [] => cfg
  | s :: rest =>
      let '(matched, cfg) := matchesRun cfg s account startURL region in
      let cfg' :=
        if matched then
          if negb (DryRun opts) then ini.DeleteSection cfg (ini.Name s) else cfg
        else cfg in
      removeMatching rest account startURL region cfg'
  end.

(** Lines 272-284: the section of the profile is fetched or made, and its
    five keys are set. *)
Definition writeProfile (cfg : ini.File) (profileName : string)
    (account : types.AccountInfo) (startURL region : string) : result ini.File :=
  sec <- match ini.GetSection cfg profileName with
         | Some s => Ok (cfg, s)
         | None => ini.NewSection cfg profileName
         end ;;
  let '(cfg, s) := sec in
  let cfg := ini.KeySetValue cfg (ini.Name s) "sso_start_url" startURL in
  let cfg := ini.KeySetValue cfg (ini.Name s) "sso_region" region in
  let cfg := ini.KeySetValue cfg (ini.Name s) "sso_account_id" (types.AccountId account) in
  let cfg := ini.KeySetValue cfg (ini.Name s) "sso_role_name" (RoleName opts) in
  let cfg := ini.KeySetValue cfg (ini.Name s) "region" region in
  Ok cfg.

(** [profileName] of line 237, [profilePrefix] being the prefix after
    lines 222-224. *)
Definition profileNameOf (profilePrefix : string) (account : types.AccountInfo) : string :=
  profilePrefix ++ normalizeAccountName (types.AccountName account).

(** One turn of the loop of lines 226-285. *)
Definition updateAccount (profilePrefix : string) (account : types.AccountInfo)
    (startURL region : string) (cfg : ini.File) : result ini.File :=
  let profileName := profileNameOf profilePrefix account in
  if Remove opts then
    Ok (removeMatching (ini.Sections cfg) account startURL region cfg)
  else if DryRun opts then Ok cfg
  else writeProfile cfg profileName account startURL region.

Fixpoint updateAccounts (profilePrefix : string) (accounts : list types.AccountInfo)
    (startURL region : string) (cfg : ini.File) : result ini.File :=
  match accounts with
  | [] => Ok cfg
  | account :: rest =>
      cfg' <- updateAccount profilePrefix account startURL region cfg ;;
      updateAccounts profilePrefix rest startURL region cfg'
  end.

(** Lines 222-224. *)
Definition withDash (profilePrefix : string) : string :=
  if negb (profilePrefix =? "")%string then profilePrefix ++ "-" else profilePrefix.

(** [updateAWSConfig]: the error it returns, if any, and the config file
    on disk after it. *)
Definition updateAWSConfig (disk : Disk) (accounts : list types.AccountInfo)
    (startURL region profilePrefix : string) : option error * Disk :=
  match Load disk with
  | Err e => (Some e, disk)
  | Ok cfg =>
      match updateAccounts (withDash profilePrefix) accounts startURL region cfg with
      | Err e => (Some e, disk)
      | Ok cfg' =>
          if DryRun opts then (None, disk)
          else SaveTo cfg' disk
      end
  end.

End UpdateAWSConfig.

(** ** main

    The run as a whole: the exit code and the config file on disk after it.
    [opts] is what [flags.Parse] has filled in; [LoadDefaultConfig] stands
    for [config.LoadDefaultConfig] followed by [sso.NewFromConfig], which
    give the client of a region or fail. *)

Section Main.
Context {U : Unicode}.
Variable opts : Options.
Variable Unmarshal : string -> result SSOToken.t.
Variable fs : FileSystem.
Variable home : string.
Variable LoadDefaultConfig : string -> result sso.Client.

(** Lines 57-60. *)
Definition effectiveRegion (token : SSOToken.t) : string :=
  if negb (Region opts =? "")%string then Region opts else SSOToken.Region token.

Definition main (fuel : nat) (disk : Disk) : option (Z * Disk) :=
  match readSSOToken opts Unmarshal fs home with
  | Err _ => Some (1%Z, disk)
  | Ok token =>
      let region := effectiveRegion token in
      match LoadDefaultConfig region with
      | Err _ => Some (1%Z, disk)
      | Ok client =>
          match listSSOAccounts opts client (SSOToken.AccessToken token) fuel with
          | None => None
          | Some (Err _) => Some (1%Z, disk)
          | Some (Ok accounts) =>
              let profilePrefix := ProfilePrefix opts in
              match updateAWSConfig opts disk accounts (SSOToken.StartURL token)
                      region profilePrefix with
              | (Some _, disk') => Some (1%Z, disk')
              | (None, disk') => Some (0%Z, disk')
              end
          end
      end
  end.

End Main.

(** ** Notions used by the properties *)

(** What [ini.Load] gives: no two sections of a file have the same name,
    and no section has the empty name (it stands for the default
    section). *)
Definition wellFormed (f : ini.File) : Prop :=
  NoDup (map ini.Name f) /\ ~ In "" (map ini.Name f).

(** Key [k] of section [s] is there and stores the value [v], as [HasKey]
    and [Key(k).Value()] tell for the file [f]. *)
Definition keyIs (f : ini.File) (s : ini.section) (k v : string) : Prop :=
  ini.HasKey f s k = true /\ ini.KeyValue f s k = v.

(** The section itself holds key [k] with value [v]. *)
Definition holds (s : ini.section) (k v : string) : Prop :=
  ini.lookupKey (ini.keyList s) k = Some v.

(** The section itself holds the four keys with the values of the run. *)
Definition holdsRun (opts : Options) (s : ini.section)
    (account : types.AccountInfo) (startURL region : string) : Prop :=
  holds s "sso_start_url" startURL
  /\ holds s "sso_account_id" (types.AccountId account)
  /\ holds s "sso_role_name" (RoleName opts)
  /\ holds s "region" region.

(** [c] is [f] without the sections of some names. *)
Definition thinned (f c : ini.File) : Prop :=
  exists keep : string -> bool, c = filter (fun s => keep (ini.Name s)) f.

(** What [ini.Load] gives, in full: the file is [wellFormed] and its
    first section is the default section. *)
Definition loaded (f : ini.File) : Prop :=
  wellFormed f
  /\ exists d rest, f = d :: rest /\ ini.Name d = ini.DefaultSection.

(** Key [k] of section [s] is there and reads as [v], as [HasKey] and
    [Key(k).String()] tell for the file [c]. *)
Definition reads (c : ini.File) (s : ini.section) (k v : string) : Prop :=
  ini.HasKey c s k = true /\ fst (ini.KeyString c s k) = v.

(** The section passes the test of the removal mode on the file [c]: the
    four keys are there and read as the values of the run for [account]. *)
Definition passes (opts : Options) (c : ini.File) (s : ini.section)
    (account : types.AccountInfo) (startURL region : string) : Prop :=
  reads c s "sso_start_url" startURL
  /\ reads c s "sso_account_id" (types.AccountId account)
  /\ reads c s "sso_role_name" (RoleName opts)
  /\ reads c s "region" region.

(** The default section of the file is none that the run removes: the test
    of the removal mode fails for it, for every account. *)
Definition defaultStays (opts : Options) (accounts : list types.AccountInfo)
    (startURL region : string) (f : ini.File) : Prop :=
  forall d account,
    ini.GetSection f "" = Some d -> In account accounts ->
    fst (matchesRun opts f d account startURL region) = false.

(** The value has no reference [%(name)s] to a key. *)
Definition plain (v : string) : Prop := ini.FindVar v = None.

(** The values of the run for [account] have no reference. *)
Definition plainRun (opts : Options) (account : types.AccountInfo)
    (startURL region : string) : Prop :=
  plain startURL /\ plain (types.AccountId account)
  /\ plain (RoleName opts) /\ plain region.

(** [c] is [f] without some sections, and has the default section of
    [f]. *)
Definition keepsDefault (f c : ini.File) : Prop :=
  thinned f c
  /\ exists d, ini.GetSection f "" = Some d /\ ini.GetSection c "" = Some d.

(** The statement that the removal mode deletes only sections with all
    five keys there and read as the values of the run, on the file as it
    was when the loop came to the section. *)
Definition removesOnlySectionsWithFiveKeys : Prop :=
  forall (U : Unicode) (opts : Options) (disk : Disk)
         (accounts : list types.AccountInfo)
         (startURL region profilePrefix : string) (f f' : ini.File),
    Remove opts = true ->
    content disk = Some f ->
    loaded f -> defaultStays opts accounts startURL region f ->
    content (snd (updateAWSConfig opts disk accounts startURL region profilePrefix))
      = Some f' ->
    forall s, In s f -> ~ In s f' ->
      exists account c,
        In account accounts /\ thinned f c /\ In s c
        /\ passes opts c s account startURL region
        /\ reads c s "sso_region" region.

(** The statement that the removal mode goes by the values as the
    sections store them: on a loaded file whose default section stays, a
    section that stores the four keys with the values of the run is deleted,
    and a section that stores another role name is saved as it was. *)
Definition removalGoesByStoredValues : Prop :=
  forall (U : Unicode) (opts : Options) (disk : Disk)
         (accounts : list types.AccountInfo)
         (startURL region profilePrefix : string) (f f' : ini.File),
    Remove opts = true -> DryRun opts = false ->
    content disk = Some f -> writable disk = true ->
    loaded f -> defaultStays opts accounts startURL region f ->
    content (snd (updateAWSConfig opts disk accounts startURL region profilePrefix))
      = Some f' ->
    (forall s account,
       In s f -> In account accounts -> holdsRun opts s account startURL region ->
       ~ In (ini.Name s) (map ini.Name f'))
    /\ (forall s v,
          In s f -> holds s "sso_role_name" v -> v <> RoleName opts ->
          In s f').

(** The section that [name] stands for has key [k] with value [v]. *)
Definition resolvesTo (c : ini.File) (name k v : string) : Prop :=
  exists s, ini.GetSection c name = Some s /\ keyIs c s k v.

(** From [c] to [c'] the sections keep their names, none goes away, and
    the value of key [k] in a section stays or becomes [v]. *)
Definition settles (k v : string) (c c' : ini.File) : Prop :=
  forall name,
    match ini.GetSection c name, ini.GetSection c' name with
    | Some s, Some s' =>
        ini.Name s' = ini.Name s
        /\ (ini.lookupKey (ini.keyList s') k = ini.lookupKey (ini.keyList s) k
            \/ ini.lookupKey (ini.keyList s') k = Some v)
    | None, Some s' =>
        ini.lookupKey (ini.keyList s') k = None
        \/ ini.lookupKey (ini.keyList s') k = Some v
    | None, None => True
    | Some _, None => False
    end.

(** *** Notions for [readSSOToken] *)

Section TokenNotions.
Variable opts : Options.
Variable Unmarshal : string -> result SSOToken.t.
Variable fs : FileSystem.
Variable cacheDir : string.

(** The token of a cache file that qualifies: its name ends in [.json],
    it can be read, its content parses, and the start URL contains the
    requested domain when one is given. *)
Definition candidateToken (file : string) : option SSOToken.t :=
  if HasSuffix file ".json" then
    match ReadFile fs (Join cacheDir file) with
    | Ok data =>
        match Unmarshal data with
        | Ok token =>
            if negb (StartDomain opts =? "")%string
               && negb (Contains (SSOToken.StartURL token) (StartDomain opts))
            then None
            else Some token
        | Err _ => None
        end
    | Err _ => None
    end
  else None.

Definition qualifies (file : string) : Prop := candidateToken file <> None.

(** The modification time of a cache file, when [os.Stat] gives it. *)
Definition modTimeOf (file : string) : option Z :=
  match Stat fs (Join cacheDir file) with
  | Ok t => Some t
  | Err _ => None
  end.

(** [file], with modification time [t], is in [files]; no qualifying file
    is newer; of the qualifying files of the same time it is the first. *)
Definition newestFirst (files : list string) (file : string) (t : Z) : Prop :=
  exists before after,
    files = before ++ file :: after
    /\ (forall q tq, In q before -> qualifies q -> modTimeOf q = Some tq -> (tq < t)%Z)
    /\ (forall q tq, In q after -> qualifies q -> modTimeOf q = Some tq -> (tq <= t)%Z).

(** The same, but of the qualifying files of the same time it is the
    last. *)
Definition newestLast (files : list string) (file : string) (t : Z) : Prop :=
  exists before after,
    files = before ++ file :: after
    /\ (forall q tq, In q before -> qualifies q -> modTimeOf q = Some tq -> (tq <= t)%Z)
    /\ (forall q tq, In q after -> qualifies q -> modTimeOf q = Some tq -> (tq < t)%Z).

(** What holds of [selectedFile] and [latestModTime] when the files
    [done] have been gone through. *)
Definition scanned (done : list string) (selectedFile : string) (latestModTime : Z)
  : Prop :=
  (selectedFile = "" /\ latestModTime = 0%Z
   /\ forall q tq, In q done -> qualifies q -> modTimeOf q = Some tq -> (tq <= 0)%Z)
  \/ (exists file,
        selectedFile = Join cacheDir file
        /\ qualifies file
        /\ modTimeOf file = Some latestModTime
        /\ (0 < latestModTime)%Z
        /\ newestFirst done file latestModTime).

End TokenNotions.

(** The statement that [readSSOToken] returns the token of the newest
    qualifying file and, of several of the same time, of the last. *)
Definition selectsLastOfNewest : Prop :=
  forall (opts : Options) (Unmarshal : string -> result SSOToken.t)
         (fs : FileSystem) (home : string) (files : list string)
         (token : SSOToken.t),
    ReadDir fs (cacheDirectory home) = Ok files ->
    readSSOToken opts Unmarshal fs home = Ok token ->
    exists file t,
      candidateToken opts Unmarshal fs (cacheDirectory home) file = Some token
      /\ modTimeOf fs (cacheDirectory home) file = Some t
      /\ newestLast opts Unmarshal fs (cacheDirectory home) files file t.

(** *** Notions for [listSSOAccounts] *)

Section AccountNotions.
Variable opts : Options.
Variable client : sso.Client.
Variable accessToken : string.

(** The pages of accounts that the service sends from the continuation
    token [nextToken] on: each page but the last comes with the token that
    the next call is made with, the last comes with none. *)
Inductive accountPages : option string -> list (list types.AccountInfo) -> Prop :=
| accountPages_last nextToken page :
    sso.ListAccounts client accessToken nextToken = Ok (sso.mkAccounts page None) ->
    accountPages nextToken [page]
| accountPages_more nextToken page t pages :
    sso.ListAccounts client accessToken nextToken = Ok (sso.mkAccounts page (Some t)) ->
    accountPages (Some t) pages ->
    accountPages nextToken (page :: pages).

(** The same for the roles of an account. *)
Inductive rolePages (accountID : string)
  : option string -> list (list types.RoleInfo) -> Prop :=
| rolePages_last nextToken page :
    sso.ListAccountRoles client accessToken accountID nextToken
      = Ok (sso.mkRoles page None) ->
    rolePages accountID nextToken [page]
| rolePages_more nextToken page t pages :
    sso.ListAccountRoles client accessToken accountID nextToken
      = Ok (sso.mkRoles page (Some t)) ->
    rolePages accountID (Some t) pages ->
    rolePages accountID nextToken (page :: pages).

(** A role of the list has exactly the name of the option. *)
Definition hasRoleName (roles : list types.RoleInfo) : bool :=
  existsb (fun role => (types.RoleName role =? RoleName opts)%string) roles.

(** The account passes the test of lines 165-176: there is no role filter,
    or the check of its roles says yes. *)
Definition retained (fuel : nat) (account : types.AccountInfo) : bool :=
  (RoleName opts =? "")%string
  || match validateRoleForAccount opts client accessToken fuel
             (types.AccountId account) with
     | Some (Ok true) => true
     | _ => false
     end.

(** Where there is a role filter, the check of the roles of every account
    of the pages ends within [fuel] calls. *)
Definition roleChecksEnd (fuel : nat) (pages : list (list types.AccountInfo)) : Prop :=
  forall account, In account (List.concat pages) ->
    RoleName opts <> "" ->
    validateRoleForAccount opts client accessToken fuel (types.AccountId account)
    <> None.

End AccountNotions.

(** The statement that [listSSOAccounts] returns all items of all pages. *)
Definition returnsAllItems : Prop :=
  forall (opts : Options) (client : sso.Client) (accessToken : string)
         (fuel : nat) (pages : list (list types.AccountInfo))
         (accounts : list types.AccountInfo),
    accountPages client accessToken None pages ->
    listSSOAccounts opts client accessToken fuel = Some (Ok accounts) ->
    accounts = List.concat pages.

Definition AccountInfo_eq_dec (a b : types.AccountInfo) : {a = b} + {a <> b}.
Proof.
  decide equality; apply string_dec.
Defined.

(** ** Inputs for the examples *)

Module Example.

(** The run of the tests of the repository: account "MockAccount", role
    "AdministratorAccess", region "us-east-1", prefix "mock". *)
Definition startURL : string := "https://mock-sso.awsapps.com/start".
Definition region : string := "us-east-1".
Definition account : types.AccountInfo := types.mkAccount "123456789012" "MockAccount".
Definition applyOpts : Options := mkOptions false "" "" "AdministratorAccess" "" false.
Definition removeOpts : Options := mkOptions false "" "" "AdministratorAccess" "" true.
Definition dryRemoveOpts : Options := mkOptions true "" "" "AdministratorAccess" "" true.

(** The section that the apply mode writes for this run. *)
Definition profile : ini.section :=
  ini.mkSection "mock-mockaccount"
    [("sso_start_url", startURL); ("sso_region", region);
     ("sso_account_id", "123456789012");
     ("sso_role_name", "AdministratorAccess"); ("region", region)].

(** A section with the four keys that the removal mode compares, and
    without key sso_region. *)
Definition fourKeys : ini.section :=
  ini.mkSection "legacy"
    [("sso_start_url", startURL); ("sso_account_id", "123456789012");
     ("sso_role_name", "AdministratorAccess"); ("region", region)].

(** A section of another role. *)
Definition otherRole : ini.section :=
  ini.mkSection "mock-readonly"
    [("sso_start_url", startURL); ("sso_region", region);
     ("sso_account_id", "123456789012");
     ("sso_role_name", "ReadOnly"); ("region", region)].

(** A section whose role name is written as a reference to its key
    [role]. *)
Definition byReference : ini.section :=
  ini.mkSection "mock-indirect"
    [("role", "AdministratorAccess");
     ("sso_start_url", startURL); ("sso_region", region);
     ("sso_account_id", "123456789012");
     ("sso_role_name", "%(role)s"); ("region", region)].

Definition config : ini.File := ini.Empty ++ [profile; otherRole].
Definition referenceConfig : ini.File := ini.Empty ++ [byReference].
Definition legacyConfig : ini.File := ini.Empty ++ [fourKeys].

(** A decoder for the examples: the content of a cache file is its start
    URL, and the empty content does not parse. *)
Definition Unmarshal (data : string) : result SSOToken.t :=
  if (data =? "")%string then Err ErrUnmarshal
  else Ok (SSOToken.mk "access-token" "us-east-1" data).

Definition home : string := "/home/user".
Definition cacheDir : string := cacheDirectory home.

(** Two cache files of the same modification time. *)
Definition twoFiles : FileSystem :=
  mkFS (fun _ => Ok ["a.json"; "b.json"])
       (fun path =>
          if (path =? Join cacheDir "a.json")%string then Ok "https://a.awsapps.com/start"
          else if (path =? Join cacheDir "b.json")%string then Ok "https://b.awsapps.com/start"
          else Err ErrReadFile)
       (fun _ => Ok 1700000000%Z).

(** One cache file, last modified at the epoch (1970-01-01T00:00:00Z). *)
Definition epochFile : FileSystem :=
  mkFS (fun _ => Ok ["token.json"])
       (fun _ => Ok "https://d-1234567890.awsapps.com/start")
       (fun _ => Ok 0%Z).

Definition tokenOpts (domain : string) : Options :=
  mkOptions false "" "" "AdministratorAccess" domain false.

(** A service with two pages of one account each; the first account has
    the role "AdministratorAccess", the second has not. *)
Definition admin : types.AccountInfo := types.mkAccount "111111111111" "Admin Account".
Definition guest : types.AccountInfo := types.mkAccount "222222222222" "Guest Account".

Definition client : sso.Client :=
  sso.mkClient
    (fun _ nextToken =>
       match nextToken with
       | None => Ok (sso.mkAccounts [admin] (Some "page-2"))
       | Some _ => Ok (sso.mkAccounts [guest] None)
       end)
    (fun _ accountID _ =>
       if (accountID =? "111111111111")%string
       then Ok (sso.mkRoles [types.mkRole "ReadOnly";
                             types.mkRole "AdministratorAccess"] None)
       else Ok (sso.mkRoles [types.mkRole "ReadOnly"] None)).

End Example.

(** ** Further notions *)

(** The cache file qualifies, as a boolean. *)
Definition qualifiesb (opts : Options) (Unmarshal : string -> result SSOToken.t)
    (fs : FileSystem) (cacheDir file : string) : bool :=
  match candidateToken opts Unmarshal fs cacheDir file with
  | Some _ => true
  | None => false
  end.

(** The file system with another listing for every directory. *)
Definition withListing (fs : FileSystem) (files : list string) : FileSystem :=
  mkFS (fun _ => Ok files) (ReadFile fs) (Stat fs).

Section MoreAccountNotions.
Variable client : sso.Client.
Variable accessToken : string.

(** The listing of accounts fails with [e] after the pages [pages], each
    of which came with the continuation token of the next call. *)
Inductive accountListingFails
  : option string -> list (list types.AccountInfo) -> error -> Prop :=
| accountListingFails_now nextToken e :
    sso.ListAccounts client accessToken nextToken = Err e ->
    accountListingFails nextToken [] e
| accountListingFails_later nextToken page t pages e :
    sso.ListAccounts client accessToken nextToken = Ok (sso.mkAccounts page (Some t)) ->
    accountListingFails (Some t) pages e ->
    accountListingFails nextToken (page :: pages) e.

(** The pages of roles [pages] of an account, each of which came with the
    continuation token of the next call; the call after them is made with
    [last]. *)
Inductive roleListingReaches (accountID : string)
  : option string -> list (list types.RoleInfo) -> option string -> Prop :=
| roleListingReaches_here nextToken :
    roleListingReaches accountID nextToken [] nextToken
| roleListingReaches_on nextToken page t pages last :
    sso.ListAccountRoles client accessToken accountID nextToken
      = Ok (sso.mkRoles page (Some t)) ->
    roleListingReaches accountID (Some t) pages last ->
    roleListingReaches accountID nextToken (page :: pages) last.

End MoreAccountNotions.

(** The name has a dot: the section of this name is a child section. *)
Fixpoint hasDot (name : string) : bool :=
  match name with
  | EmptyString => false
  | String c rest => Ascii.eqb c "." || hasDot rest
  end.

(** No section of the file is a child section. *)
Definition flat (f : ini.File) : Prop :=
  forall s, In s f -> hasDot (ini.Name s) = false.

(** No value that a section of the file stores has a reference. *)
Definition plainFile (f : ini.File) : Prop :=
  forall s k v, In s f -> holds s k v -> plain v.

(** [holdsRun] as a boolean. *)
Definition holdsb (s : ini.section) (k v : string) : bool :=
  match ini.lookupKey (ini.keyList s) k with
  | Some w => (w =? v)%string
  | None => false
  end.

Definition holdsRunb (opts : Options) (s : ini.section)
    (account : types.AccountInfo) (startURL region : string) : bool :=
  holdsb s "sso_start_url" startURL
  && holdsb s "sso_account_id" (types.AccountId account)
  && holdsb s "sso_role_name" (RoleName opts)
  && holdsb s "region" region.

(** The names of the five keys of a profile section. *)
Definition profileKeys : list string :=
  ["sso_start_url"; "sso_region"; "sso_account_id"; "sso_role_name"; "region"].

(** The section that the apply mode makes for an account when the file has
    none for it. *)
Definition newProfile (opts : Options) (profileName : string)
    (account : types.AccountInfo) (startURL region : string) : ini.section :=
  ini.mkSection profileName
    [("sso_start_url", startURL); ("sso_region", region);
     ("sso_account_id", types.AccountId account);
     ("sso_role_name", RoleName opts); ("region", region)].

(** [s'] is [s] with, at most, other values or further keys among the five
    keys of a profile: the name and every other key are as in [s]. *)
Definition sameButProfileKeys (s s' : ini.section) : Prop :=
  ini.Name s' = ini.Name s
  /\ forall k, ~ In k profileKeys ->
       ini.lookupKey (ini.keyList s') k = ini.lookupKey (ini.keyList s) k.

(** [c'] has the sections of [c], in order and each the same but for the
    profile keys, and then further sections. *)
Definition extendsFile (c c' : ini.File) : Prop :=
  exists kept added, c' = kept ++ added /\ Forall2 sameButProfileKeys c kept.

(** The five keys of the section of an account with the values that the
    apply mode gives them, in the order of lines 280-284. *)
Definition profilePairs (opts : Options) (account : types.AccountInfo)
    (startURL region : string) : list (string * string) :=
  [("sso_start_url", startURL); ("sso_region", region);
   ("sso_account_id", types.AccountId account);
   ("sso_role_name", RoleName opts); ("region", region)].

(** The keys of [pairs] set one after the other in the section named
    [name]. *)
Definition setPairs (name : string) (pairs : list (string * string))
    (c : ini.File) : ini.File :=
  fold_left (fun c kv => ini.KeySetValue c name (fst kv) (snd kv)) pairs c.

(** The keys whose value is the same for every account of a run. *)
Definition runPairs (opts : Options) (startURL region : string)
  : list (string * string) :=
  [("sso_start_url", startURL); ("sso_region", region);
   ("sso_role_name", RoleName opts); ("region", region)].

(** ** Further inputs for the examples *)

Module Sample.

(** A cache directory with an entry that is no JSON file, two tokens, the
    second the newer one, and a file that does not parse. *)
Definition cache : FileSystem :=
  mkFS (fun _ => Ok ["notes.txt"; "a.json"; "broken.json"; "b.json"])
       (fun path =>
          if (path =? Join Example.cacheDir "a.json")%string
          then Ok "https://a.awsapps.com/start"
          else if (path =? Join Example.cacheDir "b.json")%string
          then Ok "https://b.awsapps.com/start"
          else if (path =? Join Example.cacheDir "broken.json")%string
          then Ok ""
          else Err ErrReadFile)
       (fun path =>
          if (path =? Join Example.cacheDir "b.json")%string
          then Ok 1700000500%Z else Ok 1700000000%Z).

Definition tokenB : SSOToken.t :=
  SSOToken.mk "access-token" "us-east-1" "https://b.awsapps.com/start".

(** A cache directory without a token. *)
Definition noToken : FileSystem :=
  mkFS (fun _ => Ok ["notes.txt"]) (fun _ => Err ErrReadFile)
       (fun _ => Err ErrReadFile).

(** A service whose second call of the account listing fails. *)
Definition failingListing : sso.Client :=
  sso.mkClient
    (fun _ nextToken =>
       match nextToken with
       | None => Ok (sso.mkAccounts [Example.admin] (Some "page-2"))
       | Some _ => Err ErrTransport
       end)
    (sso.ListAccountRoles Example.client).

(** A service whose role listing fails for every account but the first. *)
Definition failingRoles : sso.Client :=
  sso.mkClient
    (sso.ListAccounts Example.client)
    (fun _ accountID _ =>
       if (accountID =? "111111111111")%string
       then Ok (sso.mkRoles [types.mkRole "AdministratorAccess"] None)
       else Err ErrTransport).

(** A service with two pages of roles, and a failure after them. *)
Definition pagedRoles : sso.Client :=
  sso.mkClient
    (sso.ListAccounts Example.client)
    (fun _ _ nextToken =>
       match nextToken with
       | None => Ok (sso.mkRoles [types.mkRole "ReadOnly"] (Some "roles-2"))
       | Some t =>
           if (t =? "roles-2")%string
           then Ok (sso.mkRoles [types.mkRole "AdministratorAccess"] (Some "roles-3"))
           else Err ErrTransport
       end).

Definition powerUserOpts : Options := mkOptions false "" "" "PowerUser" "" false.
Definition noFilterOpts : Options := mkOptions false "" "" "" "" false.

(** The accounts of the first test of the repository. *)
Definition another : types.AccountInfo :=
  types.mkAccount "123456789013" "AnotherMockAccount".

(** An account whose name has no letter, digit or hyphen. *)
Definition nameless : types.AccountInfo := types.mkAccount "333333333333" "###".

Definition emptyDisk : Disk := mkDisk (Some ini.Empty) true.
Definition appliedDisk : Disk := mkDisk (Some (ini.Empty ++ [Example.profile])) true.

(** The run of the whole program on the cache [cache], the service
    [Example.client] and the empty config file. *)
Definition LoadDefaultConfig (region : string) : result sso.Client :=
  Ok Example.client.

Definition mainDisk : Disk :=
  mkDisk (Some (ini.Empty ++
    [ini.mkSection "admin-account"
       [("sso_start_url", "https://b.awsapps.com/start");
        ("sso_region", "us-east-1");
        ("sso_account_id", "111111111111");
        ("sso_role_name", "AdministratorAccess");
        ("region", "us-east-1")]])) true.

End Sample.

(** * Properties *)

(** ** Profile-name derivation *)

Example normalize_MockAccount (U : Unicode) :
  normalizeAccountName "MockAccount" = "mockaccount".
Proof. reflexivity. Qed.

Example normalize_trims_and_hyphenates (U : Unicode) :
  normalizeAccountName "  Prod (EU) 2 " = "prod-eu-2".
Proof. reflexivity. Qed.

(** A byte that [keepRune] keeps is ASCII, is no space, and has no upper
    case to fold. *)
Lemma keepRune_plain (c : ascii) :
  keepRune c = true ->
  isRuneSelf c = false /\ asciiSpace c = false
  /\ lowerASCII c = c /\ (byte c =? 32)%N = false.
Proof.
  unfold keepRune, isRuneSelf, asciiSpace, lowerASCII, isUpperASCII.
  generalize (byte c); intros n H.
  assert (Hn : (97 <= n <= 122 \/ 48 <= n <= 57 \/ n = 45)%N).
  { apply orb_true_iff in H as [H | H]; [apply orb_true_iff in H as [H | H] |].
    - apply andb_true_iff in H as [H1 H2].
      apply N.leb_le in H1, H2. lia.
    - apply andb_true_iff in H as [H1 H2].
      apply N.leb_le in H1, H2. lia.
    - apply N.eqb_eq in H. lia. }
  assert (H128 : (128 <=? n)%N = false) by (apply N.leb_gt; lia).
  assert (H9 : ((9 <=? n) && (n <=? 13))%N = false).
  { apply andb_false_iff. right. apply N.leb_gt. lia. }
  assert (H32 : (n =? 32)%N = false) by (apply N.eqb_neq; lia).
  assert (HU : ((65 <=? n) && (n <=? 90))%N = false).
  { destruct (N.leb_spec 65 n); [| reflexivity].
    apply andb_false_iff. right. apply N.leb_gt. lia. }
  rewrite H128, H9, H32, HU. auto.
Qed.

Lemma skipASCIISpace_kept (s : bytes) :
  forallb keepRune s = true -> skipASCIISpace s = Stop s.
Proof.
  destruct s as [| c s]; [reflexivity |].
  simpl. intros H. apply andb_true_iff in H as [Hc _].
  destruct (keepRune_plain c Hc) as (-> & -> & _). reflexivity.
Qed.

Section StringFacts.
Context {U : Unicode}.

Lemma TrimSpace_kept (s : bytes) :
  forallb keepRune s = true -> TrimSpace s = s.
Proof.
  intros H. unfold TrimSpace.
  rewrite (skipASCIISpace_kept s H).
  rewrite skipASCIISpace_kept; [apply rev_involutive |].
  rewrite forallb_forall in *. intros c Hc. apply H, in_rev, Hc.
Qed.

Lemma ToLower_kept (s : bytes) :
  forallb keepRune s = true -> ToLower s = s.
Proof.
  intros H. unfold ToLower.
  rewrite forallb_forall in H.
  replace (forallb (fun c => negb (isRuneSelf c)) s) with true.
  - rewrite <- (map_id s) at 2. apply map_ext_in.
    intros c Hc. apply (keepRune_plain c (H c Hc)).
  - symmetry. apply forallb_forall. intros c Hc.
    destruct (keepRune_plain c (H c Hc)) as (-> & _). reflexivity.
Qed.

Lemma replaceSpaces_kept (s : bytes) :
  forallb keepRune s = true -> replaceSpaces s = s.
Proof.
  intros H. unfold replaceSpaces. rewrite forallb_forall in H.
  rewrite <- (map_id s) at 2. apply map_ext_in.
  intros c Hc. destruct (keepRune_plain c (H c Hc)) as (_ & _ & _ & ->).
  reflexivity.
Qed.

Lemma filter_kept (s : bytes) :
  forallb keepRune s = true -> filter keepRune s = s.
Proof.
  induction s as [| c s IH]; simpl; [reflexivity |].
  intros H. apply andb_true_iff in H as [Hc Hs].
  rewrite Hc, (IH Hs). reflexivity.
Qed.

(** The derived name has only lowercase letters, digits and hyphens. *)
Lemma normalizeBytes_kept (s : bytes) :
  forallb keepRune (normalizeBytes s) = true.
Proof.
  apply forallb_forall. intros c Hc.
  apply filter_In in Hc. apply Hc.
Qed.

Lemma normalizeBytes_fixed (s : bytes) :
  forallb keepRune s = true -> normalizeBytes s = s.
Proof.
  intros H. unfold normalizeBytes.
  rewrite (TrimSpace_kept s H), (ToLower_kept s H), (replaceSpaces_kept s H).
  apply filter_kept, H.
Qed.

(** C9: the derivation of the profile name from the account name (trim,
    lower case, hyphens for spaces, only [a-z0-9-] kept) is idempotent: on
    a name that it has produced it changes nothing, for every account
    name. *)
Theorem normalizeAccountName_idempotent (name : string) :
  normalizeAccountName (normalizeAccountName name) = normalizeAccountName name.
Proof.
  unfold normalizeAccountName.
  rewrite list_ascii_of_string_of_list_ascii.
  rewrite normalizeBytes_fixed; [reflexivity |].
  apply normalizeBytes_kept.
Qed.

End StringFacts.

(** ** updateAWSConfig: the apply mode on the empty file *)

(** C6: on the empty config file, the apply mode for the one account
    "MockAccount" (id 123456789012) with role "AdministratorAccess", region
    "us-east-1", start URL "https://mock-sso.awsapps.com/start" and prefix
    "mock" saves a file with exactly one section besides the default
    section of the empty file: it is named "mock-mockaccount" and its keys
    are sso_start_url, sso_region, sso_account_id, sso_role_name and region
    with these values. *)
Theorem apply_MockAccount_on_empty_file
    (U : Unicode) (profilePrefixFlag regionFlag startDomain : string) :
  let opts := mkOptions false profilePrefixFlag regionFlag "AdministratorAccess"
                        startDomain false in
  updateAWSConfig opts (mkDisk (Some ini.Empty) true)
    [types.mkAccount "123456789012" "MockAccount"]
    "https://mock-sso.awsapps.com/start" "us-east-1" "mock"
  = (None,
     mkDisk (Some (ini.Empty ++
       [ini.mkSection "mock-mockaccount"
          [("sso_start_url", "https://mock-sso.awsapps.com/start");
           ("sso_region", "us-east-1");
           ("sso_account_id", "123456789012");
           ("sso_role_name", "AdministratorAccess");
           ("region", "us-east-1")]])) true).
Proof.
  intros opts. unfold updateAWSConfig, Load. cbn [content].
  assert (Hname : profileNameOf (withDash "mock")
                    (types.mkAccount "123456789012" "MockAccount")
                  = "mock-mockaccount") by reflexivity.
  unfold updateAccounts, updateAccount. rewrite Hname.
  reflexivity.
Qed.

(** ** updateAWSConfig: dry run *)

Section DryRunFacts.
Context {U : Unicode}.
Variable opts : Options.
Hypothesis dry : DryRun opts = true.

(** A dry run has no step that fails. *)
Lemma updateAccounts_dry profilePrefix accounts startURL region cfg :
  exists cfg',
    updateAccounts opts profilePrefix accounts startURL region cfg = Ok cfg'.
Proof.
  revert cfg. induction accounts as [| account rest IH]; intros cfg; simpl.
  - exists cfg. reflexivity.
  - unfold updateAccount. rewrite dry.
    destruct (Remove opts); simpl; apply IH.
Qed.

(** Nothing is saved. *)
Lemma updateAWSConfig_dry disk accounts startURL region profilePrefix :
  snd (updateAWSConfig opts disk accounts startURL region profilePrefix) = disk.
Proof.
  unfold updateAWSConfig.
  destruct (Load disk) as [cfg | e]; [| reflexivity].
  destruct (updateAccounts_dry (withDash profilePrefix) accounts startURL region cfg)
    as [cfg' ->].
  rewrite dry. reflexivity.
Qed.

(** C3: with the dry run enabled, [updateAWSConfig] leaves the config file
    on disk as it is, for every file, every list of accounts and both
    modes: nothing is saved. *)
Theorem dry_run_keeps_disk disk accounts startURL region profilePrefix :
  snd (updateAWSConfig opts disk accounts startURL region profilePrefix) = disk.
Proof.
  apply updateAWSConfig_dry.
Qed.

End DryRunFacts.

(** The dry run of the removal mode on a file with a section of the run:
    the section is reported, and the file stays. *)
Lemma dry_run_keeps_disk_witness :
  DryRun Example.dryRemoveOpts = true
  /\ snd (@updateAWSConfig asciiUnicode Example.dryRemoveOpts
            (mkDisk (Some Example.config) true) [Example.account]
            Example.startURL Example.region "mock")
     = mkDisk (Some Example.config) true.
Proof.
  split; [reflexivity |].
  apply (@dry_run_keeps_disk asciiUnicode Example.dryRemoveOpts); reflexivity.
Defined.

(** ** Facts about the INI file *)

Lemma NoDup_map_filter {A B : Type} (g : A -> B) (p : A -> bool) (l : list A) :
  NoDup (map g l) -> NoDup (map g (filter p l)).
Proof.
  induction l as [| x l IH]; simpl; intros H; [constructor |].
  inversion H as [| ? ? Hx Hl]; subst.
  destruct (p x); simpl; [| apply IH, Hl].
  constructor; [| apply IH, Hl].
  intros Hin. apply Hx.
  apply in_map_iff in Hin as (y & Hy & Hin).
  apply filter_In in Hin as [Hin _].
  apply in_map_iff. exists y. auto.
Qed.

Lemma NoDup_map_eq {A B : Type} (g : A -> B) (l : list A) (x y : A) :
  NoDup (map g l) -> In x l -> In y l -> g x = g y -> x = y.
Proof.
  induction l as [| z l IH]; simpl; intros H Hx Hy E; [contradiction |].
  inversion H as [| ? ? Hz Hl]; subst.
  destruct Hx as [-> | Hx], Hy as [-> | Hy]; auto.
  - exfalso. apply Hz. rewrite E. apply in_map, Hy.
  - exfalso. apply Hz. rewrite <- E. apply in_map, Hx.
Qed.

Lemma sectionName_nonempty (name : string) :
  name <> "" -> ini.sectionName name = name.
Proof.
  intros H. unfold ini.sectionName.
  destruct (String.eqb_spec name ""); [contradiction | reflexivity].
Qed.

Lemma wellFormed_name (f : ini.File) (s : ini.section) :
  wellFormed f -> In s f -> ini.sectionName (ini.Name s) = ini.Name s.
Proof.
  intros [_ Hne] Hs. apply sectionName_nonempty.
  intros E. apply Hne. rewrite <- E. apply in_map, Hs.
Qed.

Lemma GetSection_Some (f : ini.File) (name : string) (p : ini.section) :
  ini.GetSection f name = Some p -> In p f /\ ini.Name p = ini.sectionName name.
Proof.
  unfold ini.GetSection. intros H. apply find_some in H as [Hin E].
  split; [exact Hin |]. apply String.eqb_eq, E.
Qed.

Lemma GetSection_filter (keep : string -> bool) (f : ini.File) (name : string) :
  ini.GetSection (filter (fun s => keep (ini.Name s)) f) name
  = if keep (ini.sectionName name) then ini.GetSection f name else None.
Proof.
  unfold ini.GetSection.
  induction f as [| x f IH]; simpl.
  - destruct (keep _); reflexivity.
  - destruct (keep (ini.Name x)) eqn:Kx; simpl.
    + destruct (String.eqb_spec (ini.Name x) (ini.sectionName name)) as [E | E].
      * rewrite <- E, Kx. reflexivity.
      * exact IH.
    + rewrite IH.
      destruct (String.eqb_spec (ini.Name x) (ini.sectionName name)) as [E | E].
      * rewrite <- E, Kx. reflexivity.
      * reflexivity.
Qed.

Lemma DeleteSection_filter (keep : string -> bool) (f : ini.File) (name : string) :
  ini.DeleteSection (filter (fun s => keep (ini.Name s)) f) name
  = filter (fun s => (fun n => keep n && negb (n =? ini.sectionName name)%string)
                       (ini.Name s)) f.
Proof.
  unfold ini.DeleteSection.
  induction f as [| x f IH]; simpl; [reflexivity |].
  destruct (keep (ini.Name x)); simpl; [| exact IH].
  destruct (negb _); [rewrite IH |]; auto.
Qed.

Lemma filter_all {A : Type} (g : A -> string) (l : list A) :
  l = filter (fun x => (fun _ => true) (g x)) l.
Proof.
  induction l as [| x l IH]; simpl; congruence.
Qed.

Lemma thinned_refl (f : ini.File) : thinned f f.
Proof.
  exists (fun _ => true). exact (filter_all ini.Name f).
Qed.

Lemma thinned_DeleteSection (f c : ini.File) (name : string) :
  thinned f c -> thinned f (ini.DeleteSection c name).
Proof.
  intros [keep ->]. rewrite DeleteSection_filter.
  exists (fun n => keep n && negb (n =? ini.sectionName name)%string).
  reflexivity.
Qed.

Lemma thinned_In (f c : ini.File) (s : ini.section) :
  thinned f c -> In s c -> In s f.
Proof.
  intros [keep ->] H. apply filter_In in H. apply H.
Qed.

Lemma thinned_trans (f c c' : ini.File) :
  thinned f c -> thinned c c' -> thinned f c'.
Proof.
  intros [k1 ->] [k2 ->]. exists (fun n => k1 n && k2 n).
  induction f as [| x f IH]; simpl; [reflexivity |].
  destruct (k1 (ini.Name x)); simpl; [| exact IH].
  destruct (k2 (ini.Name x)); simpl; [rewrite IH |]; auto.
Qed.

Lemma thinned_wellFormed (f c : ini.File) :
  wellFormed f -> thinned f c -> wellFormed c.
Proof.
  intros [Hnd Hne] [keep ->]. split.
  - apply NoDup_map_filter, Hnd.
  - intros H. apply Hne.
    apply in_map_iff in H as (y & Hy & Hin).
    apply filter_In in Hin as [Hin _].
    apply in_map_iff. exists y. auto.
Qed.

(** A section of [f] is in the thinned file, or no section of the thinned
    file has its name. *)
Lemma thinned_In_or_gone (f c : ini.File) (s : ini.section) :
  thinned f c -> In s f ->
  In s c \/ ~ In (ini.Name s) (map ini.Name c).
Proof.
  intros [keep ->] Hs.
  destruct (keep (ini.Name s)) eqn:K.
  - left. apply filter_In. auto.
  - right. intros H.
    apply in_map_iff in H as (y & Hy & Hin).
    apply filter_In in Hin as [_ Ky]. congruence.
Qed.

Lemma thinned_names (f c : ini.File) (n : string) :
  thinned f c -> In n (map ini.Name c) -> In n (map ini.Name f).
Proof.
  intros T H. apply in_map_iff in H as (y & Hy & Hin).
  apply in_map_iff. exists y. split; [exact Hy |].
  eapply thinned_In; eauto.
Qed.

Lemma DeleteSection_gone (c : ini.File) (name : string) :
  ~ In (ini.sectionName name) (map ini.Name (ini.DeleteSection c name)).
Proof.
  unfold ini.DeleteSection. intros H.
  apply in_map_iff in H as (y & Hy & Hin).
  apply filter_In in Hin as [_ Ky].
  rewrite Hy, String.eqb_refl in Ky. discriminate.
Qed.

(** The keys that a section holds itself are found first. *)
Lemma holds_GetKey (f : ini.File) (s : ini.section) (k v : string) :
  holds s k v -> ini.GetKey f s k = Some (ini.Name s, v).
Proof.
  unfold holds, ini.GetKey. intros ->. reflexivity.
Qed.

Lemma holds_keyIs (f : ini.File) (s : ini.section) (k v : string) :
  holds s k v -> keyIs f s k v.
Proof.
  intros H. unfold keyIs, ini.HasKey, ini.KeyValue.
  rewrite (holds_GetKey f s k v H). auto.
Qed.

Lemma keyIs_GetKey (f : ini.File) (s : ini.section) (k v : string) :
  keyIs f s k v <-> exists owner, ini.GetKey f s k = Some (owner, v).
Proof.
  unfold keyIs, ini.HasKey, ini.KeyValue. split.
  - intros [H E]. destruct (ini.GetKey f s k) as [[o w] |]; [| discriminate].
    exists o. congruence.
  - intros [o ->]. auto.
Qed.

Lemma keyIs_unique (f : ini.File) (s : ini.section) (k v w : string) :
  keyIs f s k v -> keyIs f s k w -> v = w.
Proof.
  intros [_ <-] [_ <-]. reflexivity.
Qed.

(** ** Facts about [Key.String] and the test of the removal mode *)

Lemma inheritedFrom_inherited (f : ini.File) (names : list string) (k : string) :
  ini.inherited f names k
  = match ini.inheritedFrom f names k with
    | Some (p, v) => Some (ini.Name p, v)
    | None => None
    end.
Proof.
  induction names as [| n rest IH]; simpl; [reflexivity |].
  destruct (ini.GetSection f n) as [p |]; [| exact IH].
  destruct (ini.lookupKey (ini.keyList p) k); [reflexivity | exact IH].
Qed.

(** [GetKeyFrom] finds the key that [GetKey] finds. *)
Lemma GetKeyFrom_GetKey (f : ini.File) (s : ini.section) (k : string) :
  ini.GetKey f s k
  = match ini.GetKeyFrom f s k with
    | Some (p, v) => Some (ini.Name p, v)
    | None => None
    end.
Proof.
  unfold ini.GetKey, ini.GetKeyFrom.
  destruct (ini.lookupKey (ini.keyList s) k); [reflexivity |].
  apply inheritedFrom_inherited.
Qed.

(** The stored value is the value of the key that [GetKeyFrom] finds. *)
Lemma KeyValue_GetKeyFrom (f : ini.File) (s : ini.section) (k : string) :
  ini.KeyValue f s k
  = match ini.GetKeyFrom f s k with Some (_, v) => v | None => "" end.
Proof.
  unfold ini.KeyValue. rewrite GetKeyFrom_GetKey.
  destruct (ini.GetKeyFrom f s k) as [[p v] |]; reflexivity.
Qed.

(** With a default section in the file, the reading makes none. *)
Lemma expand_with_default (n : nat) (f : ini.File) (ks d : ini.section)
    (k v : string) :
  ini.GetSection f "" = Some d -> snd (ini.expand n f ks k v) = false.
Proof.
  intros G. revert v. induction n as [| n IH]; intros v; simpl; [reflexivity |].
  destruct (ini.FindVar v) as [[vr noption] |]; [| reflexivity].
  destruct (match ini.GetKeyFrom f ks noption with
            | Some (p, w) =>
                if (ini.Name p =? ini.Name ks)%string && (noption =? k)%string
                then None else Some w
            | None => None
            end) as [w |]; [apply IH |].
  rewrite G.
  destruct (ini.GetKeyFrom f d noption) as [[p w] |]; [apply IH | reflexivity].
Qed.

Lemma KeyString_with_default (f : ini.File) (s d : ini.section) (k : string) :
  ini.GetSection f "" = Some d -> snd (ini.KeyString f s k) = f.
Proof.
  intros G. unfold ini.KeyString.
  destruct (ini.GetKeyFrom f s k) as [[ks v] |]; [| reflexivity].
  destruct (negb (Contains v "%")); [reflexivity |].
  pose proof (expand_with_default ini.depthValues f ks d k v G) as E.
  destruct (ini.expand ini.depthValues f ks k v) as [val made].
  simpl in E. subst made. reflexivity.
Qed.

(** A value without reference is read as it is stored. *)
Lemma expand_plain (n : nat) (f : ini.File) (ks : ini.section) (k v : string) :
  plain v -> ini.expand n f ks k v = (v, false).
Proof.
  intros H. destruct n; simpl; [reflexivity |]. rewrite H. reflexivity.
Qed.

Lemma KeyString_plain (f : ini.File) (s : ini.section) (k v : string) :
  holds s k v -> plain v -> ini.KeyString f s k = (v, f).
Proof.
  intros Hh Hp. unfold ini.KeyString, ini.GetKeyFrom. rewrite Hh.
  destruct (negb (Contains v "%")); [reflexivity |].
  rewrite (expand_plain _ f s k v Hp). reflexivity.
Qed.

Lemma holds_HasKey (f : ini.File) (s : ini.section) (k v : string) :
  holds s k v -> ini.HasKey f s k = true.
Proof.
  intros H. unfold ini.HasKey. rewrite (holds_GetKey f s k v H). reflexivity.
Qed.

Lemma holds_reads (f : ini.File) (s : ini.section) (k v : string) :
  holds s k v -> plain v -> reads f s k v.
Proof.
  intros Hh Hp. split; [apply (holds_HasKey f s k v Hh) |].
  rewrite (KeyString_plain f s k v Hh Hp). reflexivity.
Qed.

(** *** The default section

    The default section has no parent section, and its references are to
    its own keys: what is read from it depends on nothing else. *)

Lemma GetKeyFrom_default (c : ini.File) (d : ini.section) (k : string) :
  ini.Name d = ini.DefaultSection ->
  ini.GetKeyFrom c d k
  = match ini.lookupKey (ini.keyList d) k with
    | Some v => Some (d, v)
    | None => None
    end.
Proof.
  intros E. unfold ini.GetKeyFrom. rewrite E. reflexivity.
Qed.

Lemma HasKey_default (c f : ini.File) (d : ini.section) (k : string) :
  ini.Name d = ini.DefaultSection -> ini.HasKey c d k = ini.HasKey f d k.
Proof.
  intros E. unfold ini.HasKey.
  rewrite !GetKeyFrom_GetKey, !(GetKeyFrom_default _ d k E). reflexivity.
Qed.

Lemma expand_default (n : nat) (c f : ini.File) (d : ini.section) (k v : string) :
  ini.Name d = ini.DefaultSection ->
  ini.GetSection c "" = Some d -> ini.GetSection f "" = Some d ->
  ini.expand n c d k v = ini.expand n f d k v.
Proof.
  intros E Gc Gf. revert v. induction n as [| n IH]; intros v; simpl; [reflexivity |].
  destruct (ini.FindVar v) as [[vr noption] |]; [| reflexivity].
  rewrite Gc, Gf, !(GetKeyFrom_default _ d noption E).
  destruct (ini.lookupKey (ini.keyList d) noption) as [w |]; [| reflexivity].
  destruct ((ini.Name d =? ini.Name d)%string && (noption =? k)%string); apply IH.
Qed.

Lemma KeyString_default (c f : ini.File) (d : ini.section) (k : string) :
  ini.Name d = ini.DefaultSection ->
  ini.GetSection c "" = Some d -> ini.GetSection f "" = Some d ->
  fst (ini.KeyString c d k) = fst (ini.KeyString f d k).
Proof.
  intros E Gc Gf. unfold ini.KeyString.
  rewrite !(GetKeyFrom_default _ d k E).
  destruct (ini.lookupKey (ini.keyList d) k) as [v |]; [| reflexivity].
  destruct (negb (Contains v "%")); [reflexivity |].
  rewrite (expand_default _ c f d k v E Gc Gf).
  destruct (ini.expand ini.depthValues f d k v) as [val made]. reflexivity.
Qed.

Lemma reads_default (c f : ini.File) (d : ini.section) (k v : string) :
  ini.Name d = ini.DefaultSection ->
  ini.GetSection c "" = Some d -> ini.GetSection f "" = Some d ->
  reads c d k v -> reads f d k v.
Proof.
  intros E Gc Gf [H1 H2]. split.
  - rewrite <- H1. apply HasKey_default, E.
  - rewrite <- H2. symmetry. apply KeyString_default; assumption.
Qed.

Lemma GetSection_DeleteSection (c : ini.File) (n m : string) :
  ini.sectionName m <> ini.sectionName n ->
  ini.GetSection (ini.DeleteSection c n) m = ini.GetSection c m.
Proof.
  intros H. unfold ini.DeleteSection.
  rewrite (GetSection_filter (fun x => negb (x =? ini.sectionName n)%string)).
  destruct (String.eqb_spec (ini.sectionName m) (ini.sectionName n));
    [contradiction | reflexivity].
Qed.

Lemma loaded_default (f : ini.File) :
  loaded f ->
  exists d, ini.GetSection f "" = Some d /\ ini.Name d = ini.DefaultSection /\ In d f.
Proof.
  intros [_ (d & rest & -> & E)]. exists d.
  unfold ini.GetSection. simpl. rewrite E. simpl. auto.
Qed.

Section TestFacts.
Variable opts : Options.
Variables startURL region : string.

(** With a default section in the file, the test leaves the file as it is
    and is [passes]. *)
Lemma matchesRun_with_default (cfg : ini.File) (s d : ini.section)
    (account : types.AccountInfo) :
  ini.GetSection cfg "" = Some d ->
  snd (matchesRun opts cfg s account startURL region) = cfg
  /\ (fst (matchesRun opts cfg s account startURL region) = true
      <-> passes opts cfg s account startURL region).
Proof.
  intros G.
  pose proof (KeyString_with_default cfg s d "sso_start_url" G) as E1.
  pose proof (KeyString_with_default cfg s d "sso_account_id" G) as E2.
  pose proof (KeyString_with_default cfg s d "sso_role_name" G) as E3.
  pose proof (KeyString_with_default cfg s d "region" G) as E4.
  unfold matchesRun, passes, reads.
  destruct (ini.HasKey cfg s "sso_start_url"); simpl;
    [| split; [reflexivity | split; [discriminate | intros [[H _] _]; discriminate H]]].
  destruct (ini.HasKey cfg s "sso_account_id"); simpl;
    [| split; [reflexivity
              | split; [discriminate | intros (_ & [H _] & _); discriminate H]]].
  destruct (ini.HasKey cfg s "sso_role_name"); simpl;
    [| split; [reflexivity
              | split; [discriminate | intros (_ & _ & [H _] & _); discriminate H]]].
  destruct (ini.HasKey cfg s "region"); simpl;
    [| split; [reflexivity
              | split; [discriminate | intros (_ & _ & _ & [H _]); discriminate H]]].
  destruct (ini.KeyString cfg s "sso_start_url") as [v1 c1].
  simpl in E1. subst c1.
  destruct (String.eqb_spec v1 startURL) as [<- | N1];
    [| split; [reflexivity | split; [discriminate | intros ([_ H] & _); contradiction]]].
  destruct (ini.KeyString cfg s "sso_account_id") as [v2 c2].
  simpl in E2. subst c2.
  destruct (String.eqb_spec v2 (types.AccountId account)) as [<- | N2];
    [| split; [reflexivity
              | split; [discriminate | intros (_ & [_ H] & _); contradiction]]].
  destruct (ini.KeyString cfg s "sso_role_name") as [v3 c3].
  simpl in E3. subst c3.
  destruct (String.eqb_spec v3 (RoleName opts)) as [<- | N3];
    [| split; [reflexivity
              | split; [discriminate | intros (_ & _ & [_ H] & _); contradiction]]].
  destruct (ini.KeyString cfg s "region") as [v4 c4].
  simpl in E4. subst c4. simpl.
  destruct (String.eqb_spec v4 region) as [<- | N4].
  - split; [reflexivity |]. split; auto.
  - split; [reflexivity |].
    split; [discriminate | intros (_ & _ & _ & [_ H]); contradiction].
Qed.

(** The test on the default section is the same on every file that has
    this default section. *)
Lemma matchesRun_default (c f : ini.File) (d : ini.section)
    (account : types.AccountInfo) :
  ini.Name d = ini.DefaultSection ->
  ini.GetSection c "" = Some d -> ini.GetSection f "" = Some d ->
  fst (matchesRun opts c d account startURL region)
  = fst (matchesRun opts f d account startURL region).
Proof.
  intros E Gc Gf.
  destruct (matchesRun_with_default c d d account Gc) as [_ Hc].
  destruct (matchesRun_with_default f d d account Gf) as [_ Hf].
  apply Bool.eq_true_iff_eq. rewrite Hc, Hf.
  unfold passes. split; intros (H1 & H2 & H3 & H4);
    (split; [| split; [| split]]);
    first [ apply (reads_default c f d _ _ E Gc Gf); assumption
          | apply (reads_default f c d _ _ E Gf Gc); assumption ].
Qed.

(** A section that stores the keys of the run, plain values all of them,
    passes the test. *)
Lemma holdsRun_passes (cfg : ini.File) (s : ini.section)
    (account : types.AccountInfo) :
  holdsRun opts s account startURL region ->
  plainRun opts account startURL region ->
  passes opts cfg s account startURL region.
Proof.
  intros (H1 & H2 & H3 & H4) (P1 & P2 & P3 & P4).
  unfold passes. split; [| split; [| split]]; apply holds_reads; assumption.
Qed.

(** A section that stores another role name, a plain value, fails it. *)
Lemma other_role_fails (cfg : ini.File) (s : ini.section)
    (account : types.AccountInfo) (v : string) :
  holds s "sso_role_name" v -> plain v -> v <> RoleName opts ->
  ~ passes opts cfg s account startURL region.
Proof.
  intros Hh Hp Hne (_ & _ & [_ H] & _).
  rewrite (KeyString_plain cfg s _ _ Hh Hp) in H. simpl in H. contradiction.
Qed.

End TestFacts.

(** ** updateAWSConfig: the removal mode *)

Section RemovalFacts.
Context {U : Unicode}.
Variable opts : Options.
Variables startURL region : string.

(** A property of files with a default section that every deletion of the
    loop keeps holds after the loop. *)
Lemma removeMatching_invariant (Q : ini.File -> Prop) sections account cfg :
  (forall c, Q c -> exists d, ini.GetSection c "" = Some d) ->
  Q cfg ->
  (forall c s, Q c -> In s sections ->
     fst (matchesRun opts c s account startURL region) = true ->
     DryRun opts = false ->
     Q (ini.DeleteSection c (ini.Name s))) ->
  Q (removeMatching opts sections account startURL region cfg).
Proof.
  intros HQd. revert cfg.
  induction sections as [| s rest IH]; intros cfg HQ Hstep; simpl; [exact HQ |].
  destruct (HQd cfg HQ) as [d G].
  destruct (matchesRun_with_default opts startURL region cfg s d account G)
    as [Esnd _].
  destruct (matchesRun opts cfg s account startURL region) as [m c1] eqn:M.
  simpl in Esnd. subst c1.
  apply IH.
  - destruct m; [| exact HQ].
    destruct (DryRun opts) eqn:D; simpl; [exact HQ |].
    apply Hstep; simpl; auto. rewrite M. reflexivity.
  - intros c s' Hc Hs'. apply Hstep; simpl; auto.
Qed.

Hypothesis removal : Remove opts = true.

(** The removal mode has no step that fails. *)
Lemma removal_never_fails profilePrefix accounts cfg :
  exists cfg',
    updateAccounts opts profilePrefix accounts startURL region cfg = Ok cfg'.
Proof.
  revert cfg. induction accounts as [| account rest IH]; intros cfg; simpl.
  - exists cfg. reflexivity.
  - unfold updateAccount. rewrite removal. simpl. apply IH.
Qed.

(** A property of files with a default section that every deletion keeps
    holds at the end of the removal.  The section [s] that is deleted is one
    of a file that had the property, and the test is made on a file that has
    it. *)
Lemma removal_invariant (Q : ini.File -> Prop) profilePrefix accounts cfg :
  (forall c, Q c -> exists d, ini.GetSection c "" = Some d) ->
  Q cfg ->
  (forall snapshot c s account,
     Q snapshot -> Q c -> In account accounts -> In s snapshot ->
     fst (matchesRun opts c s account startURL region) = true ->
     DryRun opts = false ->
     Q (ini.DeleteSection c (ini.Name s))) ->
  exists cfg',
    updateAccounts opts profilePrefix accounts startURL region cfg = Ok cfg'
    /\ Q cfg'.
Proof.
  intros HQd. revert cfg.
  induction accounts as [| account rest IH]; intros cfg HQ Hstep; simpl.
  - exists cfg. auto.
  - unfold updateAccount. rewrite removal. simpl.
    apply IH.
    + apply removeMatching_invariant; [exact HQd | exact HQ |].
      intros c s Hc Hs. apply (Hstep cfg); simpl; auto.
    + intros snapshot c s a Hsn Hc Ha. apply Hstep; simpl; auto.
Qed.

(** *** On a loaded file whose default section stays *)

Variable accounts : list types.AccountInfo.
Variable f : ini.File.
Hypothesis ld : loaded f.
Hypothesis stays : defaultStays opts accounts startURL region f.

Lemma keepsDefault_refl : keepsDefault f f.
Proof.
  split; [apply thinned_refl |].
  destruct (loaded_default f ld) as (d & G & _). exists d. auto.
Qed.

Lemma keepsDefault_default c :
  keepsDefault f c -> exists d, ini.GetSection c "" = Some d.
Proof.
  intros (_ & d & _ & G). exists d. exact G.
Qed.

(** The section that the loop deletes is not the default section. *)
Lemma keepsDefault_delete c s account :
  keepsDefault f c -> In s f -> In account accounts ->
  fst (matchesRun opts c s account startURL region) = true ->
  keepsDefault f (ini.DeleteSection c (ini.Name s)).
Proof.
  intros (T & d & Gf & Gc) Hs Ha M.
  split; [apply thinned_DeleteSection, T |].
  exists d. split; [exact Gf |].
  rewrite GetSection_DeleteSection; [exact Gc |].
  destruct ld as [Hwf _].
  rewrite (wellFormed_name f s Hwf Hs).
  destruct (GetSection_Some f "" d Gf) as [Hd Ed].
  intros E.
  assert (s = d) as ->.
  { destruct Hwf as [Hnd _]. apply (NoDup_map_eq ini.Name f); auto. congruence. }
  rewrite (matchesRun_default opts startURL region c f d account Ed Gc Gf) in M.
  rewrite (stays d account Gf Ha) in M. discriminate M.
Qed.

(** The removal from a file that has the default section of [f] takes
    sections out, and nothing else. *)
Lemma removal_keepsDefault profilePrefix l c :
  incl l accounts -> keepsDefault f c ->
  exists cfg',
    updateAccounts opts profilePrefix l startURL region c = Ok cfg'
    /\ keepsDefault f cfg' /\ thinned c cfg'.
Proof.
  intros Hl Hc.
  apply (removal_invariant (fun x => keepsDefault f x /\ thinned c x)).
  - intros x [Hx _]. apply (keepsDefault_default x Hx).
  - split; [exact Hc | apply thinned_refl].
  - intros snapshot x s account [[Tsn _] _] [Hx Tx] Ha Hs M _. split.
    + apply (keepsDefault_delete x s account); auto.
      apply (thinned_In f snapshot); assumption.
    + apply thinned_DeleteSection, Tx.
Qed.

Lemma removeMatching_keepsDefault sections account c :
  (forall s, In s sections -> In s f) -> In account accounts ->
  keepsDefault f c ->
  keepsDefault f (removeMatching opts sections account startURL region c)
  /\ thinned c (removeMatching opts sections account startURL region c).
Proof.
  intros Hsec Ha Hc.
  apply (removeMatching_invariant (fun x => keepsDefault f x /\ thinned c x)).
  - intros x [Hx _]. apply (keepsDefault_default x Hx).
  - split; [exact Hc | apply thinned_refl].
  - intros x s [Hx Tx] Hs M _. split.
    + apply (keepsDefault_delete x s account); auto.
    + apply thinned_DeleteSection, Tx.
Qed.

Hypothesis wet : DryRun opts = false.

(** One pass of the loop deletes a section of the snapshot that stores the
    keys of the run. *)
Lemma removeMatching_deletes sections account c s :
  (forall t, In t sections -> In t f) -> In account accounts ->
  keepsDefault f c ->
  In s sections -> holdsRun opts s account startURL region ->
  plainRun opts account startURL region ->
  ~ In (ini.Name s)
       (map ini.Name (removeMatching opts sections account startURL region c)).
Proof.
  intros Hsec Ha Hc Hs Hh Hp. revert c Hc Hsec Hs.
  induction sections as [| s' rest IH]; intros c Hc Hsec Hs; [contradiction |].
  simpl.
  destruct (keepsDefault_default c Hc) as [d G].
  destruct (matchesRun_with_default opts startURL region c s' d account G)
    as [Esnd Hpass].
  destruct (matchesRun opts c s' account startURL region) as [m c1] eqn:M.
  simpl in Esnd, Hpass. subst c1.
  assert (Hnext : keepsDefault f
            (if m then if negb (DryRun opts) then ini.DeleteSection c (ini.Name s')
                       else c
             else c)).
  { destruct m; [| exact Hc]. rewrite wet. simpl.
    apply (keepsDefault_delete c s' account Hc (Hsec s' (or_introl eq_refl)) Ha).
    rewrite M. reflexivity. }
  destruct Hs as [-> | Hs].
  - assert (m = true) as ->
      by (apply Hpass, holdsRun_passes; assumption).
    rewrite wet in *. simpl in *.
    intros Hin.
    destruct (removeMatching_keepsDefault rest account _
                (fun t Ht => Hsec t (or_intror Ht)) Ha Hnext) as [_ T].
    apply (thinned_names _ _ _ T) in Hin.
    apply (DeleteSection_gone c (ini.Name s)).
    destruct ld as [Hwf _].
    rewrite (wellFormed_name f s Hwf (Hsec s (or_introl eq_refl))). exact Hin.
  - apply IH; auto. intros t Ht. apply Hsec. simpl. auto.
Qed.

Lemma removal_deletes profilePrefix l account c s :
  incl l accounts -> In account l -> keepsDefault f c ->
  In s f -> holdsRun opts s account startURL region ->
  plainRun opts account startURL region ->
  In s c \/ ~ In (ini.Name s) (map ini.Name c) ->
  exists cfg',
    updateAccounts opts profilePrefix l startURL region c = Ok cfg'
    /\ ~ In (ini.Name s) (map ini.Name cfg').
Proof.
  intros Hl Ha Hc Hsf Hh Hp. revert c Hc.
  induction l as [| a rest IH]; intros c Hc Hsc; [contradiction |].
  assert (Hrest : incl rest accounts) by (intros x Hx; apply Hl; simpl; auto).
  assert (Haa : In a accounts) by (apply Hl; simpl; auto).
  simpl. unfold updateAccount. rewrite removal. simpl. unfold ini.Sections.
  destruct (removeMatching_keepsDefault c a c
              (fun t Ht => thinned_In f c t (proj1 Hc) Ht) Haa Hc) as [Hc1 T].
  destruct Ha as [-> | Ha].
  - destruct (removal_keepsDefault profilePrefix rest
                (removeMatching opts c account startURL region c) Hrest Hc1)
      as (cfg' & E & _ & T').
    exists cfg'. split; [exact E |].
    intros Hin. apply (thinned_names _ _ _ T') in Hin.
    destruct Hsc as [Hsc | Hsc].
    + revert Hin. apply removeMatching_deletes; auto.
      intros t Ht. apply (thinned_In f c t (proj1 Hc) Ht).
    + apply Hsc. apply (thinned_names c _ _ T Hin).
  - apply (IH Hrest Ha _ Hc1).
    destruct Hsc as [Hsc | Hsc].
    + apply thinned_In_or_gone with (f := c); assumption.
    + right. intros Hin. apply Hsc. apply (thinned_names c _ _ T Hin).
Qed.

(** A section that stores another role name stays. *)
Lemma removal_keeps profilePrefix s v :
  In s f -> holds s "sso_role_name" v -> plain v -> v <> RoleName opts ->
  exists cfg',
    updateAccounts opts profilePrefix accounts startURL region f = Ok cfg'
    /\ In s cfg'.
Proof.
  intros Hs Hv Hp Hne.
  destruct (removal_invariant (fun c => keepsDefault f c /\ In s c)
              profilePrefix accounts f) as (cfg' & E & _ & Hin).
  - intros x [Hx _]. apply (keepsDefault_default x Hx).
  - split; [apply keepsDefault_refl | exact Hs].
  - intros snapshot c t account [[Tsn _] _] [Hc Hsc] Ha Ht M _.
    assert (Htf : In t f) by (apply (thinned_In f snapshot); assumption).
    split; [apply (keepsDefault_delete c t account); auto |].
    unfold ini.DeleteSection. apply filter_In. split; [exact Hsc |].
    apply negb_true_iff, String.eqb_neq. intros Ename.
    destruct ld as [Hwf _].
    rewrite (wellFormed_name f t Hwf Htf) in Ename.
    assert (s = t) as <-.
    { destruct Hwf as [Hnd _]. apply (NoDup_map_eq ini.Name f); auto. }
    destruct (keepsDefault_default c Hc) as [d G].
    apply (matchesRun_with_default opts startURL region c s d account G) in M.
    revert M. apply (other_role_fails opts startURL region c s account v); assumption.
  - exists cfg'. auto.
Qed.

(** C4, as the code has it: in the removal mode without dry run, on a
    loaded file whose default section is none that the run removes, every
    section of the file that stores the four keys sso_start_url,
    sso_account_id, sso_role_name and region with the start URL of the run,
    the id of one of the accounts, the role name and the region, these
    values having no reference [%(name)s], is deleted: the saved file has no
    section of its name.  A section that stores key sso_role_name with
    another value than the role name of the run, a value without reference,
    is in the saved file as it was. *)
Theorem removal_deletes_the_sections_of_the_run disk profilePrefix :
  content disk = Some f -> writable disk = true ->
  exists f',
    updateAWSConfig opts disk accounts startURL region profilePrefix
      = (None, mkDisk (Some f') true)
    /\ (forall s account,
          In s f -> In account accounts ->
          holdsRun opts s account startURL region ->
          plainRun opts account startURL region ->
          ~ In (ini.Name s) (map ini.Name f'))
    /\ (forall s v,
          In s f -> holds s "sso_role_name" v -> plain v -> v <> RoleName opts ->
          In s f').
Proof.
  intros Hc Hw.
  destruct (removal_never_fails (withDash profilePrefix) accounts f) as (f' & E).
  exists f'. split; [| split].
  - unfold updateAWSConfig, Load, SaveTo. rewrite Hc, E, wet, Hw. reflexivity.
  - intros s account Hs Ha Hh Hp.
    destruct (removal_deletes (withDash profilePrefix) accounts account f s)
      as (f'' & E' & Hgone); auto.
    + apply incl_refl.
    + apply keepsDefault_refl.
    + congruence.
  - intros s v Hs Hv Hp Hne.
    destruct (removal_keeps (withDash profilePrefix) s v)
      as (f'' & E' & Hin); auto.
    congruence.
Qed.

End RemovalFacts.

Lemma Example_config_wellFormed : wellFormed Example.config.
Proof.
  split.
  - repeat constructor; simpl; intuition discriminate.
  - simpl. intuition discriminate.
Qed.

Lemma Example_legacyConfig_wellFormed : wellFormed Example.legacyConfig.
Proof.
  split.
  - repeat constructor; simpl; intuition discriminate.
  - simpl. intuition discriminate.
Qed.

Lemma Example_referenceConfig_wellFormed : wellFormed Example.referenceConfig.
Proof.
  split.
  - repeat constructor; simpl; intuition discriminate.
  - simpl. intuition discriminate.
Qed.

Lemma Example_config_loaded : loaded Example.config.
Proof.
  split; [exact Example_config_wellFormed |].
  exists (ini.mkSection ini.DefaultSection []), [Example.profile; Example.otherRole].
  split; reflexivity.
Defined.

Lemma Example_legacyConfig_loaded : loaded Example.legacyConfig.
Proof.
  split; [exact Example_legacyConfig_wellFormed |].
  exists (ini.mkSection ini.DefaultSection []), [Example.fourKeys].
  split; reflexivity.
Defined.

Lemma Example_referenceConfig_loaded : loaded Example.referenceConfig.
Proof.
  split; [exact Example_referenceConfig_wellFormed |].
  exists (ini.mkSection ini.DefaultSection []), [Example.byReference].
  split; reflexivity.
Defined.

(** A default section without keys stays. *)
Lemma empty_default_stays (opts : Options) (accounts : list types.AccountInfo)
    (startURL region : string) (rest : ini.File) :
  defaultStays opts accounts startURL region (ini.Empty ++ rest).
Proof.
  intros d account G _. simpl in G. injection G as <-. reflexivity.
Defined.

(** The second test of the repository: the section written for the run is
    removed; the section of the other role stays. *)
Example removal_of_the_mock_profile :
  @updateAWSConfig asciiUnicode Example.removeOpts
    (mkDisk (Some Example.config) true) [Example.account]
    Example.startURL Example.region "mock"
  = (None, mkDisk (Some (ini.Empty ++ [Example.otherRole])) true).
Proof. reflexivity. Qed.

(** The role name of the section is stored as [%(role)s] and read as
    "AdministratorAccess": the section is removed. *)
Example removal_of_a_section_with_a_reference :
  ini.KeyValue Example.referenceConfig Example.byReference "sso_role_name" = "%(role)s"
  /\ fst (ini.KeyString Example.referenceConfig Example.byReference "sso_role_name")
     = "AdministratorAccess"
  /\ @updateAWSConfig asciiUnicode Example.removeOpts
       (mkDisk (Some Example.referenceConfig) true) [Example.account]
       Example.startURL Example.region "mock"
     = (None, mkDisk (Some ini.Empty) true).
Proof. repeat split; reflexivity. Qed.

(** C4 as stated fails: the removal mode deletes a section whose stored
    role name is not the role name of the run, since it reads the role name
    with its reference expanded. *)
Lemma removal_reads_expanded_values : ~ removalGoesByStoredValues.
Proof.
  intros H.
  destruct (H asciiUnicode Example.removeOpts
              (mkDisk (Some Example.referenceConfig) true) [Example.account]
              Example.startURL Example.region "mock"
              Example.referenceConfig ini.Empty
              eq_refl eq_refl eq_refl eq_refl Example_referenceConfig_loaded
              (empty_default_stays _ _ _ _ _) eq_refl)
    as [_ Hkept].
  destruct (Hkept Example.byReference "%(role)s") as [E | []].
  - simpl. auto.
  - reflexivity.
  - discriminate.
  - discriminate E.
Qed.

Lemma removal_deletes_the_sections_of_the_run_witness :
  Remove Example.removeOpts = true
  /\ loaded Example.config
  /\ defaultStays Example.removeOpts [Example.account]
       Example.startURL Example.region Example.config
  /\ DryRun Example.removeOpts = false
  /\ exists f',
       @updateAWSConfig asciiUnicode Example.removeOpts
         (mkDisk (Some Example.config) true) [Example.account]
         Example.startURL Example.region "mock"
       = (None, mkDisk (Some f') true)
       /\ (forall s account,
             In s Example.config -> In account [Example.account] ->
             holdsRun Example.removeOpts s account Example.startURL Example.region ->
             plainRun Example.removeOpts account Example.startURL Example.region ->
             ~ In (ini.Name s) (map ini.Name f'))
       /\ (forall s v,
             In s Example.config -> holds s "sso_role_name" v -> plain v ->
             v <> RoleName Example.removeOpts -> In s f').
Proof.
  split; [reflexivity |]. split; [exact Example_config_loaded |].
  split; [apply (empty_default_stays _ _ _ _ [Example.profile; Example.otherRole]) |].
  split; [reflexivity |].
  apply (@removal_deletes_the_sections_of_the_run asciiUnicode Example.removeOpts
           Example.startURL Example.region eq_refl [Example.account] Example.config
           Example_config_loaded
           (empty_default_stays _ _ _ _ [Example.profile; Example.otherRole])
           eq_refl
           (mkDisk (Some Example.config) true) "mock" eq_refl eq_refl).
Defined.

(** ** The removal mode deletes only sections that pass its test *)

Lemma section_eq_dec (a b : ini.section) : {a = b} + {a <> b}.
Proof.
  decide equality.
  - apply list_eq_dec. decide equality; apply string_dec.
  - apply string_dec.
Qed.

Section RemovalOnly.
Context {U : Unicode}.
Variable opts : Options.
Variables startURL region : string.
Variable accounts : list types.AccountInfo.
Variable f : ini.File.
Hypothesis ld : loaded f.
Hypothesis stays : defaultStays opts accounts startURL region f.
Hypothesis removal : Remove opts = true.

(** Every section of [f] that the removal has taken out has passed the
    test, on the file as it was then. *)
Lemma removal_only_passing profilePrefix :
  exists cfg',
    updateAccounts opts profilePrefix accounts startURL region f = Ok cfg'
    /\ forall t, In t f -> ~ In t cfg' ->
         exists account c,
           In account accounts /\ thinned f c /\ In t c
           /\ passes opts c t account startURL region.
Proof.
  destruct (removal_invariant opts startURL region removal
              (fun x => keepsDefault f x
                        /\ forall t, In t f -> ~ In t x ->
                             exists account c,
                               In account accounts /\ thinned f c /\ In t c
                               /\ passes opts c t account startURL region)
              profilePrefix accounts f) as (cfg' & E & _ & H).
  - intros x [Hx _]. apply (keepsDefault_default f x Hx).
  - split; [apply keepsDefault_refl, ld |].
    intros t Ht Hn. contradiction.
  - intros snapshot c s account [[Tsn _] _] [Hc Hgone] Ha Hs M _.
    assert (Hsf : In s f) by (apply (thinned_In f snapshot); assumption).
    split; [apply (keepsDefault_delete opts startURL region accounts f ld stays
                     c s account); assumption |].
    intros t Ht Hn.
    destruct (in_dec section_eq_dec t c) as [Htc | Htc]; [| apply Hgone; assumption].
    assert (En : ini.Name t = ini.Name s).
    { destruct (String.eqb_spec (ini.Name t) (ini.sectionName (ini.Name s)))
        as [En | En].
      - destruct ld as [Hwf _]. rewrite (wellFormed_name f s Hwf Hsf) in En. exact En.
      - exfalso. apply Hn. unfold ini.DeleteSection. apply filter_In.
        split; [exact Htc |].
        apply negb_true_iff, String.eqb_neq, En. }
    assert (t = s) as ->.
    { destruct ld as [[Hnd _] _]. apply (NoDup_map_eq ini.Name f); auto. }
    exists account, c.
    destruct (keepsDefault_default f c Hc) as [d G].
    split; [exact Ha |]. split; [apply Hc |]. split; [exact Htc |].
    apply (matchesRun_with_default opts startURL region c s d account G), M.
  - exists cfg'. auto.
Qed.

(** C1, as the code has it: in the removal mode, on a loaded file whose
    default section is none that the run removes, a section is deleted only
    if it has passed the test of lines 241-247 on the file as it was when
    the loop came to it, the loaded file without the sections deleted
    before: [HasKey] finds the four keys sso_start_url, sso_account_id,
    sso_role_name and region for it, and [String] reads them as the start
    URL of the run, the id of one of the accounts, the role name and the
    region.  Key sso_region is not looked at. *)
Theorem removal_deletes_only_sections_of_the_run
    disk profilePrefix f' :
  content disk = Some f ->
  content (snd (updateAWSConfig opts disk accounts startURL region profilePrefix))
    = Some f' ->
  forall s, In s f -> ~ In s f' ->
    exists account c,
      In account accounts /\ thinned f c /\ In s c
      /\ passes opts c s account startURL region.
Proof.
  intros Hc Hf' s Hs Hgone.
  unfold updateAWSConfig, Load in Hf'. rewrite Hc in Hf'.
  destruct (removal_only_passing (withDash profilePrefix)) as (cfg' & E & Hk).
  rewrite E in Hf'.
  assert (Hsame : content disk = Some f' -> False).
  { intros Hd. apply Hgone. congruence. }
  destruct (DryRun opts); [contradiction (Hsame Hf') |].
  unfold SaveTo in Hf'.
  destruct (writable disk); [| contradiction (Hsame Hf')].
  simpl in Hf'. injection Hf' as <-.
  apply Hk; assumption.
Qed.

End RemovalOnly.

(** A section with the four keys of the run and without key sso_region is
    deleted. *)
Example removal_of_a_section_without_sso_region :
  @updateAWSConfig asciiUnicode Example.removeOpts
    (mkDisk (Some Example.legacyConfig) true) [Example.account]
    Example.startURL Example.region "mock"
  = (None, mkDisk (Some ini.Empty) true)
  /\ ini.HasKey Example.legacyConfig Example.fourKeys "sso_region" = false.
Proof. split; reflexivity. Qed.

(** C1 as stated fails: the removal mode deletes a section that has no key
    sso_region. *)
Lemma removal_does_not_need_five_keys : ~ removesOnlySectionsWithFiveKeys.
Proof.
  intros H.
  destruct (H asciiUnicode Example.removeOpts
              (mkDisk (Some Example.legacyConfig) true) [Example.account]
              Example.startURL Example.region "mock"
              Example.legacyConfig ini.Empty
              eq_refl eq_refl Example_legacyConfig_loaded
              (empty_default_stays _ _ _ _ [Example.fourKeys]) eq_refl
              Example.fourKeys)
    as (account & c & _ & _ & _ & _ & Hkey & _).
  - simpl. auto.
  - simpl. intros [E | []]. discriminate E.
  - vm_compute in Hkey. discriminate Hkey.
Qed.

Lemma removal_deletes_only_sections_of_the_run_witness :
  loaded Example.legacyConfig
  /\ defaultStays Example.removeOpts [Example.account]
       Example.startURL Example.region Example.legacyConfig
  /\ Remove Example.removeOpts = true
  /\ forall s, In s Example.legacyConfig -> ~ In s ini.Empty ->
       exists account c,
         In account [Example.account] /\ thinned Example.legacyConfig c /\ In s c
         /\ passes Example.removeOpts c s account Example.startURL Example.region.
Proof.
  split; [exact Example_legacyConfig_loaded |].
  split; [apply (empty_default_stays _ _ _ _ [Example.fourKeys]) |].
  split; [reflexivity |].
  apply (@removal_deletes_only_sections_of_the_run asciiUnicode Example.removeOpts
           Example.startURL Example.region [Example.account] Example.legacyConfig
           Example_legacyConfig_loaded
           (empty_default_stays _ _ _ _ [Example.fourKeys]) eq_refl
           (mkDisk (Some Example.legacyConfig) true) "mock" ini.Empty
           eq_refl eq_refl).
Defined.

(** ** updateAWSConfig: the apply mode *)

Lemma lookupKey_setKey (keys : list (string * string)) (k k' v' : string) :
  ini.lookupKey (ini.setKey keys k' v') k
  = if (k' =? k)%string
    then match ini.lookupKey keys k with Some _ => Some v' | None => None end
    else ini.lookupKey keys k.
Proof.
  induction keys as [| [k0 v0] rest IH]; simpl.
  - destruct (k' =? k)%string; reflexivity.
  - destruct (String.eqb_spec k0 k') as [E0 | E0]; simpl.
    + subst k0. destruct (k' =? k)%string; reflexivity.
    + destruct (String.eqb_spec k0 k) as [E1 | E1].
      * subst k0. destruct (String.eqb_spec k' k); [congruence | reflexivity].
      * exact IH.
Qed.

Lemma lookupKey_app (keys : list (string * string)) (k k' v' : string) :
  ini.lookupKey (keys ++ [(k', v')]) k
  = match ini.lookupKey keys k with
    | Some w => Some w
    | None => if (k' =? k)%string then Some v' else None
    end.
Proof.
  induction keys as [| [k0 v0] rest IH]; simpl; [reflexivity |].
  destruct (k0 =? k)%string; [reflexivity | exact IH].
Qed.

Lemma sectionName_idempotent (name : string) :
  ini.sectionName (ini.sectionName name) = ini.sectionName name.
Proof.
  unfold ini.sectionName. destruct (name =? "")%string eqn:E; [reflexivity |].
  rewrite E. reflexivity.
Qed.

(** [GetSection] looks at the name through [sectionName] only. *)
Lemma GetSection_sectionName (c : ini.File) (name : string) :
  ini.GetSection c (ini.sectionName name) = ini.GetSection c name.
Proof.
  unfold ini.GetSection. rewrite sectionName_idempotent. reflexivity.
Qed.

Lemma GetSection_updateSection (c : ini.File) (m name : string)
    (g : ini.section -> ini.section) :
  (forall s, ini.Name (g s) = ini.Name s) ->
  ini.GetSection (ini.updateSection c m g) name
  = match ini.GetSection c name with
    | Some s => Some (if (ini.Name s =? m)%string then g s else s)
    | None => None
    end.
Proof.
  intros Hg. unfold ini.GetSection.
  induction c as [| x c IH]; simpl; [reflexivity |].
  destruct (String.eqb_spec (ini.Name x) m) as [Em | Em]; simpl.
  - rewrite Hg.
    destruct (String.eqb_spec (ini.Name x) (ini.sectionName name)) as [En | En].
    + rewrite Em, String.eqb_refl. reflexivity.
    + destruct (find _ c) as [s |] eqn:F; [| reflexivity].
      apply find_some in F as [_ F]. apply String.eqb_eq in F.
      destruct (String.eqb_spec (ini.Name s) m); [congruence | reflexivity].
  - destruct (String.eqb_spec (ini.Name x) (ini.sectionName name)) as [En | En].
    + destruct (String.eqb_spec (ini.Name x) m); [contradiction | reflexivity].
    + exact IH.
Qed.

Lemma GetSection_app_new (c : ini.File) (new : ini.section) (name : string) :
  ini.GetSection (c ++ [new]) name
  = match ini.GetSection c name with
    | Some s => Some s
    | None => if (ini.Name new =? ini.sectionName name)%string
              then Some new else None
    end.
Proof.
  unfold ini.GetSection.
  induction c as [| x c IH]; simpl; [reflexivity |].
  destruct (ini.Name x =? ini.sectionName name)%string; [reflexivity | exact IH].
Qed.

Lemma settles_refl (k v : string) (c : ini.File) : settles k v c c.
Proof.
  intros name. destruct (ini.GetSection c name); auto.
Qed.

(** Updating a section by a function that keeps its name and keeps key
    [k] or gives it the value [v]. *)
Lemma settles_updateSection (k v : string) (c : ini.File) (m : string)
    (g : ini.section -> ini.section) :
  (forall s, ini.Name (g s) = ini.Name s) ->
  (forall s, ini.lookupKey (ini.keyList (g s)) k = ini.lookupKey (ini.keyList s) k
             \/ ini.lookupKey (ini.keyList (g s)) k = Some v) ->
  settles k v c (ini.updateSection c m g).
Proof.
  intros Hn Hk name. rewrite (GetSection_updateSection c m name g Hn).
  destruct (ini.GetSection c name) as [s |]; [| exact I].
  destruct (ini.Name s =? m)%string; auto.
Qed.

Lemma settles_KeySetValue (k v : string) (c : ini.File) (m k' v' : string) :
  k' <> k \/ v' = v ->
  settles k v c (ini.KeySetValue c m k' v').
Proof.
  intros H. unfold ini.KeySetValue.
  destruct (ini.GetSection c m) as [s |]; [| apply settles_refl].
  destruct (ini.GetKey c s k') as [[owner w] |].
  - apply settles_updateSection; [reflexivity |].
    intros p. simpl. rewrite lookupKey_setKey.
    destruct (String.eqb_spec k' k) as [E | E]; [| auto].
    destruct H as [H | ->]; [contradiction |].
    destruct (ini.lookupKey (ini.keyList p) k); auto.
  - apply settles_updateSection; [reflexivity |].
    intros p. simpl. rewrite lookupKey_app.
    destruct (ini.lookupKey (ini.keyList p) k); [auto |].
    destruct (String.eqb_spec k' k) as [E | E]; [| auto].
    destruct H as [H | ->]; [contradiction | auto].
Qed.

Lemma settles_new_section (k v : string) (c : ini.File) (name : string) :
  settles k v c (c ++ [ini.mkSection name []]).
Proof.
  intros n. rewrite GetSection_app_new.
  destruct (ini.GetSection c n); [auto |].
  destruct (_ =? _)%string; simpl; auto.
Qed.

Lemma inherited_settles (k v : string) (c c' : ini.File) (names : list string)
    (owner : string) :
  settles k v c c' ->
  ini.inherited c names k = Some (owner, v) ->
  exists owner', ini.inherited c' names k = Some (owner', v).
Proof.
  intros Hs. induction names as [| n rest IH]; simpl; [discriminate |].
  specialize (Hs n).
  destruct (ini.GetSection c n) as [s |], (ini.GetSection c' n) as [s' |];
    try contradiction.
  - destruct Hs as [_ [Hk | Hk]]; rewrite Hk.
    + destruct (ini.lookupKey (ini.keyList s) k) as [w |]; [| exact IH].
      intros E. injection E as _ ->. eauto.
    + eauto.
  - destruct Hs as [Hk | Hk]; rewrite Hk; [exact IH | eauto].
  - exact IH.
Qed.

(** A value [v] that a name resolves to stays when the file settles. *)
Lemma resolvesTo_settles (k v : string) (c c' : ini.File) (name : string) :
  settles k v c c' -> resolvesTo c name k v -> resolvesTo c' name k v.
Proof.
  intros Hs (s & G & K).
  pose proof (Hs name) as Hn. rewrite G in Hn.
  destruct (ini.GetSection c' name) as [s' |] eqn:G'; [| contradiction].
  exists s'. split; [exact G' |].
  apply keyIs_GetKey in K as [o K]. apply keyIs_GetKey.
  unfold ini.GetKey in *. destruct Hn as [En [Hk | Hk]]; rewrite Hk.
  - destruct (ini.lookupKey (ini.keyList s) k) as [w |].
    + injection K as _ ->. eauto.
    + rewrite En. eapply inherited_settles; eauto.
  - eauto.
Qed.

(** Setting a key where [GetKey] finds it. *)
Lemma inherited_set (c : ini.File) (names : list string) (k owner w v : string) :
  ini.inherited c names k = Some (owner, w) ->
  ini.inherited
    (ini.updateSection c owner
       (fun p => ini.mkSection (ini.Name p) (ini.setKey (ini.keyList p) k v)))
    names k = Some (owner, v).
Proof.
  induction names as [| n rest IH]; simpl; [discriminate |].
  rewrite GetSection_updateSection by reflexivity.
  destruct (ini.GetSection c n) as [p |]; [| exact IH].
  destruct (ini.lookupKey (ini.keyList p) k) as [w' |] eqn:L.
  - intros E. injection E as <- <-.
    rewrite String.eqb_refl. simpl.
    rewrite lookupKey_setKey, String.eqb_refl, L. reflexivity.
  - intros E. specialize (IH E).
    destruct (ini.Name p =? owner)%string; simpl.
    + rewrite lookupKey_setKey, String.eqb_refl, L. exact IH.
    + rewrite L. exact IH.
Qed.

(** After [Key(k).SetValue(v)] on a section of the file, the section has
    key [k] with value [v]. *)
Lemma KeySetValue_resolves (c : ini.File) (m k v : string) (s : ini.section) :
  ini.GetSection c m = Some s ->
  resolvesTo (ini.KeySetValue c m k v) m k v.
Proof.
  intros G. unfold ini.KeySetValue, resolvesTo. rewrite G.
  destruct (ini.GetKey c s k) as [[owner w] |] eqn:K.
  - rewrite GetSection_updateSection, G by reflexivity.
    eexists. split; [reflexivity |].
    apply keyIs_GetKey. unfold ini.GetKey in *.
    destruct (ini.lookupKey (ini.keyList s) k) as [w' |] eqn:L.
    + injection K as <- <-. rewrite String.eqb_refl. simpl.
      rewrite lookupKey_setKey, String.eqb_refl, L. eauto.
    + exists owner.
      destruct (ini.Name s =? owner)%string; simpl.
      * rewrite lookupKey_setKey, String.eqb_refl, L.
        eapply inherited_set; eauto.
      * rewrite L. eapply inherited_set; eauto.
  - rewrite GetSection_updateSection, G by reflexivity.
    rewrite String.eqb_refl.
    eexists. split; [reflexivity |].
    apply keyIs_GetKey. unfold ini.GetKey in *. simpl.
    destruct (ini.lookupKey (ini.keyList s) k) eqn:L; [discriminate |].
    rewrite lookupKey_app, L, String.eqb_refl. eauto.
Qed.

Lemma settles_GetSection (k v : string) (c c' : ini.File) (name : string)
    (s : ini.section) :
  settles k v c c' -> ini.GetSection c name = Some s ->
  exists s', ini.GetSection c' name = Some s'.
Proof.
  intros Hs G. specialize (Hs name). rewrite G in Hs.
  destruct (ini.GetSection c' name); [eauto | contradiction].
Qed.

Lemma resolvesTo_sectionName (c : ini.File) (name k v : string) :
  resolvesTo c (ini.sectionName name) k v -> resolvesTo c name k v.
Proof.
  unfold resolvesTo. rewrite GetSection_sectionName. auto.
Qed.

Section ApplyFacts.
Context {U : Unicode}.
Variable opts : Options.
Variables startURL region : string.

(** The first step of [writeProfile]: the section of the profile is in
    the file afterwards, under the name that stands for the profile. *)
Lemma fetch_or_create (cfg c1 : ini.File) (profileName : string) (s : ini.section) :
  match ini.GetSection cfg profileName with
  | Some s => Ok (cfg, s)
  | None => ini.NewSection cfg profileName
  end = Ok (c1, s) ->
  ini.GetSection c1 (ini.Name s) = Some s
  /\ ini.Name s = ini.sectionName profileName
  /\ forall k v, settles k v cfg c1.
Proof.
  destruct (ini.GetSection cfg profileName) as [s0 |] eqn:G.
  - intros E. injection E as <- <-.
    destruct (GetSection_Some _ _ _ G) as [_ En].
    split; [| split].
    + rewrite En, GetSection_sectionName. exact G.
    + exact En.
    + intros k v. apply settles_refl.
  - unfold ini.NewSection.
    destruct (String.eqb_spec profileName "") as [E0 | E0]; [discriminate |].
    assert (F : find (fun s => (ini.Name s =? profileName)%string) cfg = None).
    { unfold ini.GetSection in G.
      rewrite (sectionName_nonempty _ E0) in G. exact G. }
    rewrite F. intros E. injection E as <- <-. simpl.
    split; [| split].
    + rewrite GetSection_app_new, G. simpl.
      rewrite (sectionName_nonempty _ E0), String.eqb_refl. reflexivity.
    + symmetry. apply sectionName_nonempty, E0.
    + intros k v. apply settles_new_section.
Qed.

(** What [writeProfile] does to the two region keys: the section of the
    profile has both with the region of the run, and a section that had one
    of them with this value has it still. *)
Lemma writeProfile_regions (cfg cfg' : ini.File) (profileName : string)
    (account : types.AccountInfo) (k : string) :
  k = "sso_region" \/ k = "region" ->
  writeProfile opts cfg profileName account startURL region = Ok cfg' ->
  resolvesTo cfg' profileName k region
  /\ forall name, resolvesTo cfg name k region -> resolvesTo cfg' name k region.
Proof.
  intros Hk H. unfold writeProfile in H.
  destruct (match ini.GetSection cfg profileName with
            | Some s => Ok (cfg, s)
            | None => ini.NewSection cfg profileName
            end) as [[c1 s] | e] eqn:Start; simpl in H; [| discriminate].
  injection H as <-.
  destruct (fetch_or_create _ _ _ _ Start) as (G1 & En & S01).
  set (m := ini.Name s) in *.
  set (c2 := ini.KeySetValue c1 m "sso_start_url" startURL).
  set (c3 := ini.KeySetValue c2 m "sso_region" region).
  set (c4 := ini.KeySetValue c3 m "sso_account_id" (types.AccountId account)).
  set (c5 := ini.KeySetValue c4 m "sso_role_name" (RoleName opts)).
  set (c6 := ini.KeySetValue c5 m "region" region).
  assert (S12 : settles k region c1 c2).
  { apply settles_KeySetValue. left. destruct Hk as [-> | ->]; discriminate. }
  assert (S23 : settles k region c2 c3) by (apply settles_KeySetValue; auto).
  assert (S34 : settles k region c3 c4).
  { apply settles_KeySetValue. left. destruct Hk as [-> | ->]; discriminate. }
  assert (S45 : settles k region c4 c5).
  { apply settles_KeySetValue. left. destruct Hk as [-> | ->]; discriminate. }
  assert (S56 : settles k region c5 c6) by (apply settles_KeySetValue; auto).
  destruct (settles_GetSection _ _ _ _ _ _ S12 G1) as [s2 G2].
  destruct (settles_GetSection _ _ _ _ _ _ S23 G2) as [s3 G3].
  destruct (settles_GetSection _ _ _ _ _ _ S34 G3) as [s4 G4].
  destruct (settles_GetSection _ _ _ _ _ _ S45 G4) as [s5 G5].
  split.
  - apply resolvesTo_sectionName. rewrite <- En. fold m.
    destruct Hk as [-> | ->].
    + apply (resolvesTo_settles _ _ _ _ _ S56).
      apply (resolvesTo_settles _ _ _ _ _ S45).
      apply (resolvesTo_settles _ _ _ _ _ S34).
      apply (KeySetValue_resolves c2 m "sso_region" region s2 G2).
    + apply (KeySetValue_resolves c5 m "region" region s5 G5).
  - intros name R.
    apply (resolvesTo_settles _ _ _ _ _ S56).
    apply (resolvesTo_settles _ _ _ _ _ S45).
    apply (resolvesTo_settles _ _ _ _ _ S34).
    apply (resolvesTo_settles _ _ _ _ _ S23).
    apply (resolvesTo_settles _ _ _ _ _ S12).
    apply (resolvesTo_settles _ _ _ _ _ (S01 k region)).
    exact R.
Qed.

Hypothesis apply : Remove opts = false.
Hypothesis wet : DryRun opts = false.

Lemma apply_regions (profilePrefix : string) (accounts : list types.AccountInfo)
    (cfg cfg' : ini.File) (k : string) :
  k = "sso_region" \/ k = "region" ->
  updateAccounts opts profilePrefix accounts startURL region cfg = Ok cfg' ->
  (forall name, resolvesTo cfg name k region -> resolvesTo cfg' name k region)
  /\ (forall account, In account accounts ->
        resolvesTo cfg' (profileNameOf profilePrefix account) k region).
Proof.
  intros Hk. revert cfg.
  induction accounts as [| a rest IH]; intros cfg H; simpl in H.
  - injection H as <-. split; [auto | contradiction].
  - unfold updateAccount in H. rewrite apply, wet in H.
    destruct (writeProfile opts cfg (profileNameOf profilePrefix a) a
                startURL region) as [c1 | e] eqn:W; simpl in H; [| discriminate].
    destruct (writeProfile_regions _ _ _ _ _ Hk W) as [Hset Hkeep].
    destruct (IH c1 H) as [Hkeep' Hall].
    split.
    + intros name R. apply Hkeep', Hkeep, R.
    + intros account [<- | Hin]; [apply Hkeep', Hset | apply Hall, Hin].
Qed.

(** C10: after a run of the apply mode that saves the file, the section
    of every account of the run has key sso_region and key region with one
    value, the region of the run. *)
Theorem applied_sections_have_one_region
    (disk disk' : Disk) (accounts : list types.AccountInfo) (profilePrefix : string) :
  updateAWSConfig opts disk accounts startURL region profilePrefix = (None, disk') ->
  exists f',
    content disk' = Some f'
    /\ forall account, In account accounts ->
         exists s,
           ini.GetSection f' (profileNameOf (withDash profilePrefix) account) = Some s
           /\ keyIs f' s "sso_region" region
           /\ keyIs f' s "region" region.
Proof.
  unfold updateAWSConfig, SaveTo. intros H.
  destruct (Load disk) as [cfg | e]; [| discriminate].
  destruct (updateAccounts opts (withDash profilePrefix) accounts startURL region cfg)
    as [cfg' | e] eqn:E; [| discriminate].
  rewrite wet in H. destruct (writable disk); [| discriminate].
  injection H as <-. exists cfg'. split; [reflexivity |].
  intros account Hin.
  destruct (apply_regions _ _ _ _ "sso_region" (or_introl eq_refl) E) as [_ H1].
  destruct (apply_regions _ _ _ _ "region" (or_intror eq_refl) E) as [_ H2].
  destruct (H1 account Hin) as (s1 & G1 & K1).
  destruct (H2 account Hin) as (s2 & G2 & K2).
  exists s1. split; [exact G1 |]. split; [exact K1 |].
  rewrite G1 in G2. injection G2 as <-. exact K2.
Qed.

End ApplyFacts.

Lemma applied_sections_have_one_region_witness :
  Remove Example.applyOpts = false
  /\ DryRun Example.applyOpts = false
  /\ exists f',
       Some (ini.Empty ++ [Example.profile]) = Some f'
       /\ forall account, In account [Example.account] ->
            exists s,
              ini.GetSection f' (@profileNameOf asciiUnicode (withDash "mock") account)
              = Some s
              /\ keyIs f' s "sso_region" Example.region
              /\ keyIs f' s "region" Example.region.
Proof.
  split; [reflexivity |]. split; [reflexivity |].
  apply (@applied_sections_have_one_region asciiUnicode Example.applyOpts
           Example.startURL Example.region eq_refl eq_refl
           (mkDisk (Some ini.Empty) true)
           (mkDisk (Some (ini.Empty ++ [Example.profile])) true)
           [Example.account] "mock" eq_refl).
Defined.

(** ** readSSOToken *)

Lemma Join_nonempty (a b : string) : a <> "" -> Join a b <> "".
Proof.
  intros Ha. unfold Join.
  destruct (String.eqb_spec a ""); [contradiction |].
  destruct (String.eqb_spec b ""); [exact Ha |].
  destruct a; [contradiction | discriminate].
Qed.

Lemma Join_nonempty_r (a b : string) : b <> "" -> Join a b <> "".
Proof.
  intros Hb. unfold Join.
  destruct (String.eqb_spec a ""); [exact Hb |].
  destruct (String.eqb_spec b ""); [contradiction |].
  destruct a; [contradiction | discriminate].
Qed.

Lemma cacheDirectory_nonempty (home : string) : cacheDirectory home <> "".
Proof.
  unfold cacheDirectory. apply Join_nonempty_r. discriminate.
Qed.

Section TokenFacts.
Variable opts : Options.
Variable Unmarshal : string -> result SSOToken.t.
Variable fs : FileSystem.
Variable home : string.

Local Abbreviation cacheDir := (cacheDirectory home).

Local Abbreviation candidateToken := (candidateToken opts Unmarshal fs cacheDir).
Local Abbreviation qualifies := (qualifies opts Unmarshal fs cacheDir).
Local Abbreviation modTimeOf := (modTimeOf fs cacheDir).
Local Abbreviation scanCache := (scanCache opts Unmarshal fs cacheDir).
Local Abbreviation scanned := (scanned opts Unmarshal fs cacheDir).
Local Abbreviation newestFirst := (newestFirst opts Unmarshal fs cacheDir).

(** One turn of the loop: a file that does not qualify, or has no
    modification time, or is not newer than the newest so far, changes
    nothing; a newer one is selected. *)
Lemma scanCache_step (file : string) (rest : list string) (sel : string) (latest : Z) :
  scanCache (file :: rest) sel latest
  = match candidateToken file, modTimeOf file with
    | Some _, Some t =>
        if (t >? latest)%Z then scanCache rest (Join cacheDir file) t
        else scanCache rest sel latest
    | _, _ => scanCache rest sel latest
    end.
Proof.
  unfold candidateToken, modTimeOf. simpl.
  destruct (HasSuffix file ".json"); [| reflexivity].
  destruct (ReadFile fs (Join cacheDir file)) as [data | e]; [| reflexivity].
  destruct (Unmarshal data) as [token | e]; [| reflexivity].
  destruct (negb _ && negb _); [reflexivity |].
  destruct (Stat fs (Join cacheDir file)); reflexivity.
Qed.

(** C8, second part: a cache file whose content does not parse is passed
    over. *)
Lemma scanCache_skips_malformed (file data : string) (e : error)
    (rest : list string) (sel : string) (latest : Z) :
  ReadFile fs (Join cacheDir file) = Ok data ->
  Unmarshal data = Err e ->
  scanCache (file :: rest) sel latest = scanCache rest sel latest.
Proof.
  intros R M. rewrite scanCache_step. unfold candidateToken.
  rewrite R, M. destruct (HasSuffix file ".json"); reflexivity.
Qed.

Lemma candidateToken_read (file : string) (token : SSOToken.t) :
  candidateToken file = Some token ->
  exists data,
    ReadFile fs (Join cacheDir file) = Ok data /\ Unmarshal data = Ok token.
Proof.
  unfold candidateToken.
  destruct (HasSuffix file ".json"); [| discriminate].
  destruct (ReadFile fs (Join cacheDir file)) as [data | e]; [| discriminate].
  destruct (Unmarshal data) as [t | e] eqn:M; [| discriminate].
  destruct (negb _ && negb _); [discriminate |].
  intros E. injection E as <-. eauto.
Qed.

Lemma scanned_start : scanned [] "" 0%Z.
Proof.
  left. repeat split. intros q tq [].
Qed.

(** A file that is not selected joins the files gone through. *)
Lemma scanned_pass (done : list string) (file sel : string) (latest : Z) :
  scanned done sel latest ->
  (forall t, qualifies file -> modTimeOf file = Some t -> (t <= latest)%Z) ->
  scanned (done ++ [file]) sel latest.
Proof.
  intros [(Hs & Hl & Hall) | (f & Hs & Hq & Hm & Hpos & before & after & Hd & Hb & Ha)]
         Hfile.
  - left. repeat split; auto.
    intros q tq Hin. apply in_app_or in Hin as [Hin | [<- | []]].
    + apply Hall, Hin.
    + intros Q M. rewrite <- Hl. apply Hfile; assumption.
  - right. exists f. repeat split; auto.
    exists before, (after ++ [file]). split; [| split].
    + rewrite Hd, <- app_assoc. reflexivity.
    + exact Hb.
    + intros q tq Hin. apply in_app_or in Hin as [Hin | [<- | []]].
      * apply Ha, Hin.
      * apply Hfile.
Qed.

(** A qualifying file that is newer is selected. *)
Lemma scanned_select (done : list string) (file sel : string) (latest t : Z) :
  scanned done sel latest ->
  qualifies file -> modTimeOf file = Some t -> (latest < t)%Z ->
  scanned (done ++ [file]) (Join cacheDir file) t.
Proof.
  intros Hsc Hq Hm Hlt. right. exists file.
  assert (Hless : forall q tq, In q done -> qualifies q ->
                               modTimeOf q = Some tq -> (tq < t)%Z).
  { destruct Hsc as [(_ & Hl & Hall)
                    | (f & _ & _ & Hfm & _ & before & after & Hd & Hb & Ha)].
    - intros q tq Hin Q M. specialize (Hall q tq Hin Q M). lia.
    - intros q tq Hin Q M. rewrite Hd in Hin.
      apply in_app_or in Hin as [Hin | [<- | Hin]].
      + specialize (Hb q tq Hin Q M). lia.
      + rewrite Hfm in M. injection M as <-. exact Hlt.
      + specialize (Ha q tq Hin Q M). lia. }
  assert (Hpos : (0 <= latest)%Z).
  { destruct Hsc as [(_ & -> & _) | (f & _ & _ & _ & Hp & _)]; lia. }
  repeat split; auto; [lia |].
  exists done, []. repeat split; auto.
  intros q tq [].
Qed.

Lemma scanCache_scanned (files done : list string) (sel : string) (latest : Z) :
  scanned done sel latest ->
  scanned (done ++ files) (fst (scanCache files sel latest))
          (snd (scanCache files sel latest)).
Proof.
  revert done sel latest.
  induction files as [| file rest IH]; intros done sel latest Hsc.
  - simpl. rewrite app_nil_r. exact Hsc.
  - rewrite scanCache_step.
    replace (done ++ file :: rest) with ((done ++ [file]) ++ rest)
      by (rewrite <- app_assoc; reflexivity).
    destruct (candidateToken file) as [token |] eqn:C.
    + destruct (modTimeOf file) as [t |] eqn:M.
      * destruct (Z.gtb_spec t latest) as [Hgt | Hle].
        -- apply IH. apply scanned_select with (sel := sel) (latest := latest); auto.
           intros E. congruence.
        -- apply IH. apply scanned_pass; [exact Hsc |].
           intros t' _ Ht'. rewrite M in Ht'. injection Ht' as <-. exact Hle.
      * apply IH. apply scanned_pass; [exact Hsc |]. intros t' _ Ht'.
        rewrite M in Ht'. discriminate.
    + apply IH. apply scanned_pass; [exact Hsc |]. intros t' Q.
      contradiction.
Qed.

(** What [readSSOToken] returns, from what holds after the loop. *)
Lemma readSSOToken_scanned (files : list string) :
  ReadDir fs cacheDir = Ok files ->
  exists sel latest,
    scanned files sel latest
    /\ (sel = "" -> readSSOToken opts Unmarshal fs home = Err ErrTokenNotFound)
    /\ (forall file token,
          sel = Join cacheDir file -> candidateToken file = Some token ->
          readSSOToken opts Unmarshal fs home = Ok token).
Proof.
  intros R. unfold readSSOToken. rewrite R.
  pose proof (scanCache_scanned files [] "" 0%Z scanned_start) as Hsc.
  simpl in Hsc.
  destruct (scanCache files "" 0%Z) as [sel latest]. simpl in Hsc.
  exists sel, latest. split; [exact Hsc |]. split.
  - intros ->. reflexivity.
  - intros file token -> C.
    destruct (String.eqb_spec (Join cacheDir file) "") as [E | _].
    + contradiction (Join_nonempty _ _ (cacheDirectory_nonempty home) E).
    + destruct (candidateToken_read file token C) as (data & -> & M).
      simpl. rewrite M. reflexivity.
Qed.

(** C8, first case: an unreadable cache directory is an error. *)
Lemma readSSOToken_unreadable_directory (e : error) :
  ReadDir fs cacheDir = Err e -> readSSOToken opts Unmarshal fs home = Err e.
Proof.
  intros R. unfold readSSOToken. rewrite R. reflexivity.
Qed.

(** X3 (and C8, second case): when the cache directory can be read and
    none of its entries qualifies (the empty directory is such a one),
    [readSSOToken] returns the error of no token found. *)
Lemma readSSOToken_none_qualifies (files : list string) :
  ReadDir fs cacheDir = Ok files ->
  (forall file, In file files -> candidateToken file = None) ->
  readSSOToken opts Unmarshal fs home = Err ErrTokenNotFound.
Proof.
  intros R Hnone.
  destruct (readSSOToken_scanned files R) as (sel & latest & Hsc & Hempty & _).
  destruct Hsc as [(-> & _) | (file & _ & Q & _ & _ & before & after & -> & _)].
  - apply Hempty. reflexivity.
  - contradiction Q. apply Hnone, in_elt.
Qed.

(** X4: when an entry of the cache directory qualifies and its
    modification time is after the epoch, [readSSOToken] returns a token:
    the second read of the selected file cannot fail. *)
Lemma readSSOToken_finds (files : list string) (file : string) (t : Z) :
  ReadDir fs cacheDir = Ok files ->
  In file files -> qualifies file -> modTimeOf file = Some t -> (0 < t)%Z ->
  exists token, readSSOToken opts Unmarshal fs home = Ok token.
Proof.
  intros R Hin Q M Hpos.
  destruct (readSSOToken_scanned files R) as (sel & latest & Hsc & _ & Hsel).
  destruct Hsc as [(_ & _ & Hall) | (f & -> & Qf & _)].
  - specialize (Hall file t Hin Q M). lia.
  - destruct (candidateToken f) as [token |] eqn:C; [| contradiction Qf; exact C].
    exists token. apply (Hsel f); auto.
Qed.

(** C2, as the code has it: the token that [readSSOToken] returns is the
    token of a qualifying cache file (a JSON file that parses and whose
    start URL contains the requested domain, any such file when no domain
    is given); no qualifying file has a greater modification time, and of
    the qualifying files with this modification time it is the one
    enumerated first. *)
Theorem readSSOToken_selects_first_of_newest
    (files : list string) (token : SSOToken.t) :
  ReadDir fs cacheDir = Ok files ->
  readSSOToken opts Unmarshal fs home = Ok token ->
  exists file t,
    candidateToken file = Some token
    /\ modTimeOf file = Some t
    /\ newestFirst files file t.
Proof.
  intros R H.
  destruct (readSSOToken_scanned files R) as (sel & latest & Hsc & Hempty & Hsel).
  destruct Hsc as [(Hs & _) | (file & Hs & Q & M & _ & Hnew)].
  - rewrite (Hempty Hs) in H. discriminate.
  - destruct (candidateToken file) as [token' |] eqn:C; [| contradiction Q; exact C].
    rewrite (Hsel file token' Hs C) in H. injection H as <-.
    exists file, latest. auto.
Qed.

End TokenFacts.

(** Of two qualifying cache files of the same modification time, the
    token of the first is returned. *)
Example readSSOToken_two_files :
  readSSOToken (Example.tokenOpts "") Example.Unmarshal Example.twoFiles
    Example.home
  = Ok (SSOToken.mk "access-token" "us-east-1" "https://a.awsapps.com/start").
Proof. reflexivity. Qed.

(** C2 as stated fails: of two qualifying files of the same modification
    time the one enumerated first is selected, not the last. *)
Lemma ties_do_not_go_to_the_last_file : ~ selectsLastOfNewest.
Proof.
  intros H.
  destruct (H (Example.tokenOpts "") Example.Unmarshal Example.twoFiles
              Example.home ["a.json"; "b.json"]
              (SSOToken.mk "access-token" "us-east-1" "https://a.awsapps.com/start")
              eq_refl eq_refl)
    as (file & t & C & M & before & after & Hfiles & _ & Hafter).
  injection M as <-.
  destruct before as [| x before].
  - injection Hfiles as <- <-.
    specialize (Hafter "b.json" 1700000000%Z (or_introl eq_refl)).
    assert (Hlt : (1700000000 < 1700000000)%Z).
    { apply Hafter; [| reflexivity]. intros E. vm_compute in E. discriminate E. }
    lia.
  - injection Hfiles as <- Hrest.
    destruct before as [| y before].
    + injection Hrest as <- <-. vm_compute in C. discriminate C.
    + injection Hrest as _ Hrest. destruct before; discriminate Hrest.
Qed.

Lemma readSSOToken_selects_first_of_newest_witness :
  ReadDir Example.twoFiles Example.cacheDir = Ok ["a.json"; "b.json"]
  /\ exists file t,
       candidateToken (Example.tokenOpts "") Example.Unmarshal Example.twoFiles
         Example.cacheDir file
       = Some (SSOToken.mk "access-token" "us-east-1" "https://a.awsapps.com/start")
       /\ modTimeOf Example.twoFiles Example.cacheDir file = Some t
       /\ newestFirst (Example.tokenOpts "") Example.Unmarshal Example.twoFiles
            Example.cacheDir ["a.json"; "b.json"] file t.
Proof.
  split; [reflexivity |].
  apply (readSSOToken_selects_first_of_newest (Example.tokenOpts "")
           Example.Unmarshal Example.twoFiles Example.home
           ["a.json"; "b.json"] _ eq_refl eq_refl).
Defined.

(** C8 fails on the code: the one cache file of the directory parses and
    its start URL contains the requested domain, so it qualifies, and the
    directory is readable; the file was last modified at the epoch, its
    modification time is not greater than the 0 that [latestModTime] starts
    with, and [readSSOToken] returns the error of no token found. *)
Theorem readSSOToken_misses_a_file_of_the_epoch :
  ReadDir Example.epochFile Example.cacheDir = Ok ["token.json"]
  /\ qualifies (Example.tokenOpts "d-1234567890") Example.Unmarshal
       Example.epochFile Example.cacheDir "token.json"
  /\ modTimeOf Example.epochFile Example.cacheDir "token.json" = Some 0%Z
  /\ readSSOToken (Example.tokenOpts "d-1234567890") Example.Unmarshal
       Example.epochFile Example.home
     = Err ErrTokenNotFound.
Proof.
  split; [reflexivity |]. split; [| split; reflexivity].
  intros E. vm_compute in E. discriminate E.
Qed.

(** ** listSSOAccounts *)

Lemma count_occ_filter {A : Type} (dec : forall x y : A, {x = y} + {x <> y})
    (p : A -> bool) (l : list A) (a : A) :
  count_occ dec (filter p l) a = if p a then count_occ dec l a else 0.
Proof.
  induction l as [| x l IH]; simpl.
  - destruct (p a); reflexivity.
  - destruct (p x) eqn:Px; simpl.
    + destruct (dec x a) as [-> | N].
      * rewrite IH, Px. reflexivity.
      * exact IH.
    + destruct (dec x a) as [-> | N].
      * rewrite IH, Px. reflexivity.
      * exact IH.
Qed.

Section AccountFacts.
Variable opts : Options.
Variable client : sso.Client.
Variable accessToken : string.


(** When the service sends the roles of an account in full, the check
    ends within as many calls as there are pages and says whether the
    option is among the role names. *)
Lemma validateRoleFrom_pages (accountID : string) (nextToken : option string)
    (pages : list (list types.RoleInfo)) (fuel : nat) :
  rolePages client accessToken accountID nextToken pages ->
  List.length pages <= fuel ->
  validateRoleFrom opts client accessToken fuel accountID nextToken
  = Some (Ok (hasRoleName opts (List.concat pages))).
Proof.
  intros H. revert fuel.
  induction H as [tok page E | tok page t pages E _ IH]; intros fuel Hf.
  - destruct fuel as [| fuel]; [simpl in Hf; lia |].
    simpl. rewrite E. simpl. rewrite app_nil_r.
    unfold hasRoleName.
    destruct (existsb _ page); reflexivity.
  - destruct fuel as [| fuel]; [simpl in Hf; lia |].
    simpl. rewrite E. simpl.
    unfold hasRoleName. rewrite existsb_app.
    destruct (existsb _ page); [reflexivity |].
    simpl. apply IH. simpl in Hf. lia.
Qed.

(** The loop over one page appends the accounts that are retained. *)
Lemma appendValid_retained (fuel : nat) (page accounts : list types.AccountInfo) :
  (forall account, In account page -> RoleName opts <> "" ->
     validateRoleForAccount opts client accessToken fuel (types.AccountId account) <> None) ->
  appendValid opts client accessToken fuel page accounts
  = Some (accounts ++ filter (retained opts client accessToken fuel) page).
Proof.
  revert accounts. induction page as [| a rest IH]; intros accounts Hend; simpl.
  - rewrite app_nil_r. reflexivity.
  - assert (Hrest : forall account, In account rest -> RoleName opts <> "" ->
              validateRoleForAccount opts client accessToken fuel (types.AccountId account) <> None)
      by (intros account Hin; apply Hend; simpl; auto).
    rewrite !(IH _ Hrest).
    specialize (Hend a (or_introl eq_refl)).
    assert (Ra : retained opts client accessToken fuel a
                 = ((RoleName opts =? "")%string
                    || match validateRoleForAccount opts client accessToken fuel (types.AccountId a) with
                       | Some (Ok true) => true
                       | _ => false
                       end)) by reflexivity.
    rewrite Ra. clear Ra.
    destruct (String.eqb_spec (RoleName opts) "") as [E | E]; simpl.
    + rewrite <- app_assoc. reflexivity.
    + specialize (Hend E).
      destruct (validateRoleForAccount opts client accessToken fuel (types.AccountId a))
        as [[[|] | e] |]; try contradiction; try reflexivity.
      rewrite <- app_assoc. reflexivity.
Qed.

(** The loop over the pages. *)
Lemma listAccountsFrom_pages (fuel calls : nat) (nextToken : option string)
    (pages : list (list types.AccountInfo)) (accounts : list types.AccountInfo) :
  accountPages client accessToken nextToken pages ->
  roleChecksEnd opts client accessToken fuel pages ->
  List.length pages <= calls ->
  listAccountsFrom opts client accessToken fuel calls accounts nextToken
  = Some (Ok (accounts ++ List.concat (map (filter (retained opts client accessToken fuel)) pages))).
Proof.
  intros H. revert calls accounts.
  induction H as [tok page E | tok page t pages E _ IH]; intros calls accounts Hend Hc.
  - destruct calls as [| calls]; [simpl in Hc; lia |].
    simpl. rewrite E. simpl.
    rewrite appendValid_retained.
    + rewrite app_nil_r. reflexivity.
    + intros account Hin. apply Hend. simpl. rewrite app_nil_r. exact Hin.
  - destruct calls as [| calls]; [simpl in Hc; lia |].
    simpl. rewrite E. simpl.
    rewrite appendValid_retained.
    + rewrite IH.
      * rewrite <- app_assoc. reflexivity.
      * intros account Hin. apply Hend. simpl. apply in_or_app. auto.
      * simpl in Hc. lia.
    + intros account Hin. apply Hend. simpl. apply in_or_app. auto.
Qed.

Lemma retained_without_filter (fuel : nat) (l : list types.AccountInfo) :
  RoleName opts = "" -> filter (retained opts client accessToken fuel) l = l.
Proof.
  intros E. unfold retained. rewrite E. simpl.
  induction l as [| a l IH]; simpl; congruence.
Qed.

Lemma concat_map_filter {A : Type} (p : A -> bool) (l : list (list A)) :
  List.concat (map (filter p) l) = filter p (List.concat l).
Proof.
  induction l as [| x l IH]; simpl; [reflexivity |].
  rewrite filter_app, IH. reflexivity.
Qed.

(** The accounts returned, as one filter over the accounts of all pages. *)
Lemma listSSOAccounts_filters_pages
    (fuel : nat) (pages : list (list types.AccountInfo)) :
  accountPages client accessToken None pages ->
  roleChecksEnd opts client accessToken fuel pages ->
  List.length pages <= fuel ->
  listSSOAccounts opts client accessToken fuel
  = Some (Ok (filter (retained opts client accessToken fuel) (List.concat pages))).
Proof.
  intros Hp Hend Hf. unfold listSSOAccounts.
  rewrite (listAccountsFrom_pages fuel fuel None pages [] Hp Hend Hf).
  simpl. rewrite concat_map_filter. reflexivity.
Qed.

(** C7, as the code has it: the listing call is repeated, each call made
    with the continuation token of the response before it, until a response
    has none; the accounts returned are, page after page and in the order of
    the page, the accounts that pass the role check, which are all accounts
    when no role filter is set. *)
Theorem listSSOAccounts_goes_through_all_pages
    (fuel : nat) (pages : list (list types.AccountInfo)) :
  accountPages client accessToken None pages ->
  roleChecksEnd opts client accessToken fuel pages ->
  List.length pages <= fuel ->
  listSSOAccounts opts client accessToken fuel
  = Some (Ok (List.concat
                (map (filter (retained opts client accessToken fuel)) pages)))
  /\ (RoleName opts = "" ->
      listSSOAccounts opts client accessToken fuel = Some (Ok (List.concat pages))).
Proof.
  intros Hp Hend Hf.
  assert (H : listSSOAccounts opts client accessToken fuel
              = Some (Ok (List.concat
                   (map (filter (retained opts client accessToken fuel)) pages)))).
  { unfold listSSOAccounts.
    rewrite (listAccountsFrom_pages fuel fuel None pages [] Hp Hend Hf).
    reflexivity. }
  split; [exact H |].
  intros E. rewrite H, concat_map_filter, retained_without_filter by exact E.
  reflexivity.
Qed.

Lemma rolePages_unique (accountID : string) (nextToken : option string)
    (r1 r2 : list (list types.RoleInfo)) :
  rolePages client accessToken accountID nextToken r1 ->
  rolePages client accessToken accountID nextToken r2 -> r1 = r2.
Proof.
  intros H1. revert r2.
  induction H1 as [tok page E | tok page t pages E _ IH]; intros r2 H2;
    inversion H2 as [tok' page' E' | tok' page' t' pages' E' H']; subst;
    rewrite E in E'; try discriminate.
  - injection E' as <-. reflexivity.
  - injection E' as <- <-. f_equal. apply IH, H'.
Qed.

Lemma hasRoleName_exists (roles : list types.RoleInfo) :
  hasRoleName opts roles = true
  <-> exists role, In role roles /\ types.RoleName role = RoleName opts.
Proof.
  unfold hasRoleName. rewrite existsb_exists.
  split; intros (role & Hin & E); exists role; split; auto;
    apply String.eqb_eq; exact E.
Qed.

(** With a role filter, an account whose roles the service sends in full
    is retained when, and only when, the option is among the role names. *)
Lemma retained_hasRoleName (fuel : nat) (account : types.AccountInfo)
    (roles : list (list types.RoleInfo)) :
  RoleName opts <> "" ->
  rolePages client accessToken (types.AccountId account) None roles ->
  List.length roles <= fuel ->
  retained opts client accessToken fuel account
  = hasRoleName opts (List.concat roles).
Proof.
  intros E Hr Hf. unfold retained, validateRoleForAccount.
  rewrite (validateRoleFrom_pages _ _ _ _ Hr Hf).
  destruct (String.eqb_spec (RoleName opts) ""); [contradiction |].
  simpl. destruct (hasRoleName opts (List.concat roles)); reflexivity.
Qed.

(** C5: with a role filter set, an account that the service enumerates is
    in the list returned exactly when the list of its roles at the service
    has a role whose name is the filter, compared as strings; and an account
    that is enumerated once and retained is in the list once. *)
Theorem role_filter_retains_the_accounts_with_the_role
    (fuel : nat) (pages : list (list types.AccountInfo)) :
  RoleName opts <> "" ->
  accountPages client accessToken None pages ->
  List.length pages <= fuel ->
  (forall account, In account (List.concat pages) ->
     exists roles, rolePages client accessToken (types.AccountId account) None roles
                   /\ List.length roles <= fuel) ->
  exists accounts,
    listSSOAccounts opts client accessToken fuel = Some (Ok accounts)
    /\ forall account roles,
         In account (List.concat pages) ->
         rolePages client accessToken (types.AccountId account) None roles ->
         (In account accounts
          <-> exists role, In role (List.concat roles)
                           /\ types.RoleName role = RoleName opts)
         /\ (In account accounts ->
             count_occ AccountInfo_eq_dec (List.concat pages) account = 1 ->
             count_occ AccountInfo_eq_dec accounts account = 1).
Proof.
  intros E Hp Hf Hroles.
  assert (Hend : roleChecksEnd opts client accessToken fuel pages).
  { intros account Hin _.
    destruct (Hroles account Hin) as (roles & Hr & Hl).
    unfold validateRoleForAccount.
    rewrite (validateRoleFrom_pages _ _ _ _ Hr Hl). discriminate. }
  pose proof (listSSOAccounts_filters_pages fuel pages Hp Hend Hf) as H.
  exists (filter (retained opts client accessToken fuel) (List.concat pages)).
  split; [exact H |].
  intros account roles Hin Hr.
  destruct (Hroles account Hin) as (roles' & Hr' & Hl).
  rewrite (rolePages_unique _ _ _ _ Hr' Hr) in Hl.
  pose proof (retained_hasRoleName fuel account roles E Hr Hl) as R.
  split.
  - rewrite filter_In, R, hasRoleName_exists. tauto.
  - intros Hret Hone. rewrite count_occ_filter.
    apply filter_In in Hret as [_ ->]. exact Hone.
Qed.

End AccountFacts.

(** With the role filter "AdministratorAccess", the account of the second
    page, which has not the role, is left out. *)
Example listSSOAccounts_two_pages :
  listSSOAccounts Example.applyOpts Example.client "access-token" 2
  = Some (Ok [Example.admin])
  /\ listSSOAccounts (mkOptions false "" "" "" "" false) Example.client
       "access-token" 2
     = Some (Ok [Example.admin; Example.guest]).
Proof. split; reflexivity. Qed.

Lemma Example_accountPages :
  accountPages Example.client "access-token" None [[Example.admin]; [Example.guest]].
Proof.
  apply accountPages_more with (t := "page-2"); [reflexivity |].
  apply accountPages_last. reflexivity.
Qed.

(** C7 as stated fails: with a role filter, an account of a page that has
    not the role is not in the list returned. *)
Lemma filtered_accounts_are_not_returned : ~ returnsAllItems.
Proof.
  intros H.
  specialize (H Example.applyOpts Example.client "access-token" 2
                [[Example.admin]; [Example.guest]] [Example.admin]
                Example_accountPages eq_refl).
  discriminate H.
Qed.

Lemma listSSOAccounts_goes_through_all_pages_witness :
  accountPages Example.client "access-token" None [[Example.admin]; [Example.guest]]
  /\ 2 <= 2
  /\ listSSOAccounts Example.applyOpts Example.client "access-token" 2
     = Some (Ok (List.concat
          (map (filter (retained Example.applyOpts Example.client "access-token" 2))
               [[Example.admin]; [Example.guest]]))).
Proof.
  split; [exact Example_accountPages |]. split; [lia |].
  apply (listSSOAccounts_goes_through_all_pages Example.applyOpts Example.client
           "access-token" 2 [[Example.admin]; [Example.guest]] Example_accountPages).
  - intros account Hin _.
    simpl in Hin. destruct Hin as [<- | [<- | []]]; discriminate.
  - simpl. lia.
Defined.

Lemma role_filter_retains_the_accounts_with_the_role_witness :
  RoleName Example.applyOpts <> ""
  /\ exists accounts,
       listSSOAccounts Example.applyOpts Example.client "access-token" 2
       = Some (Ok accounts)
       /\ forall account roles,
            In account (List.concat [[Example.admin]; [Example.guest]]) ->
            rolePages Example.client "access-token" (types.AccountId account) None roles ->
            (In account accounts
             <-> exists role, In role (List.concat roles)
                              /\ types.RoleName role = RoleName Example.applyOpts)
            /\ (In account accounts ->
                count_occ AccountInfo_eq_dec
                  (List.concat [[Example.admin]; [Example.guest]]) account = 1 ->
                count_occ AccountInfo_eq_dec accounts account = 1).
Proof.
  split; [discriminate |].
  apply (role_filter_retains_the_accounts_with_the_role Example.applyOpts
           Example.client "access-token" 2 [[Example.admin]; [Example.guest]]).
  - discriminate.
  - exact Example_accountPages.
  - simpl. lia.
  - intros account Hin. simpl in Hin. destruct Hin as [<- | [<- | []]].
    + exists [[types.mkRole "ReadOnly"; types.mkRole "AdministratorAccess"]].
      split; [apply rolePages_last; reflexivity | simpl; lia].
    + exists [[types.mkRole "ReadOnly"]].
      split; [apply rolePages_last; reflexivity | simpl; lia].
Defined.

(** ** main *)

Section MainFacts.
Context {U : Unicode}.
Variable opts : Options.
Variable Unmarshal : string -> result SSOToken.t.
Variable fs : FileSystem.
Variable home : string.
Variable LoadDefaultConfig : string -> result sso.Client.

(** The region of the run is the option when it is given, the region of
    the token otherwise. *)
Lemma effectiveRegion_option (token : SSOToken.t) :
  Region opts <> "" -> effectiveRegion opts token = Region opts.
Proof.
  intros H. unfold effectiveRegion.
  destruct (String.eqb_spec (Region opts) ""); [contradiction | reflexivity].
Qed.

Lemma effectiveRegion_token (token : SSOToken.t) :
  Region opts = "" -> effectiveRegion opts token = SSOToken.Region token.
Proof.
  intros H. unfold effectiveRegion. rewrite H. reflexivity.
Qed.

(** X20: a dry run of the whole program leaves the config file as it is,
    whatever its exit code. *)
Lemma main_dry_run_keeps_disk (fuel : nat) (disk disk' : Disk) (code : Z) :
  DryRun opts = true ->
  main opts Unmarshal fs home LoadDefaultConfig fuel disk = Some (code, disk') ->
  disk' = disk.
Proof.
  intros dry. unfold main.
  destruct (readSSOToken opts Unmarshal fs home) as [token | e];
    [| intros E; injection E as _ <-; reflexivity].
  destruct (LoadDefaultConfig (effectiveRegion opts token)) as [client | e];
    [| intros E; injection E as _ <-; reflexivity].
  destruct (listSSOAccounts opts client (SSOToken.AccessToken token) fuel)
    as [[accounts | e] |]; [| intros E; injection E as _ <-; reflexivity
                            | discriminate].
  pose proof (updateAWSConfig_dry opts dry disk accounts
                (SSOToken.StartURL token) (effectiveRegion opts token)
                (ProfilePrefix opts)) as Hdry.
  destruct (updateAWSConfig opts disk accounts (SSOToken.StartURL token)
              (effectiveRegion opts token) (ProfilePrefix opts)) as [[e |] d];
    simpl in Hdry; subst d; intros E; injection E as _ <-; reflexivity.
Qed.

End MainFacts.

(** ** readSSOToken: further properties *)

Lemma prefix_append (p s : string) :
  String.prefix p s = true <-> exists rest, s = (p ++ rest)%string.
Proof.
  revert s. induction p as [| c p IH]; intros s; simpl.
  - split; [intros _; exists s; reflexivity | intros _; destruct s; reflexivity].
  - destruct s as [| d s].
    + split; [discriminate | intros [rest E]; discriminate E].
    + simpl. destruct (Ascii.ascii_dec c d) as [<- | N].
      * rewrite IH. split; intros [rest E]; exists rest; simpl in *; congruence.
      * split; [discriminate |]. intros [rest E]. injection E as E _. congruence.
Qed.

(** [Contains] is containment as a substring. *)
Lemma Contains_substring (s substr : string) :
  Contains s substr = true <-> exists before after, s = (before ++ substr ++ after)%string.
Proof.
  induction s as [| c s IH]; cbn [Contains].
  - rewrite orb_false_r, prefix_append. split.
    + intros [rest E]. exists "", rest. exact E.
    + intros (before & after & E). exists after.
      destruct before; [exact E | discriminate E].
  - rewrite orb_true_iff, prefix_append, IH. split.
    + intros [[rest E] | (before & after & E)].
      * exists "", rest. exact E.
      * exists (String c before), after. simpl. congruence.
    + intros (before & after & E). destruct before as [| d before].
      * left. exists after. exact E.
      * right. simpl in E. injection E as _ E. eauto.
Qed.

(** [HasSuffix] is being an end of the string. *)
Lemma HasSuffix_append (s suffix : string) :
  HasSuffix s suffix = true <-> exists before, s = (before ++ suffix)%string.
Proof.
  induction s as [| c s IH]; cbn [HasSuffix].
  - rewrite orb_false_r, String.eqb_eq. split.
    + intros <-. exists "". reflexivity.
    + intros [before E]. destruct before; [exact E | discriminate E].
  - rewrite orb_true_iff, String.eqb_eq, IH. split.
    + intros [<- | [before E]]; [exists "" | exists (String c before)];
        simpl; congruence.
    + intros [before E]. destruct before as [| d before].
      * left. exact E.
      * right. simpl in E. injection E as _ E. eauto.
Qed.

Section MoreTokenFacts.
Variable opts : Options.
Variable Unmarshal : string -> result SSOToken.t.
Variable fs : FileSystem.
Variable home : string.

(** The loop passes over the entries that do not qualify. *)
Lemma scanCache_qualifying (files : list string) (sel : string) (latest : Z) :
  scanCache opts Unmarshal fs (cacheDirectory home) files sel latest
  = scanCache opts Unmarshal fs (cacheDirectory home)
      (filter (qualifiesb opts Unmarshal fs (cacheDirectory home)) files)
      sel latest.
Proof.
  revert sel latest. induction files as [| file rest IH]; intros sel latest.
  - reflexivity.
  - rewrite scanCache_step. cbn [filter]. unfold qualifiesb at 1.
    destruct (candidateToken opts Unmarshal fs (cacheDirectory home) file)
      as [token |] eqn:C.
    + rewrite scanCache_step, C.
      destruct (modTimeOf fs (cacheDirectory home) file) as [t |]; [| apply IH].
      destruct (t >? latest)%Z; apply IH.
    + apply IH.
Qed.

(** X1: what [readSSOToken] returns depends on the qualifying entries of
    the cache directory only: the entries whose name does not end in
    [.json], that cannot be read, that do not parse or that are of another
    domain can be taken out of the listing without any change of the
    result. *)
Theorem readSSOToken_ignores_other_entries (files : list string) :
  ReadDir fs (cacheDirectory home) = Ok files ->
  readSSOToken opts Unmarshal
    (withListing fs (filter (qualifiesb opts Unmarshal fs (cacheDirectory home)) files))
    home
  = readSSOToken opts Unmarshal fs home.
Proof.
  intros R. unfold readSSOToken. rewrite R. cbn [ReadDir withListing].
  rewrite (scanCache_qualifying files).
  reflexivity.
Qed.

(** A name that does not end in [.json] does not qualify. *)
Lemma candidateToken_json (cacheDir file : string) (token : SSOToken.t) :
  candidateToken opts Unmarshal fs cacheDir file = Some token ->
  exists base, file = (base ++ ".json")%string.
Proof.
  unfold candidateToken.
  destruct (HasSuffix file ".json") eqn:H; [| discriminate].
  intros _. apply HasSuffix_append, H.
Qed.

Lemma candidateToken_domain (cacheDir file : string) (token : SSOToken.t) :
  candidateToken opts Unmarshal fs cacheDir file = Some token ->
  Contains (SSOToken.StartURL token) (StartDomain opts) = true.
Proof.
  unfold candidateToken.
  destruct (HasSuffix file ".json"); [| discriminate].
  destruct (ReadFile fs (Join cacheDir file)) as [data | e]; [| discriminate].
  destruct (Unmarshal data) as [t | e]; [| discriminate].
  destruct (String.eqb_spec (StartDomain opts) "") as [E | E]; simpl.
  - intros H. injection H as <-. rewrite E.
    apply Contains_substring. exists "", (SSOToken.StartURL t). reflexivity.
  - destruct (Contains (SSOToken.StartURL t) (StartDomain opts)) eqn:C;
      [| discriminate].
    intros H. injection H as <-. exact C.
Qed.

(** X2: the token that [readSSOToken] returns is of the requested domain:
    its start URL has the start domain of the options as a substring, and
    it was read from an entry of the cache directory whose name ends in
    [.json]. *)
Theorem readSSOToken_token_of_the_domain (token : SSOToken.t) :
  readSSOToken opts Unmarshal fs home = Ok token ->
  (exists before after,
     SSOToken.StartURL token = (before ++ StartDomain opts ++ after)%string)
  /\ exists files base,
       ReadDir fs (cacheDirectory home) = Ok files
       /\ In (base ++ ".json")%string files
       /\ candidateToken opts Unmarshal fs (cacheDirectory home)
            (base ++ ".json")%string
          = Some token.
Proof.
  intros H.
  destruct (ReadDir fs (cacheDirectory home)) as [files | e] eqn:R;
    [| unfold readSSOToken in H; rewrite R in H; discriminate H].
  destruct (readSSOToken_scanned opts Unmarshal fs home files R)
    as (sel & latest & Hsc & Hempty & Hsel).
  destruct Hsc as [(Hs & _) | (file & Hs & Q & _ & _ & before & after & Hf & _)].
  - rewrite (Hempty Hs) in H. discriminate H.
  - destruct (candidateToken opts Unmarshal fs (cacheDirectory home) file)
      as [token' |] eqn:C; [| contradiction Q; exact C].
    rewrite (Hsel file token' Hs C) in H. injection H as <-.
    split.
    + apply Contains_substring. eapply candidateToken_domain; eauto.
    + destruct (candidateToken_json _ _ _ C) as [base ->].
      exists files, base. split; [reflexivity |]. split; [| exact C].
      rewrite Hf. apply in_elt.
Qed.

End MoreTokenFacts.

(** ** listSSOAccounts: further properties *)

Section MoreAccountFacts.
Variable opts : Options.
Variable client : sso.Client.
Variable accessToken : string.

Lemma listAccountsFrom_fails (fuel calls : nat) (nextToken : option string)
    (pages : list (list types.AccountInfo)) (e : error)
    (accounts : list types.AccountInfo) :
  accountListingFails client accessToken nextToken pages e ->
  roleChecksEnd opts client accessToken fuel pages ->
  List.length pages < calls ->
  listAccountsFrom opts client accessToken fuel calls accounts nextToken
  = Some (Err e).
Proof.
  intros H. revert calls accounts.
  induction H as [tok e E | tok page t pages e E _ IH]; intros calls accounts Hend Hc.
  - destruct calls as [| calls]; [simpl in Hc; lia |].
    simpl. rewrite E. reflexivity.
  - destruct calls as [| calls]; [simpl in Hc; lia |].
    simpl. rewrite E. simpl.
    rewrite appendValid_retained.
    + apply IH.
      * intros account Hin. apply Hend. simpl. apply in_or_app. auto.
      * simpl in Hc. lia.
    + intros account Hin. apply Hend. simpl. apply in_or_app. auto.
Qed.

(** X5: when a call of the account listing fails, after any number of
    pages, [listSSOAccounts] returns the error of this call and none of the
    accounts of the pages before it. *)
Theorem listSSOAccounts_listing_error
    (fuel : nat) (pages : list (list types.AccountInfo)) (e : error) :
  accountListingFails client accessToken None pages e ->
  roleChecksEnd opts client accessToken fuel pages ->
  List.length pages < fuel ->
  listSSOAccounts opts client accessToken fuel = Some (Err e).
Proof.
  intros H Hend Hf. unfold listSSOAccounts.
  apply listAccountsFrom_fails with (pages := pages); assumption.
Qed.

(** X6: an error of the role check of an account is not an error of the
    enumeration: the enumeration goes on and returns its list, and the
    account is not in it. *)
Theorem listSSOAccounts_skips_failed_role_check
    (fuel : nat) (pages : list (list types.AccountInfo))
    (account : types.AccountInfo) (e : error) :
  RoleName opts <> "" ->
  accountPages client accessToken None pages ->
  roleChecksEnd opts client accessToken fuel pages ->
  List.length pages <= fuel ->
  validateRoleForAccount opts client accessToken fuel (types.AccountId account)
    = Some (Err e) ->
  exists accounts,
    listSSOAccounts opts client accessToken fuel = Some (Ok accounts)
    /\ ~ In account accounts.
Proof.
  intros Hrole Hp Hend Hf Herr.
  exists (filter (retained opts client accessToken fuel) (List.concat pages)).
  split.
  - apply listSSOAccounts_filters_pages; assumption.
  - intros Hin. apply filter_In in Hin as [_ R].
    unfold retained in R. rewrite Herr in R.
    destruct (String.eqb_spec (RoleName opts) ""); [contradiction |].
    discriminate R.
Qed.

Lemma validateRoleFrom_reaches (accountID : string) (nextToken last : option string)
    (pages : list (list types.RoleInfo)) (fuel : nat) :
  roleListingReaches client accessToken accountID nextToken pages last ->
  hasRoleName opts (List.concat pages) = false ->
  List.length pages < fuel ->
  exists fuel',
    0 < fuel'
    /\ validateRoleFrom opts client accessToken fuel accountID nextToken
       = validateRoleFrom opts client accessToken fuel' accountID last.
Proof.
  intros H. revert fuel.
  induction H as [tok | tok page t pages last E _ IH]; intros fuel Hno Hf.
  - exists fuel. simpl in Hf. split; [lia | reflexivity].
  - destruct fuel as [| fuel]; [simpl in Hf; lia |].
    simpl in Hno. unfold hasRoleName in Hno. rewrite existsb_app in Hno.
    apply orb_false_iff in Hno as [Hpage Hrest].
    simpl. rewrite E. simpl. rewrite Hpage.
    apply IH; [exact Hrest | simpl in Hf; lia].
Qed.

(** X7: [validateRoleForAccount] says yes on the first page of roles that
    has a role of the name of the option, whatever continuation token this
    page comes with: the pages after it are not asked for. *)
Theorem validateRoleForAccount_stops_at_the_role
    (accountID : string) (last : option string)
    (pages : list (list types.RoleInfo)) (resp : sso.ListAccountRolesOutput)
    (fuel : nat) :
  roleListingReaches client accessToken accountID None pages last ->
  hasRoleName opts (List.concat pages) = false ->
  sso.ListAccountRoles client accessToken accountID last = Ok resp ->
  hasRoleName opts (sso.RoleList resp) = true ->
  List.length pages < fuel ->
  validateRoleForAccount opts client accessToken fuel accountID = Some (Ok true).
Proof.
  intros H Hno E Hyes Hf. unfold validateRoleForAccount.
  destruct (validateRoleFrom_reaches _ _ _ _ _ H Hno Hf) as (fuel' & Hpos & ->).
  destruct fuel' as [| fuel']; [lia |].
  simpl. rewrite E. unfold hasRoleName in Hyes. rewrite Hyes. reflexivity.
Qed.

(** X8: when a call of the role listing fails and no page before it has
    a role of the name of the option, [validateRoleForAccount] returns the
    error of this call. *)
Theorem validateRoleForAccount_listing_error
    (accountID : string) (last : option string)
    (pages : list (list types.RoleInfo)) (e : error) (fuel : nat) :
  roleListingReaches client accessToken accountID None pages last ->
  hasRoleName opts (List.concat pages) = false ->
  sso.ListAccountRoles client accessToken accountID last = Err e ->
  List.length pages < fuel ->
  validateRoleForAccount opts client accessToken fuel accountID = Some (Err e).
Proof.
  intros H Hno E Hf. unfold validateRoleForAccount.
  destruct (validateRoleFrom_reaches _ _ _ _ _ H Hno Hf) as (fuel' & Hpos & ->).
  destruct fuel' as [| fuel']; [lia |].
  simpl. rewrite E. reflexivity.
Qed.

End MoreAccountFacts.

Section NoRoleFilter.
Variable opts : Options.
Variable accessToken : string.
Hypothesis noFilter : RoleName opts = "".

Lemma appendValid_all (client : sso.Client) (fuel : nat)
    (page accounts : list types.AccountInfo) :
  appendValid opts client accessToken fuel page accounts = Some (accounts ++ page).
Proof.
  revert accounts. induction page as [| a rest IH]; intros accounts; simpl.
  - rewrite app_nil_r. reflexivity.
  - rewrite noFilter. simpl. rewrite IH, <- app_assoc. reflexivity.
Qed.

Lemma listAccountsFrom_without_filter (client : sso.Client)
    (roles : string -> string -> option string -> result sso.ListAccountRolesOutput)
    (fuel fuel' calls : nat) (accounts : list types.AccountInfo)
    (nextToken : option string) :
  listAccountsFrom opts (sso.mkClient (sso.ListAccounts client) roles)
    accessToken fuel' calls accounts nextToken
  = listAccountsFrom opts client accessToken fuel calls accounts nextToken.
Proof.
  revert accounts nextToken.
  induction calls as [| calls IH]; intros accounts nextToken; simpl; [reflexivity |].
  destruct (sso.ListAccounts client accessToken nextToken) as [resp | e];
    [| reflexivity].
  rewrite !appendValid_all.
  destruct (sso.NextToken resp); [apply IH | reflexivity].
Qed.

(** X9: without a role filter (the empty role name) the roles are not
    looked at: the list that [listSSOAccounts] returns is the same whatever
    the role listing of the service answers. *)
Theorem listSSOAccounts_without_filter_ignores_roles (client : sso.Client)
    (roles : string -> string -> option string -> result sso.ListAccountRolesOutput)
    (fuel : nat) :
  listSSOAccounts opts (sso.mkClient (sso.ListAccounts client) roles)
    accessToken fuel
  = listSSOAccounts opts client accessToken fuel.
Proof.
  unfold listSSOAccounts. apply listAccountsFrom_without_filter.
Qed.

End NoRoleFilter.

(** ** updateAWSConfig, removal mode: further properties *)

Section MoreRemovalFacts.
Context {U : Unicode}.
Variable opts : Options.
Variables startURL region : string.

(** X10: the removal mode only takes sections out: on a loaded file
    whose default section is none that the run removes, the file on disk
    after it is the file before it without the sections of some names; the
    sections that stay are unchanged and in their order, the default section
    among them, and no section is added. *)
Theorem removal_only_deletes
    (disk : Disk) (accounts : list types.AccountInfo) (profilePrefix : string)
    (f f' : ini.File) :
  Remove opts = true ->
  loaded f -> defaultStays opts accounts startURL region f ->
  content disk = Some f ->
  content (snd (updateAWSConfig opts disk accounts startURL region profilePrefix))
    = Some f' ->
  (exists keep : string -> bool, f' = filter (fun s => keep (ini.Name s)) f)
  /\ ini.GetSection f' "" = ini.GetSection f "".
Proof.
  intros removal ld stays Hc Hf'.
  unfold updateAWSConfig, Load, SaveTo in Hf'. rewrite Hc in Hf'.
  destruct (removal_keepsDefault opts startURL region removal accounts f ld stays
              (withDash profilePrefix) accounts f (incl_refl _)
              (keepsDefault_refl f ld)) as (cfg' & E & K & _).
  rewrite E in Hf'.
  assert (Hsame : content disk = Some f' ->
                  thinned f f' /\ ini.GetSection f' "" = ini.GetSection f "").
  { intros Hd. rewrite Hc in Hd. injection Hd as <-.
    split; [apply thinned_refl | reflexivity]. }
  destruct (DryRun opts); [exact (Hsame Hf') |].
  destruct (writable disk); [| exact (Hsame Hf')].
  simpl in Hf'. injection Hf' as <-.
  destruct K as (T & d & Gf & Gc). split; [exact T | congruence].
Qed.

Lemma dotPrefixes_no_dot (name : string) :
  hasDot name = false -> ini.dotPrefixes name = [].
Proof.
  induction name as [| c name IH]; simpl; [reflexivity |].
  intros H. apply orb_false_iff in H as [Hc Hn].
  rewrite Hc, (IH Hn). reflexivity.
Qed.

(** In a section that is no child section a key is a key of the section
    itself. *)
Lemma GetKey_no_dot (cfg : ini.File) (s : ini.section) (k : string) :
  hasDot (ini.Name s) = false ->
  ini.GetKey cfg s k
  = match ini.lookupKey (ini.keyList s) k with
    | Some v => Some (ini.Name s, v)
    | None => None
    end.
Proof.
  intros H. unfold ini.GetKey, ini.parents.
  rewrite (dotPrefixes_no_dot _ H). reflexivity.
Qed.

Lemma HasKey_no_dot (cfg : ini.File) (s : ini.section) (k : string) :
  hasDot (ini.Name s) = false ->
  ini.HasKey cfg s k
  = match ini.lookupKey (ini.keyList s) k with Some _ => true | None => false end.
Proof.
  intros H. unfold ini.HasKey. rewrite (GetKey_no_dot cfg s k H).
  destruct (ini.lookupKey (ini.keyList s) k); reflexivity.
Qed.

(** On a section that is no child section and stores no reference, the
    test looks at the keys of the section and leaves the file as it is. *)
Lemma matchesRun_no_dot (cfg : ini.File) (s : ini.section)
    (account : types.AccountInfo) :
  hasDot (ini.Name s) = false ->
  (forall k v, holds s k v -> plain v) ->
  matchesRun opts cfg s account startURL region
  = (holdsRunb opts s account startURL region, cfg).
Proof.
  intros H Hp. unfold matchesRun, holdsRunb, holdsb.
  rewrite !(HasKey_no_dot cfg s _ H).
  destruct (ini.lookupKey (ini.keyList s) "sso_start_url") as [v1 |] eqn:L1;
    [| reflexivity].
  destruct (ini.lookupKey (ini.keyList s) "sso_account_id") as [v2 |] eqn:L2;
    [| simpl; rewrite andb_false_r; reflexivity].
  destruct (ini.lookupKey (ini.keyList s) "sso_role_name") as [v3 |] eqn:L3;
    [| simpl; rewrite andb_false_r; reflexivity].
  destruct (ini.lookupKey (ini.keyList s) "region") as [v4 |] eqn:L4;
    [| simpl; rewrite andb_false_r; reflexivity].
  simpl.
  rewrite (KeyString_plain cfg s _ v1 L1 (Hp _ _ L1)).
  destruct (v1 =? startURL)%string; [| reflexivity].
  rewrite (KeyString_plain cfg s _ v2 L2 (Hp _ _ L2)).
  destruct (v2 =? types.AccountId account)%string; [| reflexivity].
  rewrite (KeyString_plain cfg s _ v3 L3 (Hp _ _ L3)).
  destruct (v3 =? RoleName opts)%string; [| reflexivity].
  rewrite (KeyString_plain cfg s _ v4 L4 (Hp _ _ L4)).
  reflexivity.
Qed.

Lemma filter_filter {A : Type} (p q : A -> bool) (l : list A) :
  filter q (filter p l) = filter (fun x => p x && q x) l.
Proof.
  induction l as [| x l IH]; simpl; [reflexivity |].
  destruct (p x); simpl; [| exact IH].
  destruct (q x); [rewrite IH |]; auto.
Qed.

Hypothesis wet : DryRun opts = false.

(** One pass of the loop over the sections [sections], none of them a
    child section: the sections of the file that have the name of one of
    them with the keys of the run are taken out. *)
Lemma removeMatching_no_dot (sections : list ini.section)
    (account : types.AccountInfo) (cfg : ini.File) :
  (forall s, In s sections ->
     hasDot (ini.Name s) = false /\ ini.Name s <> ""
     /\ forall k v, holds s k v -> plain v) ->
  removeMatching opts sections account startURL region cfg
  = filter (fun s => negb (existsb
              (fun t => (ini.Name t =? ini.Name s)%string
                        && holdsRunb opts t account startURL region) sections))
           cfg.
Proof.
  revert cfg. induction sections as [| t rest IH]; intros cfg Hall; simpl.
  - exact (filter_all ini.Name cfg).
  - destruct (Hall t (or_introl eq_refl)) as (Hdot & Hne & Hp).
    rewrite (matchesRun_no_dot cfg t account Hdot Hp), wet. simpl.
    rewrite IH by (intros s Hs; apply Hall; simpl; auto).
    destruct (holdsRunb opts t account startURL region).
    + unfold ini.DeleteSection. rewrite (sectionName_nonempty _ Hne).
      rewrite filter_filter. apply filter_ext. intros s.
      rewrite andb_true_r, negb_orb, (String.eqb_sym (ini.Name t)). reflexivity.
    + apply filter_ext. intros s. rewrite andb_false_r. reflexivity.
Qed.

Lemma existsb_same_name (cfg : ini.File) (s : ini.section)
    (account : types.AccountInfo) :
  NoDup (map ini.Name cfg) -> In s cfg ->
  existsb (fun t => (ini.Name t =? ini.Name s)%string
                    && holdsRunb opts t account startURL region) cfg
  = holdsRunb opts s account startURL region.
Proof.
  intros Hnd Hs.
  destruct (holdsRunb opts s account startURL region) eqn:Hh.
  - apply existsb_exists. exists s. rewrite String.eqb_refl, Hh. auto.
  - destruct (existsb _ cfg) eqn:Hex; [| reflexivity].
    apply existsb_exists in Hex as (t & Ht & Hand).
    apply andb_true_iff in Hand as [En Hth].
    apply String.eqb_eq in En.
    rewrite (NoDup_map_eq ini.Name cfg t s Hnd Ht Hs En) in Hth. congruence.
Qed.

Lemma flat_filter (p : ini.section -> bool) (cfg : ini.File) :
  flat cfg -> flat (filter p cfg).
Proof.
  intros H s Hs. apply filter_In in Hs as [Hs _]. apply H, Hs.
Qed.

Lemma wellFormed_filter (p : ini.section -> bool) (cfg : ini.File) :
  wellFormed cfg -> wellFormed (filter p cfg).
Proof.
  intros [Hnd Hne]. split.
  - apply NoDup_map_filter, Hnd.
  - intros H. apply Hne.
    apply in_map_iff in H as (y & Hy & Hin).
    apply filter_In in Hin as [Hin _].
    apply in_map_iff. exists y. auto.
Qed.

Hypothesis removal : Remove opts = true.

Lemma plainFile_filter (p : ini.section -> bool) (cfg : ini.File) :
  plainFile cfg -> plainFile (filter p cfg).
Proof.
  intros H s k v Hs. apply filter_In in Hs as [Hs _]. apply (H s k v Hs).
Qed.

Lemma removal_no_dot (profilePrefix : string) (accounts : list types.AccountInfo)
    (cfg : ini.File) :
  wellFormed cfg -> flat cfg -> plainFile cfg ->
  updateAccounts opts profilePrefix accounts startURL region cfg
  = Ok (filter (fun s => negb (existsb
                  (fun account => holdsRunb opts s account startURL region)
                  accounts)) cfg).
Proof.
  revert cfg. induction accounts as [| a rest IH]; intros cfg Hwf Hflat Hpl; simpl.
  - f_equal. exact (filter_all ini.Name cfg).
  - unfold updateAccount, ini.Sections. rewrite removal. simpl.
    assert (Hpass : removeMatching opts cfg a startURL region cfg
                    = filter (fun s => negb (holdsRunb opts s a startURL region)) cfg).
    { rewrite removeMatching_no_dot.
      - apply filter_ext_in. intros s Hs.
        rewrite (existsb_same_name cfg s a (proj1 Hwf) Hs). reflexivity.
      - intros s Hs. split; [apply Hflat, Hs |]. split.
        + intros E. apply (proj2 Hwf). rewrite <- E. apply in_map, Hs.
        + intros k v. apply (Hpl s k v Hs). }
    rewrite Hpass, IH
      by (apply wellFormed_filter, Hwf || apply flat_filter, Hflat
          || apply plainFile_filter, Hpl).
    f_equal. rewrite filter_filter. apply filter_ext. intros s.
    rewrite negb_orb. reflexivity.
Qed.

(** X11: on a loaded file without child sections (no section name has a
    dot) and without references (no stored value has a [%(name)s]), whose
    default section is none that the run removes, the removal mode saves the
    file without exactly the sections that store the four keys
    sso_start_url, sso_account_id, sso_role_name and region with the start
    URL of the run, the id of one of the accounts, the role name and the
    region; every other section is saved as it was, the default section
    among them. *)
Theorem removal_without_child_sections
    (disk : Disk) (accounts : list types.AccountInfo) (profilePrefix : string)
    (f : ini.File) :
  content disk = Some f -> writable disk = true ->
  loaded f -> flat f -> plainFile f ->
  defaultStays opts accounts startURL region f ->
  let f' := filter (fun s => negb (existsb
                      (fun account => holdsRunb opts s account startURL region)
                      accounts)) f in
  updateAWSConfig opts disk accounts startURL region profilePrefix
  = (None, mkDisk (Some f') true)
  /\ ini.GetSection f' "" = ini.GetSection f "".
Proof.
  intros Hc Hw ld Hflat Hpl stays f'.
  pose proof (removal_no_dot (withDash profilePrefix) accounts f (proj1 ld)
                Hflat Hpl) as E.
  split.
  - unfold updateAWSConfig, Load, SaveTo.
    rewrite Hc, E, wet, Hw. reflexivity.
  - destruct (removal_keepsDefault opts startURL region removal accounts f ld stays
                (withDash profilePrefix) accounts f (incl_refl _)
                (keepsDefault_refl f ld)) as (cfg' & E' & (_ & d & Gf & Gc) & _).
    rewrite E in E'. injection E' as <-. fold f' in Gc. congruence.
Qed.

End MoreRemovalFacts.

(** ** updateAWSConfig, apply mode: further properties *)

Lemma setPairs_cons (name k v : string) (pairs : list (string * string))
    (c : ini.File) :
  setPairs name ((k, v) :: pairs) c = setPairs name pairs (ini.KeySetValue c name k v).
Proof. reflexivity. Qed.

Lemma setPairs_app (name : string) (l1 l2 : list (string * string)) (c : ini.File) :
  setPairs name (l1 ++ l2) c = setPairs name l2 (setPairs name l1 c).
Proof. apply fold_left_app. Qed.

(** Setting keys keeps a value that none of them changes. *)
Lemma setPairs_keeps (name : string) (pairs : list (string * string))
    (c : ini.File) (n k v : string) :
  (forall k' v', In (k', v') pairs -> k' <> k \/ v' = v) ->
  resolvesTo c n k v -> resolvesTo (setPairs name pairs c) n k v.
Proof.
  revert c. induction pairs as [| [k' v'] rest IH]; intros c Hp R; [exact R |].
  rewrite setPairs_cons. apply IH.
  - intros k0 v0 Hin. apply Hp. simpl. auto.
  - apply (resolvesTo_settles k v c); [| exact R].
    apply settles_KeySetValue, Hp. simpl. auto.
Qed.

Lemma setPairs_GetSection (name : string) (pairs : list (string * string))
    (c : ini.File) (n : string) (s : ini.section) :
  ini.GetSection c n = Some s ->
  exists s', ini.GetSection (setPairs name pairs c) n = Some s'.
Proof.
  revert c s. induction pairs as [| [k v] rest IH]; intros c s G; [eauto |].
  rewrite setPairs_cons.
  destruct (settles_GetSection k v c (ini.KeySetValue c name k v) n s) as [s' G'];
    [apply settles_KeySetValue; auto | exact G |].
  apply (IH _ s' G').
Qed.

(** A key that is set, and not changed by the keys set after it, has its
    value at the end. *)
Lemma setPairs_sets (name : string) (l1 l2 : list (string * string))
    (c : ini.File) (k v : string) (s : ini.section) :
  ini.GetSection c name = Some s ->
  (forall k' v', In (k', v') l2 -> k' <> k \/ v' = v) ->
  resolvesTo (setPairs name (l1 ++ (k, v) :: l2) c) name k v.
Proof.
  intros G Hp. rewrite setPairs_app, setPairs_cons.
  destruct (setPairs_GetSection name l1 c name s G) as [s1 G1].
  apply setPairs_keeps; [exact Hp |].
  apply (KeySetValue_resolves _ name k v s1 G1).
Qed.

Section MoreApplyFacts.
Context {U : Unicode}.
Variable opts : Options.
Variables startURL region : string.

(** [writeProfile] is the fetching or making of the section, and then the
    setting of the five keys. *)
Lemma writeProfile_setPairs (cfg : ini.File) (profileName : string)
    (account : types.AccountInfo) :
  writeProfile opts cfg profileName account startURL region
  = (sec <- match ini.GetSection cfg profileName with
            | Some s => Ok (cfg, s)
            | None => ini.NewSection cfg profileName
            end ;;
     Ok (setPairs (ini.Name (snd sec))
           (profilePairs opts account startURL region) (fst sec))).
Proof.
  unfold writeProfile.
  destruct (match ini.GetSection cfg profileName with
            | Some s => Ok (cfg, s)
            | None => ini.NewSection cfg profileName
            end) as [[c1 s] | e]; reflexivity.
Qed.

(** Each of the five keys has its value in the section of the profile. *)
Lemma writeProfile_sets (cfg cfg' : ini.File) (profileName : string)
    (account : types.AccountInfo) (k v : string) :
  In (k, v) (profilePairs opts account startURL region) ->
  writeProfile opts cfg profileName account startURL region = Ok cfg' ->
  resolvesTo cfg' profileName k v.
Proof.
  intros Hin H. rewrite writeProfile_setPairs in H.
  destruct (match ini.GetSection cfg profileName with
            | Some s => Ok (cfg, s)
            | None => ini.NewSection cfg profileName
            end) as [[c1 s] | e] eqn:Start; cbn [bind fst snd] in H; [| discriminate].
  assert (E' : cfg' = setPairs (ini.Name s)
                        (profilePairs opts account startURL region) c1)
    by congruence.
  subst cfg'. clear H.
  destruct (fetch_or_create _ _ _ _ Start) as (G1 & En & _).
  apply resolvesTo_sectionName. rewrite <- En.
  unfold profilePairs in *. simpl in Hin.
  destruct Hin as [E | [E | [E | [E | [E | []]]]]]; injection E as <- <-.
  - apply (setPairs_sets _ [] _ c1 _ _ s G1).
    simpl. intros k' v' Hin. left.
    intuition (match goal with H : (_, _) = (_, _) |- _ => injection H as <- <- end;
               discriminate).
  - apply (setPairs_sets _ [_] _ c1 _ _ s G1).
    simpl. intros k' v' [E | [E | [E | []]]]; injection E as <- <-;
      (left; discriminate) || (right; reflexivity).
  - apply (setPairs_sets _ [_; _] _ c1 _ _ s G1).
    simpl. intros k' v' [E | [E | []]]; injection E as <- <-; left; discriminate.
  - apply (setPairs_sets _ [_; _; _] _ c1 _ _ s G1).
    simpl. intros k' v' [E | []]; injection E as <- <-; left; discriminate.
  - apply (setPairs_sets _ [_; _; _; _] _ c1 _ _ s G1).
    simpl. intros k' v' [].
Qed.

(** A value that is the value of the run for its key, or of another key
    than the five, is kept by [writeProfile] wherever it is. *)
Lemma writeProfile_keeps (cfg cfg' : ini.File) (profileName : string)
    (account : types.AccountInfo) (name k v : string) :
  (forall k' v', In (k', v') (profilePairs opts account startURL region) ->
                 k' <> k \/ v' = v) ->
  writeProfile opts cfg profileName account startURL region = Ok cfg' ->
  resolvesTo cfg name k v -> resolvesTo cfg' name k v.
Proof.
  intros Hp H R. rewrite writeProfile_setPairs in H.
  destruct (match ini.GetSection cfg profileName with
            | Some s => Ok (cfg, s)
            | None => ini.NewSection cfg profileName
            end) as [[c1 s] | e] eqn:Start; cbn [bind fst snd] in H; [| discriminate].
  assert (E' : cfg' = setPairs (ini.Name s)
                        (profilePairs opts account startURL region) c1)
    by congruence.
  subst cfg'. clear H.
  destruct (fetch_or_create _ _ _ _ Start) as (_ & _ & S01).
  apply setPairs_keeps; [exact Hp |].
  apply (resolvesTo_settles k v cfg c1 name (S01 k v) R).
Qed.

Lemma runPairs_profilePairs (account : types.AccountInfo) (k v : string) :
  In (k, v) (runPairs opts startURL region) -> In (k, v) (profilePairs opts account startURL region).
Proof.
  unfold runPairs, profilePairs. simpl. intuition.
Qed.

Lemma runPairs_unchanged (account : types.AccountInfo) (k v : string) :
  In (k, v) (runPairs opts startURL region) ->
  forall k' v', In (k', v') (profilePairs opts account startURL region) ->
                k' <> k \/ v' = v.
Proof.
  unfold runPairs, profilePairs. simpl.
  intros [E | [E | [E | [E | []]]]] k' v' [E' | [E' | [E' | [E' | [E' | []]]]]];
    injection E as <- <-; injection E' as <- <-;
    (left; discriminate) || (right; reflexivity).
Qed.

Hypothesis apply : Remove opts = false.
Hypothesis wet : DryRun opts = false.

Lemma updateAccount_apply (profilePrefix : string) (account : types.AccountInfo)
    (cfg : ini.File) :
  updateAccount opts profilePrefix account startURL region cfg
  = writeProfile opts cfg (profileNameOf profilePrefix account) account
      startURL region.
Proof.
  unfold updateAccount. rewrite apply, wet. reflexivity.
Qed.

Lemma apply_run_keys (profilePrefix : string) (accounts : list types.AccountInfo)
    (cfg cfg' : ini.File) (k v : string) :
  In (k, v) (runPairs opts startURL region) ->
  updateAccounts opts profilePrefix accounts startURL region cfg = Ok cfg' ->
  (forall name, resolvesTo cfg name k v -> resolvesTo cfg' name k v)
  /\ (forall account, In account accounts ->
        resolvesTo cfg' (profileNameOf profilePrefix account) k v).
Proof.
  intros Hk. revert cfg.
  induction accounts as [| a rest IH]; intros cfg H; simpl in H.
  - injection H as <-. split; [auto | contradiction].
  - rewrite updateAccount_apply in H.
    destruct (writeProfile opts cfg (profileNameOf profilePrefix a) a
                startURL region) as [c1 | e] eqn:W; simpl in H; [| discriminate].
    destruct (IH c1 H) as [Hkeep' Hall].
    split.
    + intros name R. apply Hkeep'.
      apply (writeProfile_keeps _ _ _ _ _ _ _ (runPairs_unchanged a k v Hk) W R).
    + intros account [<- | Hin]; [| apply Hall, Hin].
      apply Hkeep'.
      apply (writeProfile_sets _ _ _ _ _ _ (runPairs_profilePairs a k v Hk) W).
Qed.

Lemma updateAccounts_app (profilePrefix : string)
    (l1 l2 : list types.AccountInfo) (cfg : ini.File) :
  updateAccounts opts profilePrefix (l1 ++ l2) startURL region cfg
  = (c <- updateAccounts opts profilePrefix l1 startURL region cfg ;;
     updateAccounts opts profilePrefix l2 startURL region c).
Proof.
  revert cfg. induction l1 as [| a l1 IH]; intros cfg; simpl; [reflexivity |].
  destruct (updateAccount opts profilePrefix a startURL region cfg); simpl;
    [apply IH | reflexivity].
Qed.

(** What a successful run of [updateAWSConfig] in the apply mode is: the
    file is loaded, the loop gives a file, and this file is saved. *)
Lemma updateAWSConfig_applied (disk disk' : Disk)
    (accounts : list types.AccountInfo) (profilePrefix : string) :
  updateAWSConfig opts disk accounts startURL region profilePrefix = (None, disk') ->
  exists cfg cfg',
    content disk = Some cfg
    /\ updateAccounts opts (withDash profilePrefix) accounts startURL region cfg
       = Ok cfg'
    /\ disk' = mkDisk (Some cfg') true.
Proof.
  unfold updateAWSConfig, Load, SaveTo. intros H.
  destruct (content disk) as [cfg |]; [| discriminate].
  destruct (updateAccounts opts (withDash profilePrefix) accounts startURL region cfg)
    as [cfg' | e] eqn:E; [| discriminate].
  rewrite wet in H. destruct (writable disk); [| discriminate].
  injection H as <-. eauto.
Qed.

(** X12: after a run of the apply mode that saves the file, the section
    of every account of the run has key sso_start_url with the start URL of
    the run and key sso_role_name with the role name of the options. *)
Theorem applied_sections_have_the_url_and_the_role
    (disk disk' : Disk) (accounts : list types.AccountInfo) (profilePrefix : string) :
  updateAWSConfig opts disk accounts startURL region profilePrefix = (None, disk') ->
  exists f',
    content disk' = Some f'
    /\ forall account, In account accounts ->
         exists s,
           ini.GetSection f' (profileNameOf (withDash profilePrefix) account) = Some s
           /\ keyIs f' s "sso_start_url" startURL
           /\ keyIs f' s "sso_role_name" (RoleName opts).
Proof.
  intros H.
  destruct (updateAWSConfig_applied _ _ _ _ H) as (cfg & cfg' & _ & E & ->).
  exists cfg'. split; [reflexivity |].
  intros account Hin.
  destruct (apply_run_keys _ _ _ _ "sso_start_url" startURL
              (or_introl eq_refl) E) as [_ H1].
  destruct (apply_run_keys _ _ _ _ "sso_role_name" (RoleName opts)
              (or_intror (or_intror (or_introl eq_refl))) E) as [_ H2].
  destruct (H1 account Hin) as (s1 & G1 & K1).
  destruct (H2 account Hin) as (s2 & G2 & K2).
  exists s1. split; [exact G1 |]. split; [exact K1 |].
  rewrite G1 in G2. injection G2 as <-. exact K2.
Qed.

(** X13: the account that comes last in the list has its id in its
    section: of several accounts with one profile name the last one
    overwrites the ids of those before it. *)
Theorem last_account_has_its_id
    (disk disk' : Disk) (before : list types.AccountInfo)
    (account : types.AccountInfo) (profilePrefix : string) :
  updateAWSConfig opts disk (before ++ [account]) startURL region profilePrefix
    = (None, disk') ->
  exists f' s,
    content disk' = Some f'
    /\ ini.GetSection f' (profileNameOf (withDash profilePrefix) account) = Some s
    /\ keyIs f' s "sso_account_id" (types.AccountId account).
Proof.
  intros H.
  destruct (updateAWSConfig_applied _ _ _ _ H) as (cfg & cfg' & _ & E & ->).
  rewrite updateAccounts_app in E.
  destruct (updateAccounts opts (withDash profilePrefix) before startURL region cfg)
    as [c1 | e]; simpl in E; [| discriminate].
  rewrite updateAccount_apply in E.
  destruct (writeProfile opts c1 (profileNameOf (withDash profilePrefix) account)
              account startURL region) as [c2 | e] eqn:W; simpl in E; [| discriminate].
  injection E as <-.
  destruct (writeProfile_sets _ _ _ _ "sso_account_id" (types.AccountId account)
              (or_intror (or_intror (or_introl eq_refl))) W) as (s & G & K).
  exists c2, s. auto.
Qed.

End MoreApplyFacts.

(** ** updateAWSConfig, apply mode: what it leaves alone *)

Lemma sameButProfileKeys_refl (s : ini.section) : sameButProfileKeys s s.
Proof. split; auto. Qed.

Lemma sameButProfileKeys_trans (s1 s2 s3 : ini.section) :
  sameButProfileKeys s1 s2 -> sameButProfileKeys s2 s3 -> sameButProfileKeys s1 s3.
Proof.
  intros [N1 K1] [N2 K2]. split; [congruence |].
  intros k Hk. rewrite (K2 k Hk). apply K1, Hk.
Qed.

Lemma Forall2_same (c : ini.File) : Forall2 sameButProfileKeys c c.
Proof.
  induction c; constructor; auto using sameButProfileKeys_refl.
Qed.

Lemma Forall2_same_trans (c1 c2 c3 : ini.File) :
  Forall2 sameButProfileKeys c1 c2 -> Forall2 sameButProfileKeys c2 c3 ->
  Forall2 sameButProfileKeys c1 c3.
Proof.
  intros H. revert c3. induction H as [| s1 s2 c1 c2 Hs _ IH]; intros c3 H23.
  - inversion H23. constructor.
  - inversion H23 as [| ? s3 ? c3' Hs' H' ]; subst. constructor.
    + eapply sameButProfileKeys_trans; eauto.
    + apply IH, H'.
Qed.

Lemma extendsFile_refl (c : ini.File) : extendsFile c c.
Proof.
  exists c, []. split; [rewrite app_nil_r; reflexivity | apply Forall2_same].
Qed.

Lemma extendsFile_trans (c1 c2 c3 : ini.File) :
  extendsFile c1 c2 -> extendsFile c2 c3 -> extendsFile c1 c3.
Proof.
  intros (k1 & a1 & -> & F1) (k2 & a2 & -> & F2).
  apply Forall2_app_inv_l in F2 as (l1 & l2 & F21 & F22 & ->).
  exists l1, (l2 ++ a2). split; [rewrite app_assoc; reflexivity |].
  eapply Forall2_same_trans; eauto.
Qed.

Lemma updateSection_same (c : ini.File) (m : string)
    (g : ini.section -> ini.section) :
  (forall s, sameButProfileKeys s (g s)) ->
  Forall2 sameButProfileKeys c (ini.updateSection c m g).
Proof.
  intros Hg. induction c as [| x c IH]; simpl; [constructor |].
  destruct (ini.Name x =? m)%string; constructor; auto using Forall2_same,
    sameButProfileKeys_refl.
Qed.

Lemma KeySetValue_extends (c : ini.File) (m k v : string) :
  In k profileKeys -> extendsFile c (ini.KeySetValue c m k v).
Proof.
  intros Hk. unfold ini.KeySetValue.
  destruct (ini.GetSection c m) as [s |]; [| apply extendsFile_refl].
  destruct (ini.GetKey c s k) as [[owner w] |].
  - eexists _, []. split; [rewrite app_nil_r; reflexivity |].
    apply updateSection_same. intros p. split; [reflexivity |].
    intros q Hq. simpl. rewrite lookupKey_setKey.
    destruct (String.eqb_spec k q) as [<- | _]; [contradiction | reflexivity].
  - eexists _, []. split; [rewrite app_nil_r; reflexivity |].
    apply updateSection_same. intros p. split; [reflexivity |].
    intros q Hq. simpl. rewrite lookupKey_app.
    destruct (ini.lookupKey (ini.keyList p) q); [reflexivity |].
    destruct (String.eqb_spec k q) as [<- | _]; [contradiction | reflexivity].
Qed.

Lemma setPairs_extends (m : string) (pairs : list (string * string)) (c : ini.File) :
  (forall k v, In (k, v) pairs -> In k profileKeys) ->
  extendsFile c (setPairs m pairs c).
Proof.
  revert c. induction pairs as [| [k v] rest IH]; intros c Hp.
  - apply extendsFile_refl.
  - rewrite setPairs_cons.
    apply extendsFile_trans with (c2 := ini.KeySetValue c m k v).
    + apply KeySetValue_extends, (Hp k v). simpl. auto.
    + apply IH. intros k' v' Hin. apply (Hp k' v'). simpl. auto.
Qed.

Section ApplyFrame.
Context {U : Unicode}.
Variable opts : Options.
Variables startURL region : string.

Lemma writeProfile_extends (cfg cfg' : ini.File) (profileName : string)
    (account : types.AccountInfo) :
  writeProfile opts cfg profileName account startURL region = Ok cfg' ->
  extendsFile cfg cfg'.
Proof.
  intros H. rewrite writeProfile_setPairs in H.
  destruct (match ini.GetSection cfg profileName with
            | Some s => Ok (cfg, s)
            | None => ini.NewSection cfg profileName
            end) as [[c1 s] | e] eqn:Start; cbn [bind fst snd] in H; [| discriminate].
  assert (E' : cfg' = setPairs (ini.Name s)
                        (profilePairs opts account startURL region) c1)
    by congruence.
  subst cfg'. clear H.
  apply extendsFile_trans with (c2 := c1).
  - destruct (ini.GetSection cfg profileName) as [s0 |].
    + injection Start as <- _. apply extendsFile_refl.
    + unfold ini.NewSection in Start.
      destruct (profileName =? "")%string; [discriminate |].
      destruct (find _ cfg).
      * injection Start as <- _. apply extendsFile_refl.
      * injection Start as <- _. eexists cfg, _.
        split; [reflexivity | apply Forall2_same].
  - apply setPairs_extends. unfold profilePairs, profileKeys. simpl.
    intros k v Hin.
    repeat (destruct Hin as [E | Hin];
            [injection E as <- _; simpl; tauto |]).
    contradiction.
Qed.

Hypothesis apply : Remove opts = false.

Lemma apply_extends (profilePrefix : string) (accounts : list types.AccountInfo)
    (cfg cfg' : ini.File) :
  updateAccounts opts profilePrefix accounts startURL region cfg = Ok cfg' ->
  extendsFile cfg cfg'.
Proof.
  revert cfg. induction accounts as [| a rest IH]; intros cfg H; simpl in H.
  - injection H as <-. apply extendsFile_refl.
  - unfold updateAccount in H. rewrite apply in H.
    destruct (DryRun opts).
    + simpl in H. apply IH, H.
    + destruct (writeProfile opts cfg (profileNameOf profilePrefix a) a
                  startURL region) as [c1 | e] eqn:W; simpl in H; [| discriminate].
      apply extendsFile_trans with (c2 := c1);
        [eapply writeProfile_extends; eauto | apply IH, H].
Qed.

(** X14: the apply mode leaves alone what is not a profile key: the file
    on disk after it has the sections of the file before it, in their order
    and under their names, and every key of them other than sso_start_url,
    sso_region, sso_account_id, sso_role_name and region has the value it
    had (or is absent as it was); sections that are new come after them. *)
Theorem apply_keeps_the_other_sections_and_keys
    (disk : Disk) (accounts : list types.AccountInfo) (profilePrefix : string)
    (f f' : ini.File) :
  content disk = Some f ->
  content (snd (updateAWSConfig opts disk accounts startURL region profilePrefix))
    = Some f' ->
  exists kept added,
    f' = kept ++ added
    /\ Forall2 (fun s s' =>
                  ini.Name s' = ini.Name s
                  /\ forall k, ~ In k profileKeys ->
                       ini.lookupKey (ini.keyList s') k
                       = ini.lookupKey (ini.keyList s) k)
               f kept.
Proof.
  intros Hc Hf'.
  unfold updateAWSConfig, Load, SaveTo in Hf'. rewrite Hc in Hf'.
  assert (Hsame : content disk = Some f' -> extendsFile f f').
  { intros Hd. rewrite Hc in Hd. injection Hd as <-. apply extendsFile_refl. }
  destruct (updateAccounts opts (withDash profilePrefix) accounts startURL region f)
    as [cfg' | e] eqn:E; [| exact (Hsame Hf')].
  destruct (DryRun opts); [exact (Hsame Hf') |].
  destruct (writable disk); [| exact (Hsame Hf')].
  simpl in Hf'. injection Hf' as <-.
  apply (apply_extends _ _ _ _ E).
Qed.

End ApplyFrame.

(** ** updateAWSConfig: failure, the default section, a second run *)

Lemma GetSection_default (c : ini.File) :
  ini.GetSection c "" = ini.GetSection c ini.DefaultSection.
Proof. reflexivity. Qed.

Lemma setKey_same (keys : list (string * string)) (k v : string) :
  ini.lookupKey keys k = Some v -> ini.setKey keys k v = keys.
Proof.
  induction keys as [| [k0 v0] rest IH]; simpl; [discriminate |].
  destruct (k0 =? k)%string.
  - intros E. injection E as <-. reflexivity.
  - intros E. rewrite (IH E). reflexivity.
Qed.

Lemma updateSection_id (c : ini.File) (n : string) (p : ini.section)
    (g : ini.section -> ini.section) :
  ini.GetSection c n = Some p -> g p = p ->
  ini.updateSection c (ini.Name p) g = c.
Proof.
  unfold ini.GetSection. intros G Hg.
  induction c as [| x c IH]; simpl in *; [discriminate |].
  destruct (String.eqb_spec (ini.Name x) (ini.sectionName n)) as [En | En].
  - injection G as <-. rewrite String.eqb_refl, Hg. reflexivity.
  - pose proof (find_some _ _ G) as [_ Ep]. apply String.eqb_eq in Ep.
    destruct (String.eqb_spec (ini.Name x) (ini.Name p)) as [E | _];
      [congruence |].
    rewrite (IH G). reflexivity.
Qed.

(** The section that holds an inherited key is a section of the file. *)
Lemma inherited_holder (c : ini.File) (names : list string) (k owner v : string) :
  ini.inherited c names k = Some (owner, v) ->
  exists n p, ini.GetSection c n = Some p /\ owner = ini.Name p
              /\ ini.lookupKey (ini.keyList p) k = Some v.
Proof.
  induction names as [| n rest IH]; simpl; [discriminate |].
  destruct (ini.GetSection c n) as [p |] eqn:G; [| exact IH].
  destruct (ini.lookupKey (ini.keyList p) k) as [w |] eqn:L; [| exact IH].
  intros E. injection E as <- <-. exists n, p. auto.
Qed.

(** Setting a key to the value that it has changes nothing. *)
Lemma KeySetValue_same (c : ini.File) (m k v : string) :
  resolvesTo c m k v -> ini.KeySetValue c m k v = c.
Proof.
  intros (s & G & K). apply keyIs_GetKey in K as [owner K].
  unfold ini.KeySetValue. rewrite G, K.
  assert (Hg : forall p, ini.lookupKey (ini.keyList p) k = Some v ->
                 ini.mkSection (ini.Name p) (ini.setKey (ini.keyList p) k v) = p).
  { intros [n keys] L. simpl in *. rewrite (setKey_same keys k v L). reflexivity. }
  unfold ini.GetKey in K.
  destruct (ini.lookupKey (ini.keyList s) k) as [w |] eqn:L.
  - injection K as <- <-. apply (updateSection_id c m s); [exact G |].
    apply Hg, L.
  - destruct (inherited_holder _ _ _ _ _ K) as (n & p & Gp & -> & Lp).
    apply (updateSection_id c n p); [exact Gp |]. apply Hg, Lp.
Qed.

Lemma setPairs_same (m : string) (pairs : list (string * string)) (c : ini.File) :
  (forall k v, In (k, v) pairs -> resolvesTo c m k v) ->
  setPairs m pairs c = c.
Proof.
  induction pairs as [| [k v] rest IH]; intros Hp; [reflexivity |].
  rewrite setPairs_cons, KeySetValue_same by (apply Hp; simpl; auto).
  apply IH. intros k' v' Hin. apply Hp. simpl. auto.
Qed.

Lemma updateSection_new (c : ini.File) (s : ini.section)
    (g : ini.section -> ini.section) :
  find (fun x => (ini.Name x =? ini.Name s)%string) c = None ->
  ini.updateSection (c ++ [s]) (ini.Name s) g = c ++ [g s].
Proof.
  induction c as [| x c IH]; simpl.
  - intros _. rewrite String.eqb_refl. reflexivity.
  - destruct (ini.Name x =? ini.Name s)%string; [discriminate |].
    intros F. rewrite (IH F). reflexivity.
Qed.

(** Setting a key that a new section, no child section, has not: the key
    is put at the end of its keys. *)
Lemma KeySetValue_new (c : ini.File) (name : string)
    (keys : list (string * string)) (k v : string) :
  ini.GetSection c name = None -> name <> "" -> hasDot name = false ->
  ini.lookupKey keys k = None ->
  ini.KeySetValue (c ++ [ini.mkSection name keys]) name k v
  = c ++ [ini.mkSection name (keys ++ [(k, v)])].
Proof.
  intros G Hne Hdot L. unfold ini.KeySetValue.
  rewrite GetSection_app_new, G. simpl.
  rewrite (sectionName_nonempty _ Hne), String.eqb_refl.
  rewrite GetKey_no_dot by exact Hdot. simpl. rewrite L.
  apply (updateSection_new c (ini.mkSection name keys)).
  unfold ini.GetSection in G. rewrite (sectionName_nonempty _ Hne) in G. exact G.
Qed.

Section ApplyEdges.
Context {U : Unicode}.
Variable opts : Options.
Variables startURL region : string.

(** With the default section in the file, [writeProfile] gives a file,
    and the default section is in it. *)
Lemma writeProfile_succeeds (cfg : ini.File) (profileName : string)
    (account : types.AccountInfo) (d : ini.section) :
  ini.GetSection cfg "" = Some d ->
  exists cfg' d',
    writeProfile opts cfg profileName account startURL region = Ok cfg'
    /\ ini.GetSection cfg' "" = Some d'.
Proof.
  intros Hd. rewrite writeProfile_setPairs.
  destruct (match ini.GetSection cfg profileName with
            | Some s => Ok (cfg, s)
            | None => ini.NewSection cfg profileName
            end) as [[c1 s] | e] eqn:Start.
  - destruct (fetch_or_create _ _ _ _ Start) as (_ & _ & S01).
    destruct (settles_GetSection "" "" cfg c1 "" d (S01 "" "") Hd) as [d1 Hd1].
    destruct (setPairs_GetSection (ini.Name s)
                (profilePairs opts account startURL region) c1 "" d1 Hd1)
      as [d' Hd'].
    cbn [bind fst snd]. eauto.
  - exfalso.
    destruct (ini.GetSection cfg profileName) as [s0 |] eqn:G; [discriminate |].
    unfold ini.NewSection in Start.
    destruct (String.eqb_spec profileName "") as [-> | _]; [congruence |].
    destruct (find _ cfg); discriminate.
Qed.

Lemma updateAccounts_succeeds (profilePrefix : string)
    (accounts : list types.AccountInfo) (cfg : ini.File) (d : ini.section) :
  Remove opts = false ->
  ini.GetSection cfg "" = Some d ->
  exists cfg', updateAccounts opts profilePrefix accounts startURL region cfg = Ok cfg'.
Proof.
  intros apply. revert cfg d.
  induction accounts as [| a rest IH]; intros cfg d Hd; simpl; [eauto |].
  unfold updateAccount. rewrite apply.
  destruct (DryRun opts); simpl; [apply (IH cfg d Hd) |].
  destruct (writeProfile_succeeds cfg (profileNameOf profilePrefix a) a d Hd)
    as (c1 & d1 & -> & Hd1).
  simpl. apply (IH c1 d1 Hd1).
Qed.

(** X15: on a file that has the default section, as every loaded file
    has, and that can be written, [updateAWSConfig] returns no error, in
    every mode and for every list of accounts: the making of a section
    cannot fail, since an empty profile name stands for the default
    section. *)
Theorem updateAWSConfig_returns_no_error
    (disk : Disk) (accounts : list types.AccountInfo) (profilePrefix : string)
    (f : ini.File) :
  content disk = Some f -> writable disk = true ->
  ini.HasSection f ini.DefaultSection = true ->
  fst (updateAWSConfig opts disk accounts startURL region profilePrefix) = None.
Proof.
  intros Hc Hw Hd. unfold updateAWSConfig, Load, SaveTo. rewrite Hc, Hw.
  assert (Ok' : exists cfg',
             updateAccounts opts (withDash profilePrefix) accounts startURL region f
             = Ok cfg').
  { destruct (Remove opts) eqn:R.
    - apply (removal_never_fails opts startURL region R).
    - unfold ini.HasSection in Hd. rewrite <- GetSection_default in Hd.
      destruct (ini.GetSection f "") as [d |] eqn:G; [| discriminate].
      apply (updateAccounts_succeeds _ _ _ d R G). }
  destruct Ok' as [cfg' ->]. destruct (DryRun opts); reflexivity.
Qed.

Hypothesis apply : Remove opts = false.
Hypothesis wet : DryRun opts = false.

(** X16: an account whose name has no letter, digit or hyphen left after
    the derivation, in a run without prefix, has the empty profile name:
    its keys are written to the default section of the file. *)
Theorem nameless_account_goes_to_the_default_section
    (disk disk' : Disk) (accounts : list types.AccountInfo)
    (account : types.AccountInfo) :
  In account accounts ->
  normalizeAccountName (types.AccountName account) = "" ->
  updateAWSConfig opts disk accounts startURL region "" = (None, disk') ->
  exists f' d,
    content disk' = Some f'
    /\ ini.GetSection f' ini.DefaultSection = Some d
    /\ keyIs f' d "sso_start_url" startURL
    /\ keyIs f' d "sso_role_name" (RoleName opts).
Proof.
  intros Hin Hname H.
  destruct (updateAWSConfig_applied opts startURL region wet _ _ _ _ H)
    as (cfg & cfg' & _ & E & ->).
  assert (Hp : profileNameOf (withDash "") account = "").
  { unfold profileNameOf. rewrite Hname. reflexivity. }
  destruct (apply_run_keys opts startURL region apply wet _ _ _ _
              "sso_start_url" startURL (or_introl eq_refl) E) as [_ H1].
  destruct (apply_run_keys opts startURL region apply wet _ _ _ _
              "sso_role_name" (RoleName opts)
              (or_intror (or_intror (or_introl eq_refl))) E) as [_ H2].
  destruct (H1 account Hin) as (s1 & G1 & K1).
  destruct (H2 account Hin) as (s2 & G2 & K2).
  rewrite Hp in G1, G2. rewrite GetSection_default in G1, G2.
  exists cfg', s1. split; [reflexivity |]. split; [exact G1 |]. split; [exact K1 |].
  rewrite G1 in G2. injection G2 as <-. exact K2.
Qed.

(** [writeProfile] on a file in which the section of the profile has the
    five keys with the values of the account gives the file back. *)
Lemma writeProfile_same (cfg : ini.File) (profileName : string)
    (account : types.AccountInfo) :
  (forall k v, In (k, v) (profilePairs opts account startURL region) ->
               resolvesTo cfg profileName k v) ->
  writeProfile opts cfg profileName account startURL region = Ok cfg.
Proof.
  intros Hp. rewrite writeProfile_setPairs.
  destruct (Hp "region" region) as (s & G & _); [simpl; tauto |].
  rewrite G. cbn [bind fst snd].
  destruct (GetSection_Some _ _ _ G) as [_ En].
  rewrite setPairs_same; [reflexivity |].
  intros k v Hin. destruct (Hp k v Hin) as (s' & G' & K').
  exists s'. split; [| exact K'].
  rewrite En, GetSection_sectionName. exact G'.
Qed.

(** X17: a second run of the apply mode with the same input changes
    nothing, provided that after the first run the section of every account
    shows the id of this account (no other account of the run has
    overwritten it): the file saved by the second run is the file saved by
    the first. *)
Theorem second_apply_run_changes_nothing
    (disk disk' : Disk) (accounts : list types.AccountInfo) (profilePrefix : string)
    (f' : ini.File) :
  updateAWSConfig opts disk accounts startURL region profilePrefix = (None, disk') ->
  content disk' = Some f' ->
  (forall account, In account accounts ->
     resolvesTo f' (profileNameOf (withDash profilePrefix) account)
       "sso_account_id" (types.AccountId account)) ->
  updateAWSConfig opts disk' accounts startURL region profilePrefix = (None, disk').
Proof.
  intros H Hc Hids.
  destruct (updateAWSConfig_applied opts startURL region wet _ _ _ _ H)
    as (cfg & cfg' & _ & E & ->).
  simpl in Hc. injection Hc as <-.
  assert (Hall : forall account k v,
             In account accounts ->
             In (k, v) (profilePairs opts account startURL region) ->
             resolvesTo cfg' (profileNameOf (withDash profilePrefix) account) k v).
  { intros account k v Hin Hk. unfold profilePairs in Hk. simpl in Hk.
    destruct Hk as [Ek | [Ek | [Ek | [Ek | [Ek | []]]]]]; injection Ek as <- <-.
    - apply (apply_run_keys opts startURL region apply wet _ _ _ _ _ _
               (or_introl eq_refl) E), Hin.
    - apply (apply_run_keys opts startURL region apply wet _ _ _ _ _ _
               (or_intror (or_introl eq_refl)) E), Hin.
    - apply Hids, Hin.
    - apply (apply_run_keys opts startURL region apply wet _ _ _ _ _ _
               (or_intror (or_intror (or_introl eq_refl))) E), Hin.
    - apply (apply_run_keys opts startURL region apply wet _ _ _ _ _ _
               (or_intror (or_intror (or_intror (or_introl eq_refl)))) E), Hin. }
  assert (Hagain : forall l, incl l accounts ->
             updateAccounts opts (withDash profilePrefix) l startURL region cfg'
             = Ok cfg').
  { induction l as [| a l IH]; intros Hl; [reflexivity |].
    simpl. rewrite (updateAccount_apply opts startURL region apply wet).
    rewrite writeProfile_same.
    - simpl. apply IH. intros x Hx. apply Hl. simpl. auto.
    - intros k v Hk. apply Hall; [apply Hl; simpl; auto | exact Hk]. }
  unfold updateAWSConfig, Load, SaveTo. simpl.
  rewrite (Hagain accounts (incl_refl _)), wet. reflexivity.
Qed.

(** X18: for an account whose profile name is not empty, has no dot and
    is the name of no section of the file, one turn of the loop of the apply
    mode puts one section at the end of the file: it has this name and the
    keys sso_start_url, sso_region, sso_account_id, sso_role_name and
    region, in this order, with the values of the run; the sections before
    it are as they were. *)
Theorem new_profile_is_appended
    (profilePrefix : string) (account : types.AccountInfo) (cfg : ini.File) :
  profileNameOf profilePrefix account <> "" ->
  hasDot (profileNameOf profilePrefix account) = false ->
  ini.GetSection cfg (profileNameOf profilePrefix account) = None ->
  updateAccount opts profilePrefix account startURL region cfg
  = Ok (cfg ++ [newProfile opts (profileNameOf profilePrefix account) account
                  startURL region]).
Proof.
  intros Hne Hdot G.
  rewrite (updateAccount_apply opts startURL region apply wet).
  set (name := profileNameOf profilePrefix account) in *.
  unfold writeProfile. rewrite G. unfold ini.NewSection.
  destruct (String.eqb_spec name "") as [E | _]; [contradiction |].
  assert (F : find (fun s => (ini.Name s =? name)%string) cfg = None).
  { unfold ini.GetSection in G. rewrite (sectionName_nonempty _ Hne) in G. exact G. }
  rewrite F. cbn [bind ini.Name].
  rewrite !(KeySetValue_new cfg name _ _ _ G Hne Hdot) by reflexivity.
  reflexivity.
Qed.

End ApplyEdges.

(** ** The derived name, and the run as a whole *)

Section NameFacts.
Context {U : Unicode}.

(** X19: the name derived from an account name has only lowercase
    letters, digits and hyphens, whatever the account name is. *)
Theorem normalizeAccountName_charset (name : string) (c : ascii) :
  In c (list_ascii_of_string (normalizeAccountName name)) ->
  (97 <= byte c <= 122)%N \/ (48 <= byte c <= 57)%N \/ c = "-"%char.
Proof.
  unfold normalizeAccountName. rewrite list_ascii_of_string_of_list_ascii.
  intros Hin. apply filter_In in Hin as [_ Hk].
  unfold keepRune in Hk.
  apply orb_true_iff in Hk as [Hk | Hk]; [apply orb_true_iff in Hk as [Hk | Hk] |].
  - left. apply andb_true_iff in Hk as [H1 H2]. apply N.leb_le in H1, H2. lia.
  - right. left. apply andb_true_iff in Hk as [H1 H2]. apply N.leb_le in H1, H2. lia.
  - right. right. apply N.eqb_eq in Hk. unfold byte in Hk.
    rewrite <- (ascii_N_embedding c), Hk. reflexivity.
Qed.

End NameFacts.

Section MainComposition.
Context {U : Unicode}.
Variable opts : Options.
Variable Unmarshal : string -> result SSOToken.t.
Variable fs : FileSystem.
Variable home : string.
Variable LoadDefaultConfig : string -> result sso.Client.
Hypothesis apply : Remove opts = false.
Hypothesis wet : DryRun opts = false.

(** X21: a run of the program in the apply mode that exits with 0 has
    read a token, listed the accounts with the access token of this token,
    and saved a file in which the section of every listed account has the
    start URL of the token as sso_start_url, and as region the region of the
    options when one is given and the region of the token otherwise. *)
Theorem main_writes_what_the_token_says (fuel : nat) (disk disk' : Disk) :
  main opts Unmarshal fs home LoadDefaultConfig fuel disk = Some (0%Z, disk') ->
  exists token client accounts f',
    readSSOToken opts Unmarshal fs home = Ok token
    /\ LoadDefaultConfig (effectiveRegion opts token) = Ok client
    /\ listSSOAccounts opts client (SSOToken.AccessToken token) fuel
       = Some (Ok accounts)
    /\ content disk' = Some f'
    /\ forall account, In account accounts ->
         resolvesTo f' (profileNameOf (withDash (ProfilePrefix opts)) account)
           "sso_start_url" (SSOToken.StartURL token)
         /\ resolvesTo f' (profileNameOf (withDash (ProfilePrefix opts)) account)
              "region"
              (if (Region opts =? "")%string then SSOToken.Region token
               else Region opts).
Proof.
  unfold main. intros H.
  destruct (readSSOToken opts Unmarshal fs home) as [token | e]; [| discriminate].
  destruct (LoadDefaultConfig (effectiveRegion opts token)) as [client | e] eqn:L;
    [| discriminate].
  destruct (listSSOAccounts opts client (SSOToken.AccessToken token) fuel)
    as [[accounts | e] |] eqn:A; try discriminate.
  destruct (updateAWSConfig opts disk accounts (SSOToken.StartURL token)
              (effectiveRegion opts token) (ProfilePrefix opts))
    as [[e |] d] eqn:W; [discriminate |].
  injection H as <-.
  destruct (updateAWSConfig_applied opts _ _ wet _ _ _ _ W)
    as (cfg & cfg' & _ & E & ->).
  exists token, client, accounts, cfg'.
  repeat (split; [reflexivity || assumption |]).
  intros account Hin.
  assert (Hr : (if (Region opts =? "")%string then SSOToken.Region token
                else Region opts) = effectiveRegion opts token).
  { unfold effectiveRegion. destruct (Region opts =? "")%string; reflexivity. }
  rewrite Hr. split.
  - apply (apply_run_keys opts _ _ apply wet _ _ _ _ _ _ (or_introl eq_refl) E), Hin.
  - apply (apply_run_keys opts _ _ apply wet _ _ _ _ _ _
             (or_intror (or_intror (or_intror (or_introl eq_refl)))) E), Hin.
Qed.

End MainComposition.

(** ** The removal mode goes by the keys *)

Section RemovalByKeys.
Context {U : Unicode}.
Variable opts : Options.
Variables startURL region : string.
Hypothesis removal : Remove opts = true.

Lemma matchesRun_by_id (cfg : ini.File) (s : ini.section)
    (a1 a2 : types.AccountInfo) :
  types.AccountId a1 = types.AccountId a2 ->
  matchesRun opts cfg s a1 startURL region = matchesRun opts cfg s a2 startURL region.
Proof.
  intros E. unfold matchesRun. rewrite E. reflexivity.
Qed.

Lemma removeMatching_by_id (sections : list ini.section)
    (a1 a2 : types.AccountInfo) (cfg : ini.File) :
  types.AccountId a1 = types.AccountId a2 ->
  removeMatching opts sections a1 startURL region cfg
  = removeMatching opts sections a2 startURL region cfg.
Proof.
  intros E. revert cfg. induction sections as [| s rest IH]; intros cfg; simpl.
  - reflexivity.
  - rewrite (matchesRun_by_id cfg s a1 a2 E).
    destruct (matchesRun opts cfg s a2 startURL region) as [matched c]. apply IH.
Qed.

Lemma removal_by_id (p1 p2 : string) (l1 l2 : list types.AccountInfo)
    (cfg : ini.File) :
  map types.AccountId l1 = map types.AccountId l2 ->
  updateAccounts opts p1 l1 startURL region cfg
  = updateAccounts opts p2 l2 startURL region cfg.
Proof.
  revert l2 cfg. induction l1 as [| a1 l1 IH]; intros [| a2 l2] cfg E;
    try discriminate E; [reflexivity |].
  simpl in E. injection E as Ea El.
  simpl. unfold updateAccount. rewrite removal. simpl.
  rewrite (removeMatching_by_id _ a1 a2 _ Ea). apply IH, El.
Qed.

(** X22: the removal mode goes by the keys of the sections, not by their
    names: its result is the same for every profile prefix and for all
    names of the accounts, as long as the ids of the accounts are the
    same. *)
Theorem removal_does_not_look_at_names
    (disk : Disk) (accounts1 accounts2 : list types.AccountInfo)
    (prefix1 prefix2 : string) :
  map types.AccountId accounts1 = map types.AccountId accounts2 ->
  updateAWSConfig opts disk accounts1 startURL region prefix1
  = updateAWSConfig opts disk accounts2 startURL region prefix2.
Proof.
  intros E. unfold updateAWSConfig.
  destruct (Load disk) as [cfg | e]; [| reflexivity].
  rewrite (removal_by_id (withDash prefix1) (withDash prefix2) _ _ cfg E).
  reflexivity.
Qed.

End RemovalByKeys.

(** ** The further properties on the examples *)

Lemma readSSOToken_ignores_other_entries_witness :
  readSSOToken (Example.tokenOpts "") Example.Unmarshal
    (withListing Sample.cache
       (filter (qualifiesb (Example.tokenOpts "") Example.Unmarshal Sample.cache
                  (cacheDirectory Example.home))
               ["notes.txt"; "a.json"; "broken.json"; "b.json"]))
    Example.home
  = readSSOToken (Example.tokenOpts "") Example.Unmarshal Sample.cache Example.home.
Proof.
  apply (readSSOToken_ignores_other_entries (Example.tokenOpts "")
           Example.Unmarshal Sample.cache Example.home
           ["notes.txt"; "a.json"; "broken.json"; "b.json"] eq_refl).
Defined.

Example readSSOToken_takes_the_newer_token :
  readSSOToken (Example.tokenOpts "") Example.Unmarshal Sample.cache Example.home
  = Ok Sample.tokenB
  /\ filter (qualifiesb (Example.tokenOpts "") Example.Unmarshal Sample.cache
               (cacheDirectory Example.home))
            ["notes.txt"; "a.json"; "broken.json"; "b.json"]
     = ["a.json"; "b.json"].
Proof. split; reflexivity. Qed.

Lemma readSSOToken_token_of_the_domain_witness :
  (exists before after,
     SSOToken.StartURL Sample.tokenB
     = (before ++ StartDomain (Example.tokenOpts "b.awsapps") ++ after)%string)
  /\ exists files base,
       ReadDir Sample.cache (cacheDirectory Example.home) = Ok files
       /\ In (base ++ ".json")%string files
       /\ candidateToken (Example.tokenOpts "b.awsapps") Example.Unmarshal
            Sample.cache (cacheDirectory Example.home) (base ++ ".json")%string
          = Some Sample.tokenB.
Proof.
  apply (readSSOToken_token_of_the_domain (Example.tokenOpts "b.awsapps")
           Example.Unmarshal Sample.cache Example.home Sample.tokenB eq_refl).
Defined.

Lemma readSSOToken_none_qualifies_witness :
  readSSOToken (Example.tokenOpts "") Example.Unmarshal Sample.noToken Example.home
  = Err ErrTokenNotFound.
Proof.
  apply (readSSOToken_none_qualifies (Example.tokenOpts "") Example.Unmarshal
           Sample.noToken Example.home ["notes.txt"] eq_refl).
  intros file [<- | []]. reflexivity.
Defined.

Lemma readSSOToken_finds_witness :
  exists token,
    readSSOToken (Example.tokenOpts "") Example.Unmarshal Sample.cache Example.home
    = Ok token.
Proof.
  apply (readSSOToken_finds (Example.tokenOpts "") Example.Unmarshal Sample.cache
           Example.home ["notes.txt"; "a.json"; "broken.json"; "b.json"]
           "a.json" 1700000000%Z eq_refl).
  - simpl. auto.
  - intros E. vm_compute in E. discriminate E.
  - reflexivity.
  - lia.
Defined.

Lemma listSSOAccounts_listing_error_witness :
  listSSOAccounts Example.applyOpts Sample.failingListing "access-token" 2
  = Some (Err ErrTransport).
Proof.
  apply (listSSOAccounts_listing_error Example.applyOpts Sample.failingListing
           "access-token" 2 [[Example.admin]] ErrTransport).
  - apply accountListingFails_later with (t := "page-2"); [reflexivity |].
    apply accountListingFails_now. reflexivity.
  - intros account Hin _. simpl in Hin. destruct Hin as [<- | []]. discriminate.
  - simpl. lia.
Defined.

Lemma Sample_failingRoles_pages :
  accountPages Sample.failingRoles "access-token" None
    [[Example.admin]; [Example.guest]].
Proof.
  apply accountPages_more with (t := "page-2"); [reflexivity |].
  apply accountPages_last. reflexivity.
Qed.

Lemma listSSOAccounts_skips_failed_role_check_witness :
  exists accounts,
    listSSOAccounts Example.applyOpts Sample.failingRoles "access-token" 2
    = Some (Ok accounts)
    /\ ~ In Example.guest accounts.
Proof.
  apply (listSSOAccounts_skips_failed_role_check Example.applyOpts
           Sample.failingRoles "access-token" 2
           [[Example.admin]; [Example.guest]] Example.guest ErrTransport).
  - discriminate.
  - exact Sample_failingRoles_pages.
  - intros account Hin _. simpl in Hin.
    destruct Hin as [<- | [<- | []]]; discriminate.
  - simpl. lia.
  - reflexivity.
Defined.

Lemma validateRoleForAccount_stops_at_the_role_witness :
  validateRoleForAccount Example.applyOpts Sample.pagedRoles "access-token" 2
    "111111111111"
  = Some (Ok true).
Proof.
  apply (validateRoleForAccount_stops_at_the_role Example.applyOpts
           Sample.pagedRoles "access-token" "111111111111" (Some "roles-2")
           [[types.mkRole "ReadOnly"]]
           (sso.mkRoles [types.mkRole "AdministratorAccess"] (Some "roles-3")) 2).
  - apply roleListingReaches_on with (t := "roles-2"); [reflexivity |].
    apply roleListingReaches_here.
  - reflexivity.
  - reflexivity.
  - reflexivity.
  - simpl. lia.
Defined.

Lemma validateRoleForAccount_listing_error_witness :
  validateRoleForAccount Sample.powerUserOpts Sample.pagedRoles "access-token" 3
    "111111111111"
  = Some (Err ErrTransport).
Proof.
  apply (validateRoleForAccount_listing_error Sample.powerUserOpts
           Sample.pagedRoles "access-token" "111111111111" (Some "roles-3")
           [[types.mkRole "ReadOnly"]; [types.mkRole "AdministratorAccess"]]
           ErrTransport 3).
  - apply roleListingReaches_on with (t := "roles-2"); [reflexivity |].
    apply roleListingReaches_on with (t := "roles-3"); [reflexivity |].
    apply roleListingReaches_here.
  - reflexivity.
  - reflexivity.
  - simpl. lia.
Defined.

Lemma listSSOAccounts_without_filter_ignores_roles_witness :
  listSSOAccounts Sample.noFilterOpts
    (sso.mkClient (sso.ListAccounts Example.client)
                  (fun _ _ _ => Err ErrTransport))
    "access-token" 2
  = listSSOAccounts Sample.noFilterOpts Example.client "access-token" 2.
Proof.
  apply (listSSOAccounts_without_filter_ignores_roles Sample.noFilterOpts
           "access-token" eq_refl Example.client (fun _ _ _ => Err ErrTransport) 2).
Defined.

Lemma removal_only_deletes_witness :
  Remove Example.removeOpts = true
  /\ loaded Example.config
  /\ defaultStays Example.removeOpts [Example.account]
       Example.startURL Example.region Example.config
  /\ (exists keep : string -> bool,
        ini.Empty ++ [Example.otherRole]
        = filter (fun s => keep (ini.Name s)) Example.config)
  /\ ini.GetSection (ini.Empty ++ [Example.otherRole]) ""
     = ini.GetSection Example.config "".
Proof.
  split; [reflexivity |]. split; [exact Example_config_loaded |].
  split; [apply (empty_default_stays _ _ _ _ [Example.profile; Example.otherRole]) |].
  apply (@removal_only_deletes asciiUnicode Example.removeOpts Example.startURL
           Example.region (mkDisk (Some Example.config) true) [Example.account]
           "mock" Example.config (ini.Empty ++ [Example.otherRole])
           eq_refl Example_config_loaded
           (empty_default_stays _ _ _ _ [Example.profile; Example.otherRole])
           eq_refl eq_refl).
Defined.

Lemma Example_config_flat : flat Example.config.
Proof.
  intros s Hs. simpl in Hs. destruct Hs as [<- | [<- | [<- | []]]]; reflexivity.
Defined.

Lemma Example_config_plainFile : plainFile Example.config.
Proof.
  intros s k v Hs H. unfold holds in H. simpl in Hs.
  destruct Hs as [<- | [<- | [<- | []]]]; simpl in H;
    repeat match type of H with
           | (if ?b then _ else _) = _ =>
               destruct b; [injection H as <-; reflexivity |]
           end;
    discriminate H.
Defined.

Lemma removal_without_child_sections_witness :
  Remove Example.removeOpts = true
  /\ DryRun Example.removeOpts = false
  /\ loaded Example.config /\ flat Example.config /\ plainFile Example.config
  /\ defaultStays Example.removeOpts [Example.account]
       Example.startURL Example.region Example.config
  /\ let f' := filter (fun s => negb (existsb
                      (fun account => holdsRunb Example.removeOpts s account
                                        Example.startURL Example.region)
                      [Example.account])) Example.config in
     @updateAWSConfig asciiUnicode Example.removeOpts
       (mkDisk (Some Example.config) true) [Example.account]
       Example.startURL Example.region "mock"
     = (None, mkDisk (Some f') true)
     /\ ini.GetSection f' "" = ini.GetSection Example.config "".
Proof.
  split; [reflexivity |]. split; [reflexivity |].
  split; [exact Example_config_loaded |].
  split; [exact Example_config_flat |].
  split; [exact Example_config_plainFile |].
  split; [apply (empty_default_stays _ _ _ _ [Example.profile; Example.otherRole]) |].
  apply (@removal_without_child_sections asciiUnicode Example.removeOpts
           Example.startURL Example.region eq_refl eq_refl
           (mkDisk (Some Example.config) true) [Example.account] "mock"
           Example.config eq_refl eq_refl Example_config_loaded
           Example_config_flat Example_config_plainFile
           (empty_default_stays _ _ _ _ [Example.profile; Example.otherRole])).
Defined.

Lemma applied_sections_have_the_url_and_the_role_witness :
  exists f',
    content Sample.appliedDisk = Some f'
    /\ forall account, In account [Example.account] ->
         exists s,
           ini.GetSection f' (@profileNameOf asciiUnicode (withDash "mock") account)
           = Some s
           /\ keyIs f' s "sso_start_url" Example.startURL
           /\ keyIs f' s "sso_role_name" (RoleName Example.applyOpts).
Proof.
  apply (@applied_sections_have_the_url_and_the_role asciiUnicode Example.applyOpts
           Example.startURL Example.region eq_refl eq_refl
           Sample.emptyDisk Sample.appliedDisk [Example.account] "mock" eq_refl).
Defined.

(** The first test of the repository: two accounts. *)
Example apply_of_two_accounts :
  @updateAWSConfig asciiUnicode Example.applyOpts Sample.emptyDisk
    [Example.account; Sample.another] Example.startURL Example.region "mock"
  = (None,
     mkDisk (Some (ini.Empty ++
       [Example.profile;
        newProfile Example.applyOpts "mock-anothermockaccount" Sample.another
          Example.startURL Example.region])) true).
Proof. reflexivity. Qed.

Lemma last_account_has_its_id_witness :
  exists f' s,
    content (snd (@updateAWSConfig asciiUnicode Example.applyOpts Sample.emptyDisk
                    ([Example.account] ++ [Sample.another])
                    Example.startURL Example.region "mock")) = Some f'
    /\ ini.GetSection f'
         (@profileNameOf asciiUnicode (withDash "mock") Sample.another) = Some s
    /\ keyIs f' s "sso_account_id" (types.AccountId Sample.another).
Proof.
  apply (@last_account_has_its_id asciiUnicode Example.applyOpts
           Example.startURL Example.region eq_refl eq_refl
           Sample.emptyDisk _ [Example.account] Sample.another "mock" eq_refl).
Defined.

Lemma apply_keeps_the_other_sections_and_keys_witness :
  exists kept added,
    ini.Empty ++ [Example.fourKeys; Example.profile] = kept ++ added
    /\ Forall2 (fun s s' =>
                  ini.Name s' = ini.Name s
                  /\ forall k, ~ In k profileKeys ->
                       ini.lookupKey (ini.keyList s') k
                       = ini.lookupKey (ini.keyList s) k)
               Example.legacyConfig kept.
Proof.
  apply (@apply_keeps_the_other_sections_and_keys asciiUnicode Example.applyOpts
           Example.startURL Example.region eq_refl
           (mkDisk (Some Example.legacyConfig) true) [Example.account] "mock"
           Example.legacyConfig _ eq_refl eq_refl).
Defined.

Lemma updateAWSConfig_returns_no_error_witness :
  fst (@updateAWSConfig asciiUnicode Example.applyOpts Sample.emptyDisk
         [Example.account; Sample.nameless] Example.startURL Example.region "")
  = None.
Proof.
  apply (@updateAWSConfig_returns_no_error asciiUnicode Example.applyOpts
           Example.startURL Example.region Sample.emptyDisk
           [Example.account; Sample.nameless] "" ini.Empty
           eq_refl eq_refl eq_refl).
Defined.

Lemma nameless_account_goes_to_the_default_section_witness :
  exists f' d,
    content (snd (@updateAWSConfig asciiUnicode Example.applyOpts Sample.emptyDisk
                    [Sample.nameless] Example.startURL Example.region ""))
    = Some f'
    /\ ini.GetSection f' ini.DefaultSection = Some d
    /\ keyIs f' d "sso_start_url" Example.startURL
    /\ keyIs f' d "sso_role_name" (RoleName Example.applyOpts).
Proof.
  apply (@nameless_account_goes_to_the_default_section asciiUnicode
           Example.applyOpts Example.startURL Example.region eq_refl eq_refl
           Sample.emptyDisk _ [Sample.nameless] Sample.nameless).
  - simpl. auto.
  - reflexivity.
  - reflexivity.
Defined.

Lemma second_apply_run_changes_nothing_witness :
  @updateAWSConfig asciiUnicode Example.applyOpts Sample.appliedDisk
    [Example.account] Example.startURL Example.region "mock"
  = (None, Sample.appliedDisk).
Proof.
  apply (@second_apply_run_changes_nothing asciiUnicode Example.applyOpts
           Example.startURL Example.region eq_refl eq_refl
           Sample.emptyDisk Sample.appliedDisk [Example.account] "mock"
           (ini.Empty ++ [Example.profile]) eq_refl eq_refl).
  intros account [<- | []].
  exists Example.profile. split; [reflexivity |]. split; reflexivity.
Defined.

Lemma new_profile_is_appended_witness :
  @updateAccount asciiUnicode Example.applyOpts "mock-" Example.account
    Example.startURL Example.region Example.legacyConfig
  = Ok (Example.legacyConfig ++
          [newProfile Example.applyOpts
             (@profileNameOf asciiUnicode "mock-" Example.account)
             Example.account Example.startURL Example.region]).
Proof.
  apply (@new_profile_is_appended asciiUnicode Example.applyOpts
           Example.startURL Example.region eq_refl eq_refl
           "mock-" Example.account Example.legacyConfig).
  - discriminate.
  - reflexivity.
  - reflexivity.
Defined.

Lemma normalizeAccountName_charset_witness :
  (97 <= byte "m" <= 122)%N \/ (48 <= byte "m" <= 57)%N \/ "m"%char = "-"%char.
Proof.
  apply (@normalizeAccountName_charset asciiUnicode "MockAccount" "m"%char).
  simpl. auto.
Defined.

Lemma main_dry_run_keeps_disk_witness :
  @main asciiUnicode (mkOptions true "" "" "AdministratorAccess" "" false)
    Example.Unmarshal
    Sample.cache Example.home Sample.LoadDefaultConfig 2 Sample.emptyDisk
  = Some (0%Z, Sample.emptyDisk)
  /\ Sample.emptyDisk = Sample.emptyDisk.
Proof.
  split; [reflexivity |].
  apply (@main_dry_run_keeps_disk asciiUnicode
           (mkOptions true "" "" "AdministratorAccess" "" false)
           Example.Unmarshal Sample.cache Example.home Sample.LoadDefaultConfig
           2 Sample.emptyDisk Sample.emptyDisk 0%Z eq_refl eq_refl).
Defined.

Lemma main_writes_what_the_token_says_witness :
  exists token client accounts f',
    readSSOToken Example.applyOpts Example.Unmarshal Sample.cache Example.home
    = Ok token
    /\ Sample.LoadDefaultConfig (effectiveRegion Example.applyOpts token) = Ok client
    /\ listSSOAccounts Example.applyOpts client (SSOToken.AccessToken token) 2
       = Some (Ok accounts)
    /\ content Sample.mainDisk = Some f'
    /\ forall account, In account accounts ->
         resolvesTo f'
           (@profileNameOf asciiUnicode
              (withDash (ProfilePrefix Example.applyOpts)) account)
           "sso_start_url" (SSOToken.StartURL token)
         /\ resolvesTo f'
              (@profileNameOf asciiUnicode
                 (withDash (ProfilePrefix Example.applyOpts)) account)
              "region"
              (if (Region Example.applyOpts =? "")%string
               then SSOToken.Region token else Region Example.applyOpts).
Proof.
  apply (@main_writes_what_the_token_says asciiUnicode Example.applyOpts
           Example.Unmarshal Sample.cache Example.home Sample.LoadDefaultConfig
           eq_refl eq_refl 2 Sample.emptyDisk Sample.mainDisk eq_refl).
Defined.

Lemma removal_does_not_look_at_names_witness :
  @updateAWSConfig asciiUnicode Example.removeOpts
    (mkDisk (Some Example.config) true) [Example.account]
    Example.startURL Example.region "mock"
  = @updateAWSConfig asciiUnicode Example.removeOpts
      (mkDisk (Some Example.config) true)
      [types.mkAccount "123456789012" "Renamed Account"]
      Example.startURL Example.region "other".
Proof.
  apply (@removal_does_not_look_at_names asciiUnicode Example.removeOpts
           Example.startURL Example.region eq_refl
           (mkDisk (Some Example.config) true) [Example.account]
           [types.mkAccount "123456789012" "Renamed Account"] "mock" "other"
           eq_refl).
Defined.
